(** * Rover: task state machine, prompt resolver, response parser, credit check

    A shallow embedding of the parts of the rover repository that carry the
    behaviour described in the specification:

    - [TaskDescriptionManager] (task description document, status machine,
      save / load / migrate, and its other methods: [delete], the setters,
      [updateExecutionStatus], [getDuration], [migrateStatus]),
    - [Runner] (prompt building, output parsing, step result),
    - [ACPRunner] ([buildACPPrompt], the string and file outputs,
      [parseStepOutputs] and [runStep]),
    - [isCreditExhaustedError] and its pattern,
    - [restartCommand] (status guard and the calls on the task),
    - [runCommand] (the tool and the mode, the defaults of the inputs, the
      loop over the steps, the report and the exit code),
    - the rows of the list command ([formatDuration], [buildTaskRow]).

    The first part holds the definitions, module by module; the second part,
    from [Properties] on, the lemmas and theorems about them.

    JavaScript values that reach these functions are JSON values; strings are
    byte strings holding UTF-8 text.  Numbers are integers, modelled in [Z];
    where the code adds one to a counter, the sum is rounded as a number of
    JavaScript is ([plus_one]).  The files of the runners are listed under
    their resolved paths; what the platform decides (the path functions, a
    copy or a removal that is refused) is a parameter of the model
    ([Host]). *)

From Stdlib Require Import String Ascii List ZArith NArith Bool Lia Arith.
From Stdlib Require Import DecimalString DecimalZ DecimalPos DecimalFacts.
Import ListNotations.

Local Open Scope list_scope.
Local Open Scope string_scope.

(* ================================================================== *)
(** ** Characters and strings *)
(* ================================================================== *)

Module Str.

Definition dquote : ascii := "034"%char.
Definition bslash : ascii := "092"%char.
Definition newline : ascii := "010"%char.
Definition tab : ascii := "009"%char.
Definition cret : ascii := "013"%char.
Definition formfeed : ascii := "012"%char.
Definition backspace : ascii := "008"%char.
Definition vtab : ascii := "011"%char.

Definition nl : string := String newline EmptyString.

Definition code (c : ascii) : N := N_of_ascii c.

Definition is_digit (c : ascii) : bool :=
  ((48 <=? code c) && (code c <=? 57))%N.

Definition is_upper (c : ascii) : bool :=
  ((65 <=? code c) && (code c <=? 90))%N.

Definition is_lower (c : ascii) : bool :=
  ((97 <=? code c) && (code c <=? 122))%N.

(** [String.prototype.toLowerCase] / [toUpperCase] on the ASCII range; bytes
    of multi-byte UTF-8 sequences are left alone. *)
Definition lower_char (c : ascii) : ascii :=
  if is_upper c then ascii_of_N (code c + 32) else c.

Definition upper_char (c : ascii) : ascii :=
  if is_lower c then ascii_of_N (code c - 32) else c.

Fixpoint map_chars (f : ascii -> ascii) (s : string) : string :=
  match s with
  | EmptyString => EmptyString
  | String c r => String (f c) (map_chars f r)
  end.

Definition toLowerCase : string -> string := map_chars lower_char.
Definition toUpperCase : string -> string := map_chars upper_char.

(** [s.startsWith(p)]: the rest of [s] after the prefix [p], if any. *)
Fixpoint strip_prefix (p s : string) : option string :=
  match p with
  | EmptyString => Some s
  | String c p' =>
      match s with
      | EmptyString => None
      | String d s' => if (c =? d)%char then strip_prefix p' s' else None
      end
  end.

Definition startsWith (s p : string) : bool :=
  match strip_prefix p s with Some _ => true | None => false end.

(** [s.indexOf(p) !== -1], returning the text before and after the first
    occurrence. *)
Fixpoint split_first (p s : string) : option (string * string) :=
  match strip_prefix p s with
  | Some rest => Some (EmptyString, rest)
  | None =>
      match s with
      | EmptyString => None
      | String c s' =>
          match split_first p s' with
          | Some (before, after) => Some (String c before, after)
          | None => None
          end
      end
  end.

Definition includes (s p : string) : bool :=
  match split_first p s with Some _ => true | None => false end.

Fixpoint rev_string_onto (s acc : string) : string :=
  match s with
  | EmptyString => acc
  | String c r => rev_string_onto r (String c acc)
  end.

Definition rev_string (s : string) : string := rev_string_onto s EmptyString.

Definition endsWith (s p : string) : bool :=
  startsWith (rev_string s) (rev_string p).

Fixpoint join (sep : string) (l : list string) : string :=
  match l with
  | [] => EmptyString
  | [x] => x
  | x :: r => x ++ sep ++ join sep r
  end.

(** [s.split(sep)] for a one-character separator. *)
Fixpoint split_on (sep : ascii) (s : string) : list string :=
  match s with
  | EmptyString => [EmptyString]
  | String c r =>
      if (c =? sep)%char then EmptyString :: split_on sep r
      else
        match split_on sep r with
        | [] => [String c EmptyString]
        | x :: l => String c x :: l
        end
  end.

(** No character of [s] is [c]. *)
Fixpoint lacks (c : ascii) (s : string) : bool :=
  match s with
  | EmptyString => true
  | String d r => negb (d =? c)%char && lacks c r
  end.

End Str.

(* ================================================================== *)
(** ** JSON values, [JSON.stringify (v, null, 2)] and [JSON.parse] *)
(* ================================================================== *)

Module Json.
Import Str.

(** The values a parsed document or an in-memory plain object holds.
    [JUndef] is JavaScript's [undefined]: it never comes out of [JSON.parse]
    but a property of an in-memory object can hold it. *)
#[local] Unset Elimination Schemes.
Inductive json : Type :=
| JUndef
| JNull
| JBool (b : bool)
| JNum (n : Z)
| JStr (s : string)
| JArr (l : list json)
| JObj (m : list (string * json)).
#[local] Set Elimination Schemes.

(** Objects are association lists in property enumeration order. *)
Definition obj : Type := list (string * json).

Definition Z_to_string (n : Z) : string := NilZero.string_of_int (Z.to_int n).

Definition MAX_SAFE_INTEGER : Z := 9007199254740991.

(** *** Number arithmetic on integers *)

(** The number nearest to an integer.  Up to 2^53 in absolute value it is
    the integer itself; beyond, it is the nearest integer that is written
    with 53 significant bits, the one whose last bit is even of two that
    are as near.  Integers stay below the largest number. *)
Definition nearest_number (z : Z) : Z :=
  let a := Z.abs z in
  if (a <=? 2 ^ 53)%Z then z
  else
    let e := (Z.log2 a - 52)%Z in
    let q := (a / 2 ^ e)%Z in
    let r := (a mod 2 ^ e)%Z in
    let half := (2 ^ (e - 1))%Z in
    let q' :=
      if (r <? half)%Z then q
      else if (half <? r)%Z then (q + 1)%Z
      else if Z.even q then q else (q + 1)%Z in
    (Z.sgn z * (q' * 2 ^ e))%Z.

(** [x + 1] for a number [x] that holds an integer. *)
Definition plus_one (x : Z) : Z := nearest_number (x + 1).

(** *** Property access and assignment on plain objects *)

Fixpoint lookup (m : obj) (k : string) : option json :=
  match m with
  | [] => None
  | (k', v) :: r => if String.eqb k' k then Some v else lookup r k
  end.

Definition has (m : obj) (k : string) : bool :=
  match lookup m k with Some _ => true | None => false end.

Fixpoint all_digits (s : string) : bool :=
  match s with
  | EmptyString => true
  | String c r => is_digit c && all_digits r
  end.

(** The value of a canonical decimal numeral: digits only, no leading zero
    unless the numeral is [0] itself. *)
Definition canonical_nat (s : string) : option Z :=
  if all_digits s then
    match NilZero.int_of_string s with
    | Some i =>
        let n := Z.of_int i in
        if String.eqb (Z_to_string n) s then Some n else None
    | None => None
    end
  else None.

(** An array index in the sense of ECMAScript: a canonical numeral below
    [2^32 - 1].  Such keys are enumerated first, in ascending order. *)
Definition array_index (k : string) : option Z :=
  match canonical_nat k with
  | Some n => if (n <? 4294967295)%Z then Some n else None
  | None => None
  end.

Fixpoint replace_value (m : obj) (k : string) (v : json) : obj :=
  match m with
  | [] => []
  | (k', v') :: r =>
      if String.eqb k' k then (k', v) :: r else (k', v') :: replace_value r k v
  end.

Fixpoint insert_index (m : obj) (i : Z) (k : string) (v : json) : obj :=
  match m with
  | [] => [(k, v)]
  | (k', v') :: r =>
      match array_index k' with
      | Some j =>
          if (j <? i)%Z then (k', v') :: insert_index r i k v
          else (k, v) :: m
      | None => (k, v) :: m
      end
  end.

(** [o[k] = v] on a plain object: an existing property keeps its place, a new
    array-index key goes among the index keys, any other new key goes last. *)
Definition set (m : obj) (k : string) (v : json) : obj :=
  if has m k then replace_value m k v
  else
    match array_index k with
    | Some i => insert_index m i k v
    | None => (m ++ [(k, v)])%list
    end.

(** [o.k] on a plain object whose prototype chain does not define [k]. *)
Definition get (m : obj) (k : string) : json :=
  match lookup m k with Some v => v | None => JUndef end.

(** [delete o[k]]. *)
Fixpoint remove (m : obj) (k : string) : obj :=
  match m with
  | [] => []
  | (k', v) :: r => if String.eqb k' k then r else (k', v) :: remove r k
  end.

(** Property access on any value the way the sources use it on parsed
    data: a property of a plain object, [undefined] on a primitive. *)
Definition field (v : json) (k : string) : json :=
  match v with
  | JObj m => get m k
  | _ => JUndef
  end.

(** JavaScript truthiness. *)
Definition truthy (v : json) : bool :=
  match v with
  | JUndef | JNull => false
  | JBool b => b
  | JNum n => negb (n =? 0)%Z
  | JStr s => negb (String.eqb s EmptyString)
  | JArr _ | JObj _ => true
  end.

(** [a || b]. *)
Definition or_else (a b : json) : json := if truthy a then a else b.

(** *** [JSON.stringify (v, null, 2)] *)

Definition hex_digit (n : N) : ascii :=
  if (n <? 10)%N then ascii_of_N (48 + n) else ascii_of_N (87 + n).

Definition escape_char (c : ascii) : string :=
  if (c =? dquote)%char then String bslash (String dquote EmptyString)
  else if (c =? bslash)%char then String bslash (String bslash EmptyString)
  else if (c =? backspace)%char then String bslash "b"
  else if (c =? tab)%char then String bslash "t"
  else if (c =? newline)%char then String bslash "n"
  else if (c =? formfeed)%char then String bslash "f"
  else if (c =? cret)%char then String bslash "r"
  else if (code c <? 32)%N then
    String bslash
      (String "u" (String "0" (String "0"
         (String (hex_digit (code c / 16)) (String (hex_digit (code c mod 16)) EmptyString)))))
  else String c EmptyString.

Fixpoint escape (s : string) : string :=
  match s with
  | EmptyString => EmptyString
  | String c r => escape_char c ++ escape r
  end.

Definition quote (s : string) : string :=
  String dquote (escape s ++ String dquote EmptyString).

Fixpoint indent (n : nat) : string :=
  match n with
  | O => EmptyString
  | S k => "  " ++ indent k
  end.

(** Lines of a non-empty array or object, joined by a comma and a line
    break at the inner indentation. *)
Fixpoint join_lines (ind : nat) (l : list string) : string :=
  match l with
  | [] => EmptyString
  | [x] => nl ++ indent (S ind) ++ x
  | x :: r => nl ++ indent (S ind) ++ x ++ "," ++ join_lines ind r
  end.

Definition bracket (op cl : string) (ind : nat) (l : list string) : string :=
  match l with
  | [] => op ++ cl
  | _ => op ++ join_lines ind l ++ nl ++ indent ind ++ cl
  end.

(** The lines of the properties of an object; a property holding
    [undefined] is left out. *)
Fixpoint member_lines (pr : json -> string) (m : list (string * json))
  : list string :=
  match m with
  | [] => []
  | (k, JUndef) :: r => member_lines pr r
  | (k, v) :: r => (quote k ++ ": " ++ pr v) :: member_lines pr r
  end.

(** The text of a value at nesting depth [ind].  [undefined] as an array
    element is written [null]; a property holding [undefined] is left out. *)
Fixpoint print (ind : nat) (v : json) : string :=
  match v with
  | JUndef => "null"
  | JNull => "null"
  | JBool true => "true"
  | JBool false => "false"
  | JNum n => Z_to_string n
  | JStr s => quote s
  | JArr l => bracket "[" "]" ind (List.map (print (S ind)) l)
  | JObj m =>
      bracket "{" "}" ind (member_lines (print (S ind)) m)
  end.

(** [JSON.stringify (v, null, 2)]; [None] is the [undefined] it returns for
    [undefined]. *)
Definition stringify (v : json) : option string :=
  match v with
  | JUndef => None
  | _ => Some (print 0 v)
  end.

(** *** [JSON.parse] *)

Definition is_ws (c : ascii) : bool :=
  (c =? " ")%char || (c =? tab)%char || (c =? newline)%char || (c =? cret)%char.

Fixpoint skip_ws (s : string) : string :=
  match s with
  | EmptyString => EmptyString
  | String c r => if is_ws c then skip_ws r else s
  end.

Definition hex_value (c : ascii) : option N :=
  if is_digit c then Some (code c - 48)%N
  else if ((97 <=? code c) && (code c <=? 102))%N then Some (code c - 87)%N
  else if ((65 <=? code c) && (code c <=? 70))%N then Some (code c - 55)%N
  else None.

Definition hex4 (a b c d : ascii) : option N :=
  match hex_value a, hex_value b, hex_value c, hex_value d with
  | Some x, Some y, Some z, Some w => Some (((x * 16 + y) * 16 + z) * 16 + w)%N
  | _, _, _, _ => None
  end.

(** UTF-8 bytes of the code unit of a [\uXXXX] escape.  Surrogate code
    units need their pair and are not covered: the parse fails on them. *)
Definition utf8_encode (n : N) : option string :=
  if (n <? 128)%N then Some (String (ascii_of_N n) EmptyString)
  else if (n <? 2048)%N then
    Some (String (ascii_of_N (192 + n / 64))
            (String (ascii_of_N (128 + n mod 64)) EmptyString))
  else if ((55296 <=? n) && (n <=? 57343))%N then None
  else
    Some (String (ascii_of_N (224 + n / 4096))
            (String (ascii_of_N (128 + (n / 64) mod 64))
               (String (ascii_of_N (128 + n mod 64)) EmptyString))).

Definition unescape (e : ascii) : option ascii :=
  if (e =? dquote)%char then Some dquote
  else if (e =? bslash)%char then Some bslash
  else if (e =? "/")%char then Some "/"%char
  else if (e =? "b")%char then Some backspace
  else if (e =? "f")%char then Some formfeed
  else if (e =? "n")%char then Some newline
  else if (e =? "r")%char then Some cret
  else if (e =? "t")%char then Some tab
  else None.

(** The characters of a string literal after its opening quote, and the
    text after its closing quote. *)
Fixpoint parse_chars (s : string) : option (string * string) :=
  match s with
  | EmptyString => None
  | String c r =>
      if (c =? dquote)%char then Some (EmptyString, r)
      else if (c =? bslash)%char then
        match r with
        | EmptyString => None
        | String e r' =>
            if (e =? "u")%char then
              match r' with
              | String h1 (String h2 (String h3 (String h4 r''))) =>
                  match hex4 h1 h2 h3 h4 with
                  | Some n =>
                      match utf8_encode n, parse_chars r'' with
                      | Some u, Some (t, rest) => Some (u ++ t, rest)
                      | _, _ => None
                      end
                  | None => None
                  end
              | _ => None
              end
            else
              match unescape e, parse_chars r' with
              | Some c', Some (t, rest) => Some (String c' t, rest)
              | _, _ => None
              end
        end
      else if (code c <? 32)%N then None
      else
        match parse_chars r with
        | Some (t, rest) => Some (String c t, rest)
        | None => None
        end
  end.

Fixpoint span_digits (s : string) : string * string :=
  match s with
  | EmptyString => (EmptyString, EmptyString)
  | String c r =>
      if is_digit c then let (d, rest) := span_digits r in (String c d, rest)
      else (EmptyString, s)
  end.

Definition number_continues (s : string) : bool :=
  match s with
  | EmptyString => false
  | String c _ => (c =? ".")%char || (c =? "e")%char || (c =? "E")%char
  end.

(** An integer literal.  Literals with a fraction or an exponent are numbers
    that are not integers of the model: the parse fails on them. *)
Definition parse_number (s : string) : option (Z * string) :=
  let (neg, s1) :=
    match s with
    | String c r => if (c =? "-")%char then (true, r) else (false, s)
    | EmptyString => (false, s)
    end in
  let (ds, rest) := span_digits s1 in
  if number_continues rest then None
  else
    match canonical_nat ds with
    | Some n => Some (if neg then (- n)%Z else n, rest)
    | None => None
    end.

(** The object a sequence of parsed members defines: each member is assigned
    in turn, so a repeated key keeps its first place and its last value. *)
Definition obj_of_members (m : list (string * json)) : obj :=
  fold_left (fun acc kv => set acc (fst kv) (snd kv)) m [].

Fixpoint parse_value (fuel : nat) (s : string) {struct fuel}
  : option (json * string) :=
  match fuel with
  | O => None
  | S fuel' =>
      match skip_ws s with
      | EmptyString => None
      | String c r =>
          if (c =? "n")%char then
            match strip_prefix "ull" r with
            | Some rest => Some (JNull, rest)
            | None => None
            end
          else if (c =? "t")%char then
            match strip_prefix "rue" r with
            | Some rest => Some (JBool true, rest)
            | None => None
            end
          else if (c =? "f")%char then
            match strip_prefix "alse" r with
            | Some rest => Some (JBool false, rest)
            | None => None
            end
          else if (c =? dquote)%char then
            match parse_chars r with
            | Some (t, rest) => Some (JStr t, rest)
            | None => None
            end
          else if (c =? "[")%char then
            match strip_prefix "]" (skip_ws r) with
            | Some rest => Some (JArr [], rest)
            | None =>
                match parse_elems fuel' r with
                | Some (l, rest) => Some (JArr l, rest)
                | None => None
                end
            end
          else if (c =? "{")%char then
            match strip_prefix "}" (skip_ws r) with
            | Some rest => Some (JObj [], rest)
            | None =>
                match parse_members fuel' r with
                | Some (m, rest) => Some (JObj (obj_of_members m), rest)
                | None => None
                end
            end
          else
            match parse_number (String c r) with
            | Some (n, rest) => Some (JNum n, rest)
            | None => None
            end
      end
  end

with parse_elems (fuel : nat) (s : string) {struct fuel}
  : option (list json * string) :=
  match fuel with
  | O => None
  | S fuel' =>
      match parse_value fuel' s with
      | Some (v, rest) =>
          match skip_ws rest with
          | EmptyString => None
          | String c r =>
              if (c =? ",")%char then
                match parse_elems fuel' r with
                | Some (l, rest') => Some (v :: l, rest')
                | None => None
                end
              else if (c =? "]")%char then Some ([v], r)
              else None
          end
      | None => None
      end
  end

with parse_members (fuel : nat) (s : string) {struct fuel}
  : option (list (string * json) * string) :=
  match fuel with
  | O => None
  | S fuel' =>
      match strip_prefix (String dquote EmptyString) (skip_ws s) with
      | None => None
      | Some r =>
          match parse_chars r with
          | None => None
          | Some (k, rest) =>
              match strip_prefix ":" (skip_ws rest) with
              | None => None
              | Some r2 =>
                  match parse_value fuel' r2 with
                  | None => None
                  | Some (v, rest2) =>
                      match skip_ws rest2 with
                      | EmptyString => None
                      | String c r3 =>
                          if (c =? ",")%char then
                            match parse_members fuel' r3 with
                            | Some (m, rest') => Some ((k, v) :: m, rest')
                            | None => None
                            end
                          else if (c =? "}")%char then Some ([(k, v)], r3)
                          else None
                      end
                  end
              end
          end
      end
  end.

(** [JSON.parse s]; [None] is the [SyntaxError] it throws. *)
Definition parse (s : string) : option json :=
  match parse_value (S (String.length s)) s with
  | Some (v, rest) =>
      match skip_ws rest with
      | EmptyString => Some v
      | String _ _ => None
      end
  | None => None
  end.

Fixpoint strip_members (f : json -> json) (m : list (string * json))
  : list (string * json) :=
  match m with
  | [] => []
  | (k, JUndef) :: r => strip_members f r
  | (k, v) :: r => (k, f v) :: strip_members f r
  end.

(** What [JSON.parse] reads back from the text of a value: properties that
    hold [undefined] are gone and [undefined] array elements are [null]. *)
Fixpoint strip (v : json) : json :=
  match v with
  | JUndef => JNull
  | JArr l => JArr (List.map strip l)
  | JObj m => JObj (strip_members strip m)
  | _ => v
  end.

(** *** White space of JavaScript *)

Definition utf8 (n : N) : string :=
  match utf8_encode n with Some s => s | None => EmptyString end.

(** The code points of the class [\s], which are also what [trim] removes. *)
Definition white_space : list N :=
  [9; 10; 11; 12; 13; 32; 160; 5760;
   8192; 8193; 8194; 8195; 8196; 8197; 8198; 8199; 8200; 8201; 8202;
   8232; 8233; 8239; 8287; 12288; 65279]%N.

Definition white_space_texts : list string := List.map utf8 white_space.

(** One member of a class of characters at the start of the text: the text
    after it. *)
Fixpoint eat_class (members : list string) (s : string) : option string :=
  match members with
  | [] => None
  | x :: r =>
      match strip_prefix x s with
      | Some rest => Some rest
      | None => eat_class r s
      end
  end.

(** The text after its leading white space ([\s*], [trimStart]). *)
Fixpoint skip_space_fuel (fuel : nat) (s : string) : string :=
  match fuel with
  | O => s
  | S f =>
      match eat_class white_space_texts s with
      | Some rest => skip_space_fuel f rest
      | None => s
      end
  end.

Definition skip_space (s : string) : string :=
  skip_space_fuel (String.length s) s.

(** [trimEnd]: a suffix made of white space only is dropped. *)
Fixpoint trimEnd (s : string) : string :=
  match s with
  | EmptyString => EmptyString
  | String c r =>
      match skip_space s with
      | EmptyString => EmptyString
      | _ => String c (trimEnd r)
      end
  end.

Definition trim (s : string) : string := trimEnd (skip_space s).

(** *** [String (v)] *)

(** [String (v)]; [None] is the [TypeError] it throws.  An array is its
    elements joined by commas, [null] and [undefined] elements being empty.
    A plain object is [[object Object]], unless it has an own property
    [toString]: a parsed value is never callable, so the conversion finds no
    primitive and throws. *)
Fixpoint to_string (v : json) : option string :=
  match v with
  | JUndef => Some "undefined"
  | JNull => Some "null"
  | JBool true => Some "true"
  | JBool false => Some "false"
  | JNum n => Some (Z_to_string n)
  | JStr s => Some s
  | JArr l =>
      (fix elements (l : list json) : option string :=
         match l with
         | [] => Some EmptyString
         | x :: r =>
             match (match x with
                    | JUndef | JNull => Some EmptyString
                    | _ => to_string x
                    end), elements r with
             | Some a, Some b =>
                 Some (match r with [] => a | _ => a ++ "," ++ b end)
             | _, _ => None
             end
         end) l
  | JObj m => if has m "toString" then None else Some "[object Object]"
  end.

(** *** Plain objects as JavaScript holds them *)

(** Whether the keys after [k] respect the enumeration order: after an index
    key only greater index keys or other keys, after another key no index
    key. *)
Definition later_keys_ok (k : string) (r : obj) : bool :=
  match array_index k with
  | Some i =>
      forallb (fun kv => match array_index (fst kv) with
                         | Some j => (i <? j)%Z
                         | None => true
                         end) r
  | None =>
      forallb (fun kv => match array_index (fst kv) with
                         | Some _ => false
                         | None => true
                         end) r
  end.

(** Keys are distinct and listed in property enumeration order. *)
Fixpoint ordered (m : obj) : bool :=
  match m with
  | [] => true
  | (k, _) :: r => negb (has r k) && later_keys_ok k r && ordered r
  end.

(** A value an in-memory document can be: objects are listed as JavaScript
    enumerates them and numbers are safe integers. *)
Fixpoint well_formed (v : json) : bool :=
  match v with
  | JNum n => (Z.abs n <=? MAX_SAFE_INTEGER)%Z
  | JArr l => forallb well_formed l
  | JObj m =>
      ordered m && forallb (fun kv => well_formed (snd kv)) m
  | _ => true
  end.

Fixpoint members_size (f : json -> nat) (m : list (string * json)) : nat :=
  match m with
  | [] => O
  | (_, JUndef) :: r => members_size f r
  | (_, v) :: r => S (f v + members_size f r)
  end.

Fixpoint elems_size (f : json -> nat) (l : list json) : nat :=
  match l with
  | [] => O
  | x :: r => S (f x + elems_size f r)
  end.

(** Number of nested parser calls the text of a value needs. *)
Fixpoint size (v : json) : nat :=
  match v with
  | JArr l => S (elems_size size l)
  | JObj m => S (members_size size m)
  | _ => 1
  end.

(** *** Auxiliary notions for reading back printed text *)

(** What can follow a printed value: the end of the text, a comma or a line
    break. *)
Definition delim (rest : string) : bool :=
  match rest with
  | EmptyString => true
  | String c _ => (c =? ",")%char || (c =? newline)%char
  end.

Definition value_head (s : string) : bool :=
  match s with
  | EmptyString => false
  | String c _ => negb (is_ws c) && negb (c =? "]")%char
  end.

(** Every key of [acc] is an index key below [i]. *)
Definition below (i : Z) (acc : obj) : Prop :=
  Forall (fun kv => exists j, array_index (fst kv) = Some j /\ (j < i)%Z) acc.

Definition roundtrips (v : json) : Prop :=
  forall ind fuel rest,
    well_formed v = true -> size v <= fuel -> delim rest = true ->
    parse_value fuel (print ind v ++ rest) = Some (strip v, rest).

End Json.

(* ================================================================== *)
(** ** Outcomes of calls that can throw *)
(* ================================================================== *)

Module Exn.

Inductive outcome (E A : Type) : Type :=
| Returned (a : A)
| Threw (e : E).

Arguments Returned {E A} a.
Arguments Threw {E A} e.

(** A computation over a state [S] that returns or throws.  The state
    reached when it throws is kept: what a method assigned before a failed
    call stays assigned. *)
Definition M (S E A : Type) : Type := S -> outcome E A * S.

Definition ret {S E A} (a : A) : M S E A := fun s => (Returned a, s).

Definition throw {S E A} (e : E) : M S E A := fun s => (Threw e, s).

Definition bind {S E A B} (c : M S E A) (k : A -> M S E B) : M S E B :=
  fun s =>
    match c s with
    | (Returned a, s') => k a s'
    | (Threw e, s') => (Threw e, s')
    end.

Definition gets {S E A} (f : S -> A) : M S E A := fun s => (Returned (f s), s).

Definition modify {S E} (f : S -> S) : M S E unit := fun s => (Returned tt, f s).

(** [try { c } catch (e) { h e }]. *)
Definition try_catch {S E A} (c : M S E A) (h : E -> M S E A) : M S E A :=
  fun s =>
    match c s with
    | (Returned a, s') => (Returned a, s')
    | (Threw e, s') => h e s'
    end.

Definition when {S E} (b : bool) (c : M S E unit) : M S E unit :=
  if b then c else ret tt.

Definition returned {E A} (o : outcome E A) : bool :=
  match o with Returned _ => true | Threw _ => false end.

End Exn.

Declare Scope exn_scope.
Delimit Scope exn_scope with exn.
Notation "x <- c ;; k" := (Exn.bind c (fun x => k))
  (at level 61, c at next level, right associativity) : exn_scope.
Notation "c ;; k" := (Exn.bind c (fun _ => k))
  (at level 61, right associativity) : exn_scope.

(* ================================================================== *)
(** ** Task description: schema, manager, status machine *)
(* ================================================================== *)

Module Task.
Import Str Json Exn.

(** *** [rover-schemas]: the task description schema *)

Definition CURRENT_TASK_DESCRIPTION_SCHEMA_VERSION : string := "1.5".

Inductive TaskStatus : Type :=
| NEW | IN_PROGRESS | ITERATING | COMPLETED | FAILED | PAUSED_CREDITS
| MERGED | PUSHED.

Definition status_name (s : TaskStatus) : string :=
  match s with
  | NEW => "NEW"
  | IN_PROGRESS => "IN_PROGRESS"
  | ITERATING => "ITERATING"
  | COMPLETED => "COMPLETED"
  | FAILED => "FAILED"
  | PAUSED_CREDITS => "PAUSED_CREDITS"
  | MERGED => "MERGED"
  | PUSHED => "PUSHED"
  end.

Definition all_statuses : list TaskStatus :=
  [NEW; IN_PROGRESS; ITERATING; COMPLETED; FAILED; PAUSED_CREDITS; MERGED; PUSHED].

Definition status_eqb (a b : TaskStatus) : bool :=
  String.eqb (status_name a) (status_name b).

(** What the sources take from outside the repository's own code: the
    string formats checked by the validation library, the network
    configuration schema (declared in another schema file), and the
    field-by-field migration of documents of older versions, on which none
    of the properties below depends. *)
Class Env : Type := {
  is_datetime : string -> bool;
  is_uuid : string -> bool;
  is_url : string -> bool;
  network_config_ok : json -> bool;
  migrate_legacy : json -> Z -> option json
}.

Section Schema.
Context {env : Env}.

Definition optional (chk : json -> bool) (v : json) : bool :=
  match v with JUndef => true | _ => chk v end.

Definition z_string (v : json) : bool :=
  match v with JStr _ => true | _ => false end.

Definition z_string_min1 (v : json) : bool :=
  match v with JStr s => negb (String.eqb s EmptyString) | _ => false end.

Definition z_datetime (v : json) : bool :=
  match v with JStr s => is_datetime s | _ => false end.

Definition z_uuid (v : json) : bool :=
  match v with JStr s => is_uuid s | _ => false end.

Definition z_url (v : json) : bool :=
  match v with JStr s => is_url s | _ => false end.

(** [z.number().int()]: every number of the model is an integer. *)
Definition z_int (v : json) : bool :=
  match v with JNum _ => true | _ => false end.

Definition z_int_positive (v : json) : bool :=
  match v with JNum n => (0 <? n)%Z | _ => false end.

Definition z_int_min (lo : Z) (v : json) : bool :=
  match v with JNum n => (lo <=? n)%Z | _ => false end.

Definition z_record (chk : json -> bool) (v : json) : bool :=
  match v with
  | JObj m => forallb (fun kv => chk (snd kv)) m
  | _ => false
  end.

Definition z_unknown (_ : json) : bool := true.

Definition z_enum (names : list string) (v : json) : bool :=
  match v with
  | JStr s => existsb (String.eqb s) names
  | _ => false
  end.

Definition TaskStatusSchema : json -> bool :=
  z_enum (List.map status_name all_statuses).

Definition SourceTypeSchema : json -> bool := z_enum ["github"; "manual"].

Definition TaskSourceSchema (v : json) : bool :=
  match v with
  | JObj m =>
      SourceTypeSchema (get m "type")
      && optional z_string (get m "id")
      && optional z_url (get m "url")
      && optional z_string (get m "title")
      && optional (z_record z_unknown) (get m "ref")
  | _ => false
  end.

(** [TaskDescriptionSchema.safeParse (data).success]. *)
Definition TaskDescriptionSchema (v : json) : bool :=
  match v with
  | JObj m =>
      z_int_positive (get m "id")
      && z_uuid (get m "uuid")
      && z_string_min1 (get m "title")
      && z_string (get m "description")
      && z_record z_string (get m "inputs")
      && TaskStatusSchema (get m "status")
      && z_datetime (get m "createdAt")
      && optional z_datetime (get m "startedAt")
      && optional z_datetime (get m "completedAt")
      && optional z_datetime (get m "failedAt")
      && optional z_datetime (get m "lastIterationAt")
      && optional z_datetime (get m "lastStatusCheck")
      && z_int_min 1 (get m "iterations")
      && z_string_min1 (get m "workflowName")
      && z_string (get m "worktreePath")
      && z_string (get m "branchName")
      && optional z_string (get m "agent")
      && optional z_string (get m "agentModel")
      && optional z_string (get m "sourceBranch")
      && optional z_string (get m "baseCommit")
      && optional z_string (get m "containerId")
      && optional (z_record z_unknown) (get m "sandboxMetadata")
      && optional z_string (get m "executionStatus")
      && optional z_datetime (get m "runningAt")
      && optional z_datetime (get m "errorAt")
      && optional z_int (get m "exitCode")
      && optional z_string (get m "error")
      && optional (z_int_min 0) (get m "restartCount")
      && optional z_datetime (get m "lastRestartAt")
      && optional z_string (get m "agentImage")
      && optional network_config_ok (get m "networkConfig")
      && optional TaskSourceSchema (get m "source")
      && optional z_datetime (get m "onCompleteHookFiredAt")
      && z_string (get m "version")
  | _ => false
  end.

End Schema.

(** *** [TaskDescriptionManager] *)

Inductive error : Type :=
| TaskNotFoundError (taskId : Z)
| TaskSchemaError
| TaskFileError
| TaskValidationError
| IterationsError.

(** Files by path. *)
Definition files : Type := list (string * string).

Fixpoint read_file (fs : files) (path : string) : option string :=
  match fs with
  | [] => None
  | (p, c) :: r => if String.eqb p path then Some c else read_file r path
  end.

Fixpoint write_file (fs : files) (path content : string) : files :=
  match fs with
  | [] => [(path, content)]
  | (p, c) :: r =>
      if String.eqb p path then (p, content) :: r
      else (p, c) :: write_file r path content
  end.

Fixpoint remove_file (fs : files) (path : string) : files :=
  match fs with
  | [] => []
  | (p, c) :: r =>
      if String.eqb p path then remove_file r path
      else (p, c) :: remove_file r path
  end.

(** [join (dir, name)] for a directory and a plain file name. *)
Definition join_path (dir name : string) : string := dir ++ "/" ++ name.

(** The manager object ([data], [taskId], [basePath]) together with the
    files it reads and writes. *)
Record world : Type := {
  data : obj;
  taskId : Z;
  basePath : string;
  disk : files
}.

Definition filePath (w : world) : string :=
  join_path (basePath w) "description.json".

Definition with_data (f : obj -> obj) (w : world) : world :=
  {| data := f (data w); taskId := taskId w; basePath := basePath w;
     disk := disk w |}.

Definition with_disk (f : files -> files) (w : world) : world :=
  {| data := data w; taskId := taskId w; basePath := basePath w;
     disk := f (disk w) |}.

Definition T (A : Type) : Type := M world error A.

(** [this.data.k = v]. *)
Definition assign (k : string) (v : json) : T unit :=
  modify (with_data (fun d => set d k v)).

(** [this.data.k]. *)
Definition read (k : string) : T json := gets (fun w => get (data w) k).

Record StatusMetadata : Type := {
  timestamp : option string;
  error_message : option string
}.

Record IterationStatus : Type := {
  it_status : string;
  it_completedAt : option string;
  it_updatedAt : option string;
  it_error : option string
}.

(** A value typed [string | undefined]. *)
Definition of_option (o : option string) : json :=
  match o with Some s => JStr s | None => JUndef end.

Section Manager.
Context {env : Env}.

Definition validate : T unit :=
  fun w =>
    if TaskDescriptionSchema (JObj (data w)) then (Returned tt, w)
    else (Threw TaskValidationError, w).

(** [save]: validate, serialize, write; any failure is rethrown as a
    [TaskFileError]. *)
Definition save : T unit :=
  try_catch
    (validate ;;
     fun w =>
       match stringify (JObj (data w)) with
       | Some text =>
           (Returned tt, with_disk (fun fs => write_file fs (filePath w) text) w)
       | None => (Threw TaskFileError, w)
       end)%exn
    (fun _ => throw TaskFileError).

(** [x || fallback] for [x] typed [string | undefined]. *)
Definition str_or (x : option string) (fallback : string) : string :=
  match x with
  | Some s => if String.eqb s EmptyString then fallback else s
  | None => fallback
  end.

(** [setStatus (status, metadata)]; [now] is [new Date ().toISOString ()]. *)
Definition setStatus (now : string) (status : TaskStatus)
  (metadata : option StatusMetadata) : T unit :=
  (assign "status" (JStr (status_name status)) ;;
   let ts :=
     JStr (str_or (match metadata with
                   | Some md => timestamp md
                   | None => None
                   end) now) in
   let err :=
     of_option (match metadata with
                | Some md => error_message md
                | None => None
                end) in
   match status with
   | IN_PROGRESS =>
       startedAt <- read "startedAt" ;;
       when (negb (truthy startedAt)) (assign "startedAt" ts)
   | ITERATING => assign "lastIterationAt" ts
   | COMPLETED => assign "completedAt" ts
   | FAILED | PAUSED_CREDITS =>
       assign "failedAt" ts ;;
       when (truthy err) (assign "error" err)
   | MERGED | PUSHED =>
       completedAt <- read "completedAt" ;;
       when (negb (truthy completedAt)) (assign "completedAt" ts)
   | NEW => ret tt
   end ;;
   assign "lastStatusCheck" ts ;;
   save)%exn.

Definition only_timestamp (t : option string) : option StatusMetadata :=
  Some {| timestamp := t; error_message := None |}.

Definition markCompleted (now : string) (completedAt : option string) : T unit :=
  setStatus now COMPLETED (only_timestamp completedAt).

Definition markFailed (now : string) (err : string) (failedAt : option string)
  : T unit :=
  setStatus now FAILED (Some {| timestamp := failedAt; error_message := Some err |}).

Definition markInProgress (now : string) (startedAt : option string) : T unit :=
  setStatus now IN_PROGRESS (only_timestamp startedAt).

Definition markIterating (now : string) (t : option string) : T unit :=
  setStatus now ITERATING (only_timestamp t).

Definition markMerged (now : string) (t : option string) : T unit :=
  setStatus now MERGED (only_timestamp t).

Definition markPushed (now : string) (t : option string) : T unit :=
  setStatus now PUSHED (only_timestamp t).

Definition resetToNew (now : string) (t : option string) : T unit :=
  setStatus now NEW (only_timestamp t).

(** A counter typed [number | undefined], read as [(x || 0)]. *)
Definition count_or_zero (v : json) : Z :=
  match v with JNum n => n | _ => 0%Z end.

(** [restart (timestamp)]. *)
Definition restart (now : string) (t : option string) : T unit :=
  (let restartTimestamp := str_or t now in
   restartCount <- read "restartCount" ;;
   assign "restartCount" (JNum (plus_one (count_or_zero restartCount))) ;;
   assign "lastRestartAt" (JStr restartTimestamp) ;;
   setStatus now IN_PROGRESS (only_timestamp (Some restartTimestamp)))%exn.

Definition setWorkspace (worktreePath branchName : string) : T unit :=
  (assign "worktreePath" (JStr worktreePath) ;;
   assign "branchName" (JStr branchName) ;;
   save)%exn.

Definition setAgentImage (agentImage : string) : T unit :=
  (assign "agentImage" (JStr agentImage) ;; save)%exn.

(** [setContainerInfo (containerId, executionStatus, sandboxMetadata)]. *)
Definition setContainerInfo (now : string) (containerId executionStatus : string)
  (sandboxMetadata : json) : T unit :=
  (assign "containerId" (JStr containerId) ;;
   assign "executionStatus" (JStr executionStatus) ;;
   assign "sandboxMetadata" sandboxMetadata ;;
   when (String.eqb executionStatus "running") (assign "runningAt" (JStr now)) ;;
   save)%exn.

(** [this.data.status === name]. *)
Definition status_is (name : string) (w : world) : bool :=
  match get (data w) "status" with
  | JStr s => String.eqb s name
  | _ => false
  end.

Definition isCompleted : world -> bool := status_is "COMPLETED".
Definition isFailed : world -> bool := status_is "FAILED".
Definition isPausedCredits : world -> bool := status_is "PAUSED_CREDITS".
Definition isInProgress : world -> bool := status_is "IN_PROGRESS".
Definition isIterating : world -> bool := status_is "ITERATING".
Definition isNew : world -> bool := status_is "NEW".
Definition isMerged : world -> bool := status_is "MERGED".
Definition isPushed : world -> bool := status_is "PUSHED".

(** The switch of [updateStatusFromIteration]: the task status, the time
    stamp and the error taken from a status document.  For [completed] the
    name is the upper-cased iteration status, which is [COMPLETED]. *)
Definition derive (status : IterationStatus)
  : TaskStatus * option string * option string :=
  if String.eqb (it_status status) "completed" then
    (COMPLETED, it_completedAt status, None)
  else if String.eqb (it_status status) "failed" then
    (FAILED, it_completedAt status, it_error status)
  else if String.eqb (it_status status) "credit_exhausted" then
    (PAUSED_CREDITS, it_completedAt status, it_error status)
  else if String.eqb (it_status status) "running" then
    (ITERATING, it_updatedAt status, None)
  else
    (IN_PROGRESS, it_updatedAt status, None).

(** [updateStatusFromIteration]; [last] is the status document of the
    iteration [getLastIteration] finds, if it finds one. *)
Definition updateStatusFromIteration (now : string)
  (last : option IterationStatus) : T unit :=
  match last with
  | None => ret tt
  | Some status =>
      let '(statusName, ts, err) := derive status in
      fun w =>
        if status_eqb statusName COMPLETED && (isMerged w || isPushed w)
        then (Returned tt, w)
        else
          setStatus now statusName
            (Some {| timestamp := ts; error_message := err |}) w
  end.

(** [migrate (data, taskId)]: a document of the current version is returned
    as it is.  Reading [data.version] of [null] throws. *)
Definition migrate (d : json) (id : Z) : outcome error json :=
  match d with
  | JNull | JUndef => Threw TaskFileError
  | _ =>
      match field d "version" with
      | JStr v =>
          if String.eqb v CURRENT_TASK_DESCRIPTION_SCHEMA_VERSION
          then Returned d
          else match migrate_legacy d id with
               | Some d' => Returned d'
               | None => Threw TaskFileError
               end
      | _ => match migrate_legacy d id with
             | Some d' => Returned d'
             | None => Threw TaskFileError
             end
      end
  end.

(** [v1 !== v2] on two values read from documents. *)
Definition differs (a b : json) : bool :=
  match a, b with
  | JStr x, JStr y => negb (String.eqb x y)
  | JNum x, JNum y => negb (x =? y)%Z
  | JBool x, JBool y => negb (Bool.eqb x y)
  | JNull, JNull | JUndef, JUndef => false
  | _, _ => true
  end.

Definition createBackup (path : string) (fs : files) : files :=
  match read_file fs path with
  | Some c => write_file fs (path ++ ".backup") c
  | None => fs
  end.

(** [TaskDescriptionManager.load (basePath, taskId)] over the files [fs]:
    the manager it returns and the files it leaves. *)
Definition load (base : string) (id : Z) (fs : files) : outcome error world :=
  let path := join_path base "description.json" in
  match read_file fs path with
  | None => Threw (TaskNotFoundError id)
  | Some rawData =>
      match parse rawData with
      | None => Threw TaskSchemaError
      | Some parsedData =>
          match migrate parsedData id with
          | Threw e => Threw TaskFileError
          | Returned migratedData =>
              match migratedData with
              | JObj d =>
                  if TaskDescriptionSchema migratedData then
                    let w := {| data := d; taskId := id; basePath := base;
                                disk := fs |} in
                    if differs (field migratedData "version")
                               (field parsedData "version") then
                      match save (with_disk (createBackup path) w) with
                      | (Returned _, w') => Returned w'
                      | (Threw _, _) => Threw TaskFileError
                      end
                    else Returned w
                  else Threw TaskFileError
              | _ => Threw TaskFileError
              end
          end
      end
  end.

(** [reload]. *)
Definition reload : T unit :=
  fun w =>
    match load (basePath w) (taskId w) (disk w) with
    | Returned w' =>
        (Returned tt,
         {| data := data w'; taskId := taskId w; basePath := basePath w;
            disk := disk w' |})
    | Threw e => (Threw e, w)
    end.

(** [TaskDescriptionManager.create (basePath, taskData)]; [uuid] is what
    [randomUUID ()] gives. *)
Record CreateTaskData : Type := {
  new_id : Z;
  new_uuid : option string;
  new_title : string;
  new_description : string;
  new_inputs : list (string * string);
  new_workflowName : string;
  new_agent : option string;
  new_agentModel : option string;
  new_sourceBranch : option string;
  new_networkConfig : json;
  new_source : json
}.

Definition create (now uuid base : string) (t : CreateTaskData) (fs : files)
  : outcome error world :=
  let schema : obj :=
    [ ("id", JNum (new_id t));
      ("uuid", JStr (str_or (new_uuid t) uuid));
      ("title", JStr (new_title t));
      ("description", JStr (new_description t));
      ("inputs",
       JObj (obj_of_members
               (List.map (fun kv => (fst kv, JStr (snd kv))) (new_inputs t))));
      ("status", JStr "NEW");
      ("createdAt", JStr now);
      ("startedAt", JStr now);
      ("lastIterationAt", JStr now);
      ("iterations", JNum 1);
      ("worktreePath", JStr EmptyString);
      ("workflowName", JStr (new_workflowName t));
      ("branchName", JStr EmptyString);
      ("agent", of_option (new_agent t));
      ("agentModel", of_option (new_agentModel t));
      ("sourceBranch", of_option (new_sourceBranch t));
      ("networkConfig", new_networkConfig t);
      ("source", new_source t);
      ("version", JStr CURRENT_TASK_DESCRIPTION_SCHEMA_VERSION) ] in
  let w := {| data := schema; taskId := new_id t; basePath := base;
              disk := fs |} in
  match validate w with
  | (Threw e, _) => Threw e
  | (Returned _, _) =>
      match save w with
      | (Returned _, w') => Returned w'
      | (Threw e, _) => Threw e
      end
  end.

(** *** [restartCommand]: the status guard and the calls on the task *)

(** What the command finds around the task: the clock at each call, the
    workspace it would create, the image named by the environment and what
    starting the sandbox gives. *)
Record RestartEnv : Type := {
  restartedAt : string;
  progressAt : string;
  runningAt : string;
  resetAt : string;
  workspace_created : option (string * string);
  agent_image : option string;
  sandbox_started : option string;
  docker_host : option string
}.

Inductive restart_result : Type :=
| Restarted
| Rejected
| Failed (e : error)
| SandboxFailed.

(** [restartCommand] once the task is loaded: [Rejected] is the exit with the
    error that the task is not in NEW, FAILED or PAUSED_CREDITS status. *)
Definition restartCommand (e : RestartEnv) (w : world) : restart_result * world :=
  if negb (isNew w) && negb (isFailed w) && negb (isPausedCredits w)
  then (Rejected, w)
  else
    let body : T bool :=
      (restart (restartedAt e) (Some (restartedAt e)) ;;
       worktreePath <- read "worktreePath" ;;
       branchName <- read "branchName" ;;
       when (negb (truthy worktreePath) || negb (truthy branchName))
         (match workspace_created e with
          | Some (path, branch) =>
              try_catch (setWorkspace path branch) (fun _ => ret tt)
          | None => ret tt
          end) ;;
       markInProgress (progressAt e) None ;;
       match agent_image e with
       | Some image => setAgentImage image
       | None => ret tt
       end ;;
       match sandbox_started e with
       | Some containerId =>
           setContainerInfo (runningAt e) containerId "running"
             (match docker_host e with
              | Some h =>
                  if String.eqb h EmptyString then JUndef
                  else JObj [("dockerHost", JStr h)]
              | None => JUndef
              end) ;;
           ret true
       | None => resetToNew (resetAt e) None ;; ret false
       end)%exn in
    match body w with
    | (Returned true, w') => (Restarted, w')
    | (Returned false, w') => (SandboxFailed, w')
    | (Threw err, w') => (Failed err, w')
    end.

(** *** Auxiliary notions for the properties of the manager *)

(** The in-memory document [setStatus] leaves, whether or not the save that
    ends it goes through. *)
Definition setStatus_data (now : string) (status : TaskStatus)
  (metadata : option StatusMetadata) (d : obj) : obj :=
  let ts := JStr (str_or (match metadata with
                          | Some md => timestamp md
                          | None => None
                          end) now) in
  let err := of_option (match metadata with
                        | Some md => error_message md
                        | None => None
                        end) in
  let d1 := set d "status" (JStr (status_name status)) in
  let d2 :=
    match status with
    | IN_PROGRESS =>
        if truthy (get d1 "startedAt") then d1 else set d1 "startedAt" ts
    | ITERATING => set d1 "lastIterationAt" ts
    | COMPLETED => set d1 "completedAt" ts
    | FAILED | PAUSED_CREDITS =>
        let d' := set d1 "failedAt" ts in
        if truthy err then set d' "error" err else d'
    | MERGED | PUSHED =>
        if truthy (get d1 "completedAt") then d1 else set d1 "completedAt" ts
    | NEW => d1
    end in
  set d2 "lastStatusCheck" ts.

(** What reading back makes of the value of a property. *)
Definition reread (v : json) : json :=
  match v with JUndef => JUndef | _ => strip v end.

Definition stable (chk : json -> bool) : Prop :=
  forall v, well_formed v = true -> chk v = true -> chk (reread v) = true.

End Manager.

(** *** An environment and a task for the examples *)

(** [shape] read as a pattern: [d] stands for a digit, [h] for a hexadecimal
    digit, any other character for itself. *)
Fixpoint has_shape (shape s : string) : bool :=
  match shape, s with
  | EmptyString, EmptyString => true
  | String p shape', String c s' =>
      (if (p =? "d")%char then is_digit c
       else if (p =? "h")%char then
         match hex_value c with Some _ => true | None => false end
       else (p =? c)%char)
      && has_shape shape' s'
  | _, _ => false
  end.

(** Time stamps as [toISOString] writes them, identifiers as [randomUUID]
    writes them; no network configuration schema beyond being an object and
    no migration of older documents. *)
Definition sample_env : Env := {|
  is_datetime := has_shape "dddd-dd-ddTdd:dd:dd.dddZ";
  is_uuid := has_shape "hhhhhhhh-hhhh-hhhh-hhhh-hhhhhhhhhhhh";
  is_url := fun s => startsWith s "https://";
  network_config_ok := fun v => match v with JObj _ => true | _ => false end;
  migrate_legacy := fun _ _ => None
|}.

Definition sample_data : CreateTaskData := {|
  new_id := 15;
  new_uuid := Some "123e4567-e89b-42d3-a456-426614174000";
  new_title := "Credit Exhausted Task";
  new_description := "Test";
  new_inputs := [("issue", "42")];
  new_workflowName := "swe";
  new_agent := None;
  new_agentModel := None;
  new_sourceBranch := None;
  new_networkConfig := JUndef;
  new_source := JUndef
|}.

Definition sample_time : string := "2026-01-05T10:00:00.000Z".
Definition later_time : string := "2026-01-05T11:30:00.000Z".

Definition empty_world : world :=
  {| data := []; taskId := 15; basePath := "tasks/15"; disk := [] |}.

(** The task of the tests, freshly created. *)
Definition sample_task : world :=
  match create (env := sample_env) sample_time
          "123e4567-e89b-42d3-a456-426614174000" "tasks/15" sample_data [] with
  | Returned w => w
  | Threw _ => empty_world
  end.

(** The task after [f] has run on it. *)
Definition after (f : T unit) (w : world) : world := snd (f w).

Definition failed_task : world :=
  after (markFailed (env := sample_env) later_time "This task failed" None)
    sample_task.

(** A failed task that was restarted 2^53 times. *)
Definition worn_task : world :=
  with_data (fun d => set d "restartCount" (JNum (MAX_SAFE_INTEGER + 1)))
    failed_task.

Definition merged_task : world :=
  after (markMerged (env := sample_env) later_time None)
    (after (markCompleted (env := sample_env) sample_time None) sample_task).

Definition credit_exhausted_iteration : IterationStatus :=
  {| it_status := "credit_exhausted";
     it_completedAt := Some later_time;
     it_updatedAt := Some later_time;
     it_error := Some "Quota exceeded" |}.

Definition failed_iteration : IterationStatus :=
  {| it_status := "failed";
     it_completedAt := Some later_time;
     it_updatedAt := Some later_time;
     it_error := Some "step failed" |}.

Definition sample_restart : RestartEnv :=
  {| restartedAt := later_time; progressAt := later_time;
     runningAt := later_time; resetAt := later_time;
     workspace_created := Some ("worktrees/15", "rover/task-15");
     agent_image := None; sandbox_started := Some "container-1";
     docker_host := None |}.

End Task.

(* ================================================================== *)
(** ** [isCreditExhaustedError] *)
(* ================================================================== *)

Module Credit.
Import Str Json.

(** The pieces of [CREDIT_EXHAUSTED_PATTERN]: a literal, matched without
    regard to case, or the class of an underscore or a white space
    character. *)
Inductive atom : Type :=
| Lit (s : string)
| Sep.

Definition branch : Type := list atom.

(** The pattern
    quota[_\s]exceeded|credits[_\s]exhausted|insufficient[_\s]quota|
    usage[_\s]limit|credit[_\s]limit|out[_\s]of[_\s]credits|429|rate[_\s]limit
    with the flag i. *)
Definition CREDIT_EXHAUSTED_PATTERN : list branch :=
  [ [Lit "quota"; Sep; Lit "exceeded"];
    [Lit "credits"; Sep; Lit "exhausted"];
    [Lit "insufficient"; Sep; Lit "quota"];
    [Lit "usage"; Sep; Lit "limit"];
    [Lit "credit"; Sep; Lit "limit"];
    [Lit "out"; Sep; Lit "of"; Sep; Lit "credits"];
    [Lit "429"];
    [Lit "rate"; Sep; Lit "limit"] ].

(** The members of the class [[_\s]], as text. *)
Definition separators : list string := "_" :: white_space_texts.

(** A literal at the start of the text, without regard to case: the text
    that follows it. *)
Fixpoint eat_lit (p s : string) : option string :=
  match p with
  | EmptyString => Some s
  | String c p' =>
      match s with
      | EmptyString => None
      | String d s' =>
          if (lower_char c =? lower_char d)%char then eat_lit p' s' else None
      end
  end.

Definition eat (a : atom) (s : string) : option string :=
  match a with
  | Lit p => eat_lit p s
  | Sep => eat_class separators s
  end.

(** A branch at the start of the text. *)
Fixpoint match_here (b : branch) (s : string) : option string :=
  match b with
  | [] => Some s
  | a :: b' =>
      match eat a s with
      | Some rest => match_here b' rest
      | None => None
      end
  end.

Definition match_any (bs : list branch) (s : string) : bool :=
  existsb (fun b => match match_here b s with Some _ => true | None => false end) bs.

(** [pattern.test (s)]: some branch matches somewhere in the text. *)
Fixpoint test (bs : list branch) (s : string) : bool :=
  match_any bs s ||
  match s with
  | EmptyString => false
  | String _ r => test bs r
  end.

(** What is passed as [error: unknown]: a primitive or plain value, or an
    instance of [Error] (or of a class derived from it), of which the function
    reads [message], [stderr] and [stdout]. *)
Inductive unknown : Type :=
| Value (v : json)
| ErrorInstance (message stderr stdout : json).

(** [x != null ? String (x) : ''] *)
Definition string_unless_null (x : json) : option string :=
  match x with
  | JUndef | JNull => Some EmptyString
  | _ => to_string x
  end.

(** The text the pattern is tested on: message, stderr and stdout on three
    lines; [None] when a conversion throws. *)
Definition combined (e : unknown) : option string :=
  let parts :=
    match e with
    | ErrorInstance m err out => (to_string m, err, out)
    | Value (JObj o) =>
        ((if has o "message" then to_string (get o "message")
          else to_string (JObj o)),
         get o "stderr", get o "stdout")
    | Value v => (to_string v, JUndef, JUndef)
    end in
  let '(msg, err, out) := parts in
  match msg, string_unless_null err, string_unless_null out with
  | Some m, Some e', Some o' => Some (m ++ nl ++ e' ++ nl ++ o')
  | _, _, _ => None
  end.

Definition isCreditExhaustedError (e : unknown) : option bool :=
  match combined e with
  | Some text => Some (test CREDIT_EXHAUSTED_PATTERN text)
  | None => None
  end.

(** *** What the pattern denotes *)

(** [same_letters m p]: the text [m] is the literal [p] up to case. *)
Definition same_letters (m p : string) : Prop :=
  map_chars lower_char m = map_chars lower_char p.

Inductive denotes : branch -> string -> Prop :=
| denotes_nil : denotes [] EmptyString
| denotes_lit (p m : string) (b : branch) (rest : string) :
    same_letters m p -> denotes b rest -> denotes (Lit p :: b) (m ++ rest)
| denotes_sep (x : string) (b : branch) (rest : string) :
    In x separators -> denotes b rest -> denotes (Sep :: b) (x ++ rest).

(** Some branch of the pattern denotes a piece of the text. *)
Definition found (bs : list branch) (text : string) : Prop :=
  exists b before m after,
    In b bs /\ denotes b m /\ text = before ++ m ++ after.

(** *** The phrases, word by word *)

(** The phrases of the check by their words, the number 429 being a phrase
    of one word. *)
Definition phrase_words : list (list string) :=
  [ ["quota"; "exceeded"];
    ["credits"; "exhausted"];
    ["insufficient"; "quota"];
    ["usage"; "limit"];
    ["credit"; "limit"];
    ["out"; "of"; "credits"];
    ["429"];
    ["rate"; "limit"] ].

(** [spells words m]: the text [m] is the words up to case, each followed,
    up to the last, by one underscore or one white space character. *)
Inductive spells : list string -> string -> Prop :=
| spells_word (word m : string) :
    same_letters m word -> spells [word] m
| spells_words (word m x : string) (rest : list string) (tail : string) :
    same_letters m word -> In x ("_" :: white_space_texts) ->
    spells rest tail -> spells (word :: rest) (m ++ x ++ tail).

(** The text holds one of the phrases. *)
Definition mentions (text : string) : Prop :=
  exists words before m after,
    In words phrase_words /\ spells words m /\ text = before ++ m ++ after.

(** The branch of the pattern for a phrase. *)
Fixpoint pattern_of (words : list string) : branch :=
  match words with
  | [] => []
  | [word] => [Lit word]
  | word :: rest => Lit word :: Sep :: pattern_of rest
  end.

(** *** The check as the specification words it *)

(** The fixed phrases of the specification, HTTP 429 being the number. *)
Definition spec_phrases : list string :=
  [ "quota exceeded"; "credits exhausted"; "insufficient quota";
    "usage limit"; "credit limit"; "out of credits"; "429"; "rate limit" ].

(** The text matches one of the phrases, without regard to case. *)
Definition spec_exhausted (text : string) : bool :=
  existsb (fun p => includes (toLowerCase text) p) spec_phrases.

End Credit.

(* ================================================================== *)
(** ** [Runner]: prompt, output parsing, step result *)
(* ================================================================== *)

Module Runner.
Import Str Json Exn.

(** *** [Map<string, string>] *)

(** A [Map] with string keys, in insertion order. *)
Definition smap (V : Type) : Type := list (string * V).

Fixpoint map_get {V} (m : smap V) (k : string) : option V :=
  match m with
  | [] => None
  | (k', v) :: r => if String.eqb k' k then Some v else map_get r k
  end.

Definition map_has {V} (m : smap V) (k : string) : bool :=
  match map_get m k with Some _ => true | None => false end.

Fixpoint map_set {V} (m : smap V) (k : string) (v : V) : smap V :=
  match m with
  | [] => [(k, v)]
  | (k', v') :: r =>
      if String.eqb k' k then (k', v) :: r else (k', v') :: map_set r k v
  end.

(** *** Workflow definitions ([rover-schemas]) *)

Inductive WorkflowOutputType : Type := type_string | type_file.

Record WorkflowOutput : Type := {
  name : string;
  type : WorkflowOutputType;
  description : string;
  filename : option string
}.

Record WorkflowAgentStep : Type := {
  id : string;
  step_name : string;
  prompt_template : string;
  outputs : list WorkflowOutput
}.

(** *** Files *)

Inductive file : Type :=
| Readable (content : string)
| Unreadable (why : string).

Definition files : Type := smap file.

(** The files of a disk are listed under their resolved paths: two paths
    lead to one file exactly when they resolve to the same path (see
    [path_resolve] below). *)
Fixpoint rm (fs : files) (path : string) : files :=
  match fs with
  | [] => []
  | (p, f) :: r => if String.eqb p path then rm r path else (p, f) :: rm r path
  end.

(** *** What the runner takes from outside these sources *)

Inductive error_class : Type :=
| AuthenticationError | CreditExhaustedError | TimeoutError | OtherError.

Record AgentError : Type := {
  class : error_class;
  message : string;
  code : string;
  isRetryable : bool
}.

(** What [launch] resolves to, with the chunks the process wrote to its
    standard error while it ran. *)
Record LaunchResult : Type := {
  exitCode : option Z;
  stdout : option string;
  stderr : option string;
  timedOut : bool;
  isCanceled : bool;
  stderr_chunks : list string
}.

Record AgentUsageStats : Type := {
  tokens : option Z;
  cost : option string;
  model : option string
}.

(** The error classes and classifier of [errors.js], the agent adapter, the
    members of the built-in prototypes and the path functions of the
    platform. *)
Class Host : Type := {
  isWaitingForAuthentication : string -> bool;
  parseAgentError : string -> string -> option Z -> string -> AgentError;
  newAuthenticationError : string -> string -> AgentError;
  newTimeoutError : string -> Z -> AgentError;
  (** [agent.recoverFromError], when the agent has one: it throws, returns
      nothing, or returns an output and a notice *)
  recoverFromError :
    option (LaunchResult -> string -> outcome string (option (string * option string)));
  (** [agent.extractUsageStats?.(parsed)]; [None] when it throws *)
  extractUsageStats : json -> option (option AgentUsageStats);
  (** [String (o[k])] for a member [k] that a value inherits from the
      prototype of objects ([false]) or of arrays ([true]) *)
  prototype_member : bool -> string -> option string;
  path_join : string -> string -> string;
  path_basename : string -> string;
  (** the resolved path of the file a path leads to, from the working
      directory and through links *)
  path_resolve : string -> string;
  (** why the platform refuses to write the copy of a file at a path (a
      directory that is not there, no permission ...), when it does *)
  copy_refused : files -> string -> string -> option string;
  (** why it refuses to remove the file at a path, when it does *)
  remove_refused : files -> string -> option string;
  (** the first match of the inline object pattern of
      [extractJsonFromContent] in a text *)
  inline_object : string -> option string;
  (** the two patterns [extractValueFromFileContent] builds from the name of
      an output, matched on a text: the captured word, nothing, or the
      error of a name that does not make a valid pattern *)
  header_value : string -> string -> outcome string (option string);
  key_value : string -> string -> outcome string (option string)
}.

(** The runner: its step, the workflow it belongs to, what the user gave
    and what earlier steps left. *)
Record Config : Type := {
  step : WorkflowAgentStep;
  steps : list WorkflowAgentStep;
  inputs : smap string;
  stepsOutput : smap (smap string);
  tool : string;
  stepTimeout : Z
}.

(** Files and console. *)
Record world : Type := {
  disk : files;
  console : list string
}.

Definition R (A : Type) : Type := M world string A.

Definition log (line : string) : R unit :=
  modify (fun w => {| disk := disk w; console := (console w ++ [line])%list |}).

Definition with_files (f : files -> files) : R unit :=
  modify (fun w => {| disk := f (disk w); console := console w |}).

Definition warning_sign : string := "⚠️  ".

(** *** The file system calls *)

Section Files.
Context {host : Host}.

Definition existsSync (fs : files) (path : string) : bool :=
  map_has fs (path_resolve path).

(** [readFileSync (path, 'utf-8')]; the error carries its message. *)
Definition readFileSync (fs : files) (path : string) : outcome string string :=
  match map_get fs (path_resolve path) with
  | Some (Readable c) => Returned c
  | Some (Unreadable why) => Threw why
  | None => Threw ("ENOENT: no such file or directory, open '" ++ path ++ "'")
  end.

(** [copyFileSync (src, dest)]: the files after the copy, or the message of
    the error.  Copying a file onto itself leaves it as it is. *)
Definition copyFileSync (fs : files) (src dest : string) : outcome string files :=
  match map_get fs (path_resolve src) with
  | Some (Readable c) =>
      match copy_refused fs src dest with
      | Some why => Threw why
      | None => Returned (map_set fs (path_resolve dest) (Readable c))
      end
  | Some (Unreadable why) => Threw why
  | None =>
      Threw ("ENOENT: no such file or directory, copyfile '" ++ src ++ "' -> '"
               ++ dest ++ "'")
  end.

(** [rmSync (path)]. *)
Definition rmSync (fs : files) (path : string) : outcome string files :=
  if map_has fs (path_resolve path) then
    match remove_refused fs path with
    | Some why => Threw why
    | None => Returned (rm fs (path_resolve path))
    end
  else Threw ("ENOENT: no such file or directory, lstat '" ++ path ++ "'").

End Files.

(** *** [String.prototype.replace] with a string pattern *)

(** The replacement text: [$$] is a dollar sign, [$&] the matched text,
    [$`] the text before the match, [$'] the text after it; any other
    character stands for itself. *)
Fixpoint GetSubstitution (matched before after template : string) : string :=
  match template with
  | EmptyString => EmptyString
  | String c r =>
      if (c =? "$")%char then
        match r with
        | String d r' =>
            if (d =? "$")%char then
              String "$" (GetSubstitution matched before after r')
            else if (d =? "&")%char then
              matched ++ GetSubstitution matched before after r'
            else if (d =? "`")%char then
              before ++ GetSubstitution matched before after r'
            else if (d =? "'")%char then
              after ++ GetSubstitution matched before after r'
            else String c (GetSubstitution matched before after r)
        | EmptyString => String c EmptyString
        end
      else String c (GetSubstitution matched before after r)
  end.

(** [text.replace (pattern, replacement)]: the first occurrence only. *)
Definition replace (text pattern replacement : string) : string :=
  match split_first pattern text with
  | Some (before, after) =>
      before ++ GetSubstitution pattern before after replacement ++ after
  | None => text
  end.

(** *** Placeholders *)

Fixpoint span_until (stop : ascii) (s : string) : string * string :=
  match s with
  | EmptyString => (EmptyString, EmptyString)
  | String c r =>
      if (c =? stop)%char then (EmptyString, s)
      else let (a, b) := span_until stop r in (String c a, b)
  end.

(** The pattern of a placeholder at the start of the text: two opening
    braces, one or more characters other than a closing brace, two closing
    braces.  The captured text and what follows the match. *)
Definition placeholder_here (s : string) : option (string * string) :=
  match strip_prefix "{{" s with
  | Some r =>
      let (body, r') := span_until "}" r in
      match body, strip_prefix "}}" r' with
      | String _ _, Some rest => Some (body, rest)
      | _, _ => None
      end
  | None => None
  end.

(** [[...text.matchAll (placeholderRegex)]]: each match with its captured
    text, from left to right. *)
Fixpoint matchAll_fuel (fuel : nat) (s : string) : list (string * string) :=
  match fuel with
  | O => []
  | S f =>
      match s with
      | EmptyString => []
      | String _ r =>
          match placeholder_here s with
          | Some (body, rest) =>
              ("{{" ++ body ++ "}}", body) :: matchAll_fuel f rest
          | None => matchAll_fuel f r
          end
      end
  end.

Definition matchAll (s : string) : list (string * string) :=
  matchAll_fuel (String.length s) s.

(** *** [generateOutputInstructions] *)

Definition is_string_output (o : WorkflowOutput) : bool :=
  match type o with type_string => true | type_file => false end.

Definition is_file_output (o : WorkflowOutput) : bool :=
  match type o with type_file => true | type_string => false end.

Definition q : string := String dquote EmptyString.

(** A template literal over a value typed [string | undefined]. *)
Definition text_of (o : option string) : string :=
  match o with Some s => s | None => "undefined" end.

Fixpoint json_template_lines (l : list WorkflowOutput) : string :=
  match l with
  | [] => EmptyString
  | o :: r =>
      "  " ++ q ++ name o ++ q ++ ": " ++ q ++ "your_"
        ++ toLowerCase (name o) ++ "_value_here" ++ q
        ++ (match r with [] => EmptyString | _ => "," end) ++ nl
        ++ json_template_lines r
  end.

Fixpoint where_lines (l : list WorkflowOutput) : string :=
  match l with
  | [] => EmptyString
  | o :: r =>
      "- `" ++ name o ++ "`: " ++ description o ++ nl ++ where_lines r
  end.

Fixpoint file_lines (tool : string) (l : list WorkflowOutput) : string :=
  match l with
  | [] => EmptyString
  | o :: r =>
      "- **" ++ name o ++ "**: " ++ description o ++ nl
        ++ "  - Create this file in the current working directory" ++ nl
        ++ (if String.eqb tool "gemini" || String.eqb tool "qwen" then
              "  - When creating the file, call the write_file tool using an absolute path based on current directory. THIS IS MANDATORY" ++ nl
            else EmptyString)
        ++ "  - Filename: `" ++ text_of (filename o) ++ "`" ++ nl ++ nl
        ++ file_lines tool r
  end.

Definition generateOutputInstructions (tool : string)
  (stepOutputs : list WorkflowOutput) : string :=
  match stepOutputs with
  | [] => EmptyString
  | _ =>
      let stringOutputs := List.filter is_string_output stepOutputs in
      let fileOutputs := List.filter is_file_output stepOutputs in
      nl ++ nl ++ "## OUTPUT REQUIREMENTS" ++ nl ++ nl
        ++ "You MUST provide your response in the exact format specified below:"
        ++ nl ++ nl
        ++ (match stringOutputs with
            | [] => EmptyString
            | _ =>
                "### JSON Response" ++ nl ++ nl
                  ++ "Return a JSON object with the following structure:"
                  ++ nl ++ nl
                  ++ "```json" ++ nl ++ "{" ++ nl
                  ++ json_template_lines stringOutputs
                  ++ "}" ++ nl ++ "```" ++ nl ++ nl
                  ++ "Where:" ++ nl
                  ++ where_lines stringOutputs ++ nl
            end)
        ++ (match fileOutputs with
            | [] => EmptyString
            | _ =>
                "### File Creation" ++ nl ++ nl
                  ++ "You MUST create the following files with the exact content needed:"
                  ++ nl ++ nl
                  ++ file_lines tool fileOutputs
                  ++ "IMPORTANT: All files must be created with appropriate content. Do not create empty or placeholder files."
                  ++ nl ++ nl
            end)
        ++ (match stringOutputs, fileOutputs with
            | _ :: _, _ :: _ =>
                "### Combined Response Format" ++ nl ++ nl
                  ++ "1. First, create all required files as specified above" ++ nl
                  ++ "2. Then, provide the JSON response with the string outputs" ++ nl
                  ++ "3. Make sure all files are created before ending your response"
                  ++ nl ++ nl
            | _, _ => EmptyString
            end)
        ++ "**CRITICAL**: Follow these output requirements exactly. "
        ++ "Your response will be automatically parsed, so any deviation from the specified format will cause errors."
        ++ nl
  end.

(** *** [loadValueByType] and [prompt] *)

Section Prompt.
Context {host : Host}.

(** [loadValueByType (value, type, warnings)]: the value to insert and the
    warnings pushed. *)
Definition loadValueByType (fs : files) (value : string)
  (t : WorkflowOutputType) : string * list string :=
  match t with
  | type_file =>
      if existsSync fs value then
        match readFileSync fs value with
        | Returned content => (content, [])
        | Threw why =>
            (value, ["Could not read file '" ++ value ++ "': " ++ why])
        end
      else (value, ["File '" ++ value ++ "' does not exist"])
  | type_string => (value, [])
  end.

(** The body of the loop of [prompt] for one placeholder: the replacement
    value, if the placeholder resolves, and the warnings pushed. *)
Definition resolve (c : Config) (fs : files) (placeholder : string)
  : option string * list string :=
  let parts := split_on "." placeholder in
  match parts with
  | [p0; p1] =>
      if String.eqb p0 "inputs" then
        match map_get (inputs c) p1 with
        | Some inputValue => (Some inputValue, [])
        | None => (None, ["Input '" ++ p1 ++ "' not provided"])
        end
      else (None, ["Invalid placeholder format: '" ++ placeholder ++ "'"])
  | [p0; stepId; p2; outputName] =>
      if String.eqb p0 "steps" && String.eqb p2 "outputs" then
        match map_get (stepsOutput c) stepId with
        | Some stepOutputs =>
            match map_get stepOutputs outputName with
            | Some outputValue =>
                let outputDef :=
                  match List.find (fun s => String.eqb (id s) stepId) (steps c) with
                  | Some stepDef =>
                      List.find (fun o => String.eqb (name o) outputName)
                                (outputs stepDef)
                  | None => None
                  end in
                match outputDef with
                | None =>
                    (None,
                     ["The output '" ++ outputName ++ "' definition in step '"
                        ++ stepId ++ "' is missing"])
                | Some def =>
                    let (v, ws) := loadValueByType fs outputValue (type def) in
                    (Some v, ws)
                end
            | None =>
                (None,
                 ["Output '" ++ outputName ++ "' not found in step '"
                    ++ stepId ++ "'"])
            end
        | None => (None, ["Step '" ++ stepId ++ "' has not been executed yet"])
        end
      else (None, ["Invalid placeholder format: '" ++ placeholder ++ "'"])
  | _ => (None, ["Invalid placeholder format: '" ++ placeholder ++ "'"])
  end.

(** The loop of [prompt] over the matches found in the template. *)
Fixpoint substitute (c : Config) (fs : files) (matches : list (string * string))
  (finalPrompt : string) (warnings : list string) : string * list string :=
  match matches with
  | [] => (finalPrompt, warnings)
  | (fullMatch, captured) :: r =>
      let (replacementValue, ws) := resolve c fs (trim captured) in
      substitute c fs r
        (match replacementValue with
         | Some v => replace finalPrompt fullMatch v
         | None => finalPrompt
         end)
        (warnings ++ ws)%list
  end.

Fixpoint warning_lines (l : list string) : list string :=
  match l with
  | [] => []
  | [w] => ["└── " ++ w]
  | w :: r => ("├── " ++ w) :: warning_lines r
  end.

(** [prompt ()]. *)
Definition prompt (c : Config) : R string :=
  fun w =>
    let (finalPrompt, warnings) :=
      substitute c (disk w) (matchAll (prompt_template (step c)))
        (prompt_template (step c)) [] in
    let text := finalPrompt ++ generateOutputInstructions (tool c) (outputs (step c)) in
    match warnings with
    | [] => (Returned text, w)
    | _ =>
        (Returned text,
         {| disk := disk w;
            console :=
              (console w
                 ++ ((nl ++ "Prompt Template Warnings:")%string
                       :: warning_lines warnings))%list |})
    end.

End Prompt.

(** *** Parsing the outputs of a step *)

Section Parsing.
Context {host : Host}.

(** [JSON.parse (x)] for any [x]: the text of [x] is parsed; [None] when the
    conversion or the parse throws. *)
Definition parse_any (x : json) : option json :=
  match to_string x with
  | Some text => parse text
  | None => None
  end.

(** The first match of a fenced json block in the text, as its captured
    group: the text between the opening fence with the white space after it
    and the white space before the first closing fence. *)
Definition json_block (text : string) : option string :=
  match split_first "```json" text with
  | Some (_, after) =>
      match split_first "```" (skip_space after) with
      | Some (body, _) => Some (trimEnd body)
      | None => None
      end
  | None => None
  end.

(** [jsonData[k]] on a parsed object or array: an own property, a member of
    the prototype, or [undefined]. *)
Inductive property : Type :=
| Undefined
| Own (v : json)
| Inherited (text : string).

Definition index (jsonData : json) (k : string) : property :=
  match jsonData with
  | JObj m =>
      match lookup m k with
      | Some v => match v with JUndef => Undefined | _ => Own v end
      | None =>
          match prototype_member false k with
          | Some text => Inherited text
          | None => Undefined
          end
      end
  | JArr l =>
      match array_index k with
      | Some i =>
          match nth_error l (Z.to_nat i) with
          | Some v => match v with JUndef => Undefined | _ => Own v end
          | None => Undefined
          end
      | None =>
          if String.eqb k "length" then Own (JNum (Z.of_nat (List.length l)))
          else
            match prototype_member true k with
            | Some text => Inherited text
            | None => Undefined
            end
      end
  | _ => Undefined
  end.

(** [jsonData && typeof jsonData === 'object'] *)
Definition is_object (jsonData : json) : bool :=
  match jsonData with
  | JObj _ | JArr _ => true
  | _ => false
  end.

Definition NOT_FOUND : string := "[Not found in response]".
Definition NOT_EXTRACTED : string := "[Could not extract from response]".

(** The body of the loop of [extractStringOutputs] for one output. *)
Definition extractStringOutput (jsonData : json) (o : WorkflowOutput)
  (out : smap string) : R (smap string) :=
  if is_object jsonData then
    match index jsonData (name o) with
    | Own v =>
        match to_string v with
        | Some text => ret (map_set out (name o) text)
        | None => throw "Cannot convert object to primitive value"
        end
    | Inherited text => ret (map_set out (name o) text)
    | Undefined =>
        (log (warning_sign ++ "Output '" ++ name o ++ "' not found in response") ;;
         ret (map_set out (name o) NOT_FOUND))%exn
    end
  else
    (log (warning_sign ++ "Could not extract '" ++ name o
            ++ "' from non-JSON response") ;;
     ret (map_set out (name o) NOT_EXTRACTED))%exn.

Fixpoint extractEach (jsonData : json) (l : list WorkflowOutput)
  (out : smap string) : R (smap string) :=
  match l with
  | [] => ret out
  | o :: r =>
      (out' <- extractStringOutput jsonData o out ;;
       extractEach jsonData r out')%exn
  end.

(** The JSON value [extractStringOutputs] works from: the whole response
    parsed, or else the first fenced json block parsed, or else [null].
    Looking for the block in a response that is not a string throws. *)
Definition recover_json (responseContent : json) : R json :=
  let jsonData :=
    match parse_any responseContent with Some v => v | None => JNull end in
  match jsonData with
  | JNull | JUndef =>
      match responseContent with
      | JStr text =>
          match json_block text with
          | Some block =>
              match parse block with
              | Some v => ret v
              | None =>
                  (log (warning_sign ++ "Found JSON block but failed to parse it") ;;
                   ret JNull)%exn
              end
          | None => ret JNull
          end
      | _ => throw "responseContent.match is not a function"
      end
  | _ => ret jsonData
  end.

(** [extractStringOutputs (responseContent, stringOutputs, outputs)]. *)
Definition extractStringOutputs (responseContent : json)
  (stringOutputs : list WorkflowOutput) (out : smap string) : R (smap string) :=
  (jsonData <- recover_json responseContent ;;
   extractEach jsonData stringOutputs out)%exn.

(** The body of the loop of [extractFileOutputs] for one output. *)
Definition extractFileOutput (outputDir : option string) (o : WorkflowOutput)
  (out : smap string) : R (smap string) :=
  match filename o with
  | None =>
      (log (warning_sign ++ "File output '" ++ name o ++ "' missing filename") ;;
       ret (map_set out (name o) "[Missing filename]"))%exn
  | Some file_name =>
      if String.eqb file_name EmptyString then
        (log (warning_sign ++ "File output '" ++ name o ++ "' missing filename") ;;
         ret (map_set out (name o) "[Missing filename]"))%exn
      else
        try_catch
          (fun w =>
             if existsSync (disk w) file_name then
               let moved : outcome string string * files :=
                 match outputDir with
                 | Some dir =>
                     if String.eqb dir EmptyString then
                       (Returned file_name, disk w)
                     else
                       let filePath := path_join dir (path_basename file_name) in
                       match copyFileSync (disk w) file_name filePath with
                       | Returned copied =>
                           match rmSync copied file_name with
                           | Returned fs => (Returned filePath, fs)
                           | Threw why => (Threw why, copied)
                           end
                       | Threw why => (Threw why, disk w)
                       end
                 | None => (Returned file_name, disk w)
                 end in
               let after := {| disk := snd moved; console := console w |} in
               match fst moved with
               | Returned filePath =>
                   match readFileSync (snd moved) filePath with
                   | Returned fileContent =>
                       (Returned
                          (map_set (map_set out (name o) filePath)
                             (name o ++ "_content") fileContent),
                        after)
                   | Threw why => (Threw why, after)
                   end
               | Threw why => (Threw why, after)
               end
             else
               (log (warning_sign ++ "Expected file '" ++ file_name
                       ++ "' was not created") ;;
                ret (map_set out (name o) "[File not created]"))%exn w)
          (fun why =>
             log (warning_sign ++ "Could not read file '" ++ file_name ++ "': "
                    ++ why) ;;
             ret (map_set out (name o) "[Could not read file]"))%exn
  end.

Fixpoint extractFileOutputs (outputDir : option string)
  (l : list WorkflowOutput) (out : smap string) : R (smap string) :=
  match l with
  | [] => ret out
  | o :: r =>
      (out' <- extractFileOutput outputDir o out ;;
       extractFileOutputs outputDir r out')%exn
  end.

(** [toolUsesJsonFormat ()] *)
Definition toolUsesJsonFormat (tool : string) : bool :=
  String.eqb tool "claude" || String.eqb tool "gemini".

(** [a || b || c] *)
Definition first_truthy (a b c : json) : json := or_else (or_else a b) c.

(** The content and the usage statistics taken from the envelope of a tool
    that answers in JSON; the raw text when the envelope cannot be read. *)
Definition open_envelope (tool rawOutput : string)
  : R (json * option AgentUsageStats) :=
  if toolUsesJsonFormat tool then
    let fallback : R (json * option AgentUsageStats) :=
      (log (warning_sign
              ++ "Expected JSON format but got invalid JSON, treating as raw text") ;;
       ret (JStr rawOutput, None))%exn in
    match parse rawOutput with
    | Some JNull => fallback
    | Some parsedResponse =>
        let responseContent :=
          if String.eqb tool "claude" then
            first_truthy (field parsedResponse "result")
              (field parsedResponse "content") (field parsedResponse "message")
          else
            first_truthy (field parsedResponse "response")
              (field parsedResponse "content") (field parsedResponse "text") in
        match extractUsageStats parsedResponse with
        | Some usage => ret (responseContent, usage)
        | None => fallback
        end
    | None => fallback
    end
  else ret (JStr rawOutput, None).

Record ParseResult : Type := {
  parse_success : bool;
  parse_error : option string;
  usage : option AgentUsageStats
}.

(** The string outputs of the step, when it declares any. *)
Definition string_stage (c : Config) (responseContent : json)
  (out : smap string) : R (smap string) :=
  match List.filter is_string_output (outputs (step c)) with
  | [] => ret out
  | stringOutputs => extractStringOutputs responseContent stringOutputs out
  end.

(** The file outputs of the step, when it declares any. *)
Definition file_stage (c : Config) (outputDir : option string)
  (out : smap string) : R (smap string) :=
  match List.filter is_file_output (outputs (step c)) with
  | [] => ret out
  | fileOutputs => extractFileOutputs outputDir fileOutputs out
  end.

(** [parseStepOutputs (rawOutput, outputs, outputDir)]: what it returns and
    the map as it leaves it.  When it fails its caller throws and the map is
    not read again. *)
Definition parseStepOutputs (c : Config) (rawOutput : string)
  (out : smap string) (outputDir : option string) : R (ParseResult * smap string) :=
  fun w =>
    let attempt : R (option AgentUsageStats * smap string) :=
      (env <- open_envelope (tool c) rawOutput ;;
       out1 <- string_stage c (fst env) out ;;
       out2 <- file_stage c outputDir out1 ;;
       ret (snd env, out2))%exn in
    match attempt w with
    | (Returned (u, out'), w') =>
        (Returned ({| parse_success := true; parse_error := None; usage := u |},
                   out'), w')
    | (Threw why, w') =>
        (Returned ({| parse_success := false;
                      parse_error := Some ("Failed to parse outputs: " ++ why);
                      usage := None |}, out), w')
    end.

End Parsing.

(** *** [run] *)

Record RunnerStepResult : Type := {
  result_id : string;
  success : bool;
  error : option string;
  errorCode : option string;
  result_tokens : option Z;
  result_cost : option string;
  result_model : option string;
  result_outputs : smap string
}.

Section Run.
Context {host : Host}.

(** The detector fed with the chunks of standard error: whether the
    accumulated text ever looked like a wait for authentication. *)
Fixpoint authWaitingDetector (chunks : list string) (stderrBuffer : string)
  (authDetected : bool) : bool :=
  match chunks with
  | [] => authDetected
  | chunk :: r =>
      authWaitingDetector r (stderrBuffer ++ chunk)
        (authDetected || isWaitingForAuthentication (stderrBuffer ++ chunk))
  end.

(** [tryRecoverFromAgentError (result, finalPrompt)]. *)
Definition tryRecoverFromAgentError (result : LaunchResult) (finalPrompt : string)
  : R (option (string * option string)) :=
  match recoverFromError with
  | None => ret None
  | Some hook =>
      match hook result finalPrompt with
      | Returned r => ret r
      | Threw why =>
          (log ("Recovery handler failed: " ++ why) ;; ret None)%exn
      end
  end.

Definition AUTH_MESSAGE : string :=
  "Agent requires authentication - process was terminated".

(** [String (b)] for a boolean. *)
Definition bool_text (b : bool) : string := if b then "true" else "false".

Definition or_empty (o : option string) : string :=
  match o with Some s => s | None => EmptyString end.

(** The error of a process that failed and was not recovered: a timeout, a
    cancellation, or what the classifier makes of its output. *)
Definition classify (c : Config) (result : LaunchResult) : AgentError :=
  if timedOut result then
    newTimeoutError
      ("Step '" ++ step_name (step c) ++ "' exceeded timeout of "
         ++ Z_to_string (stepTimeout c) ++ "s")
      (stepTimeout c * 1000)
  else if isCanceled result then
    newAuthenticationError AUTH_MESSAGE (tool c)
  else
    parseAgentError (or_empty (stderr result)) (or_empty (stdout result))
      (exitCode result) (tool c).

(** The first half of [run] after the launch: the raw output of a step
    that succeeded or was recovered, or else the classified error. *)
Definition attempt (c : Config) (result : LaunchResult) (finalPrompt : string)
  : R (option string * option AgentError) :=
  (let authDetected :=
     authWaitingDetector (stderr_chunks result) EmptyString false in
   if authDetected then
     ret (None, Some (newAuthenticationError AUTH_MESSAGE (tool c)))
   else if match exitCode result with Some 0%Z => true | _ => false end then
     ret (Some (or_empty (stdout result)), None)
   else
     recoveryResult <- tryRecoverFromAgentError result finalPrompt ;;
     match recoveryResult with
     | Some (rawOutput, notice) =>
         match notice with
         | Some n => if String.eqb n EmptyString then ret tt else log n
         | None => ret tt
         end ;;
         ret (Some rawOutput, None)
     | None => ret (None, Some (classify c result))
     end)%exn.

(** The output map when the step ended in a classified error. *)
Definition error_entries (e : AgentError) (out : smap string) : smap string :=
  map_set (map_set (map_set out "error" (message e)) "error_code" (code e))
    "error_retryable" (bool_text (isRetryable e)).

(** The second half of [run]: the output map and the result. *)
Definition finish (c : Config) (finalPrompt : string) (output : option string)
  (rawOutput : option string) (agentError : option AgentError)
  : R RunnerStepResult :=
  (parsed <-
     match rawOutput with
     | Some raw =>
         let out0 :=
           map_set (map_set [] "raw_output" raw) "input_prompt" finalPrompt in
         r <- parseStepOutputs c raw out0 output ;;
         if parse_success (fst r) then ret (snd r, usage (fst r))
         else
           throw (match parse_error (fst r) with
                  | Some e =>
                      if String.eqb e EmptyString
                      then "Failed to parse step outputs" else e
                  | None => "Failed to parse step outputs"
                  end)
     | None => ret ([], None)
     end ;;
   let out := fst parsed in
   let usageStats := snd parsed in
   out' <-
     match agentError with
     | Some e =>
         log ("✗ Step '" ++ step_name (step c) ++ "' failed: " ++ message e) ;;
         match class e with
         | AuthenticationError =>
             log "  Error type: Authentication required" ;;
             log ("  Please authenticate with " ++ tool c ++ " and try again")
         | _ =>
             if isRetryable e then
               log ("  Error type: " ++ code e ++ " (retryable)")
             else log ("  Error type: " ++ code e)
         end ;;
         ret (error_entries e out)
     | None => ret out
     end ;;
   ret {| result_id := id (step c);
          success := negb (map_has out' "error");
          error := map_get out' "error";
          errorCode :=
            match agentError with
            | Some e =>
                match class e with
                | CreditExhaustedError => Some (code e)
                | _ => None
                end
            | None => None
            end;
          result_tokens := match usageStats with Some u => tokens u | None => None end;
          result_cost := match usageStats with Some u => cost u | None => None end;
          result_model := match usageStats with Some u => model u | None => None end;
          result_outputs := out' |})%exn.

(** [run (output)]; [launch] is the process started on the final prompt.
    The console keeps the warnings and failures; progress lines and the
    elapsed time are left out. *)
Definition run (c : Config) (launch : string -> LaunchResult)
  (output : option string) : R RunnerStepResult :=
  (finalPrompt <- prompt c ;;
   a <- attempt c (launch finalPrompt) finalPrompt ;;
   finish c finalPrompt output (fst a) (snd a))%exn.

End Run.

(** *** Notions of the statements *)

(** A value without a dollar sign: [replace] has no pattern to expand. *)
Definition plain (s : string) : bool := lacks "$" s.

(** A step of the parse keeps what the map holds. *)
Definition keeps (f : smap string -> R (smap string)) : Prop :=
  forall out w out' w' k,
    f out w = (Returned out', w') ->
    map_has out k = true -> map_has out' k = true.



(** The world after a line on the console. *)
Definition logged (w : world) (line : string) : world :=
  {| disk := disk w; console := (console w ++ [line])%list |}.

(** A character that opens a JSON value. *)
Definition opens_json (c : ascii) : bool :=
  (c =? "{")%char || (c =? "[")%char || (c =? dquote)%char
  || (c =? "-")%char || is_digit c
  || (c =? "t")%char || (c =? "f")%char || (c =? "n")%char.

(** A text that cannot start a JSON text: after the white space of JSON
    comes nothing, or a character that opens no JSON value.  [JSON.parse]
    throws on such a text. *)
Definition not_json (text : string) : bool :=
  match skip_ws text with
  | EmptyString => true
  | String c _ => negb (opens_json c)
  end.


(** *** A host, a workflow and responses for the examples *)

Definition sample_host : Host := {|
  isWaitingForAuthentication :=
    fun text => includes (toLowerCase text) "waiting for authentication";
  parseAgentError :=
    fun err out exit _ =>
      if Credit.test Credit.CREDIT_EXHAUSTED_PATTERN (err ++ nl ++ out) then
        {| class := CreditExhaustedError; message := "AI credits exhausted";
           code := "CREDIT_EXHAUSTED"; isRetryable := true |}
      else
        {| class := OtherError; message := or_empty (Some err);
           code := "AGENT_ERROR"; isRetryable := false |};
  newAuthenticationError :=
    fun msg _ =>
      {| class := AuthenticationError; message := msg;
         code := "AUTHENTICATION_REQUIRED"; isRetryable := false |};
  newTimeoutError :=
    fun msg _ =>
      {| class := TimeoutError; message := msg; code := "TIMEOUT";
         isRetryable := false |};
  recoverFromError := None;
  extractUsageStats := fun _ => Some None;
  prototype_member :=
    fun is_array k =>
      if String.eqb k "constructor" then
        Some (if is_array then "function Array() { [native code] }"
              else "function Object() { [native code] }")
      else None;
  path_join := fun dir base => dir ++ "/" ++ base;
  path_basename :=
    fun path => match rev (split_on "/" path) with
                | base :: _ => base
                | [] => path
                end;
  path_resolve := fun path => path;
  copy_refused := fun _ _ _ => None;
  remove_refused := fun _ _ => None;
  inline_object := fun _ => None;
  header_value := fun _ _ => Returned None;
  key_value := fun _ _ => Returned None
|}.

Definition outcome_output : WorkflowOutput :=
  {| name := "outcome"; type := type_string;
     description := "simple or complex"; filename := None |}.

Definition plan_output : WorkflowOutput :=
  {| name := "f"; type := type_file; description := "the plan";
     filename := Some "plan.md" |}.

Definition step_s1 : WorkflowAgentStep :=
  {| id := "s1"; step_name := "Plan";
     prompt_template := "Plan the task {{inputs.task}}";
     outputs := [plan_output; outcome_output] |}.

Definition step_s2 : WorkflowAgentStep :=
  {| id := "s2"; step_name := "Implement";
     prompt_template := "{{steps.s1.outputs.f}}";
     outputs := [] |}.

Definition step_run : WorkflowAgentStep :=
  {| id := "s3"; step_name := "Run";
     prompt_template := "Run {{inputs.cmd}}";
     outputs := [] |}.

Definition step_twice : WorkflowAgentStep :=
  {| id := "s4"; step_name := "Twice";
     prompt_template := "{{inputs.task}} / {{inputs.task}}";
     outputs := [] |}.

Definition sample_config (s : WorkflowAgentStep) : Config :=
  {| step := s; steps := [step_s1; step_s2; step_run];
     inputs := [("task", "fix the bug"); ("cmd", "echo $& done")];
     stepsOutput := [("s1", [("f", "/out/plan.md")])];
     tool := "codex"; stepTimeout := 60 |}.

Definition sample_world : world :=
  {| disk := [("/out/plan.md", Readable "hello")]; console := [] |}.

(** The same file with a price list in it. *)
Definition priced_world : world :=
  {| disk := [("/out/plan.md", Readable "cost $& and $$5")]; console := [] |}.

(** A process that ends with exit code 1 and nothing written. *)
Definition failing_launch (_ : string) : LaunchResult :=
  {| exitCode := Some 1%Z; stdout := Some EmptyString;
     stderr := Some "boom"; timedOut := false; isCanceled := false;
     stderr_chunks := ["boom"] |}.

(** What the step [s1] of the examples returns on that process. *)
Definition failed_step_result : RunnerStepResult :=
  {| result_id := "s1"; success := false; error := Some "boom";
     errorCode := None; result_tokens := None; result_cost := None;
     result_model := None;
     result_outputs :=
       [("error", "boom"); ("error_code", "AGENT_ERROR");
        ("error_retryable", "false")] |}.

End Runner.

(* ================================================================== *)
(** ** [ACPRunner]: prompt and string outputs of the session runner *)
(* ================================================================== *)

Module ACPRunner.
Import Str Json Exn Runner.

(** [generateOutputInstructions (step)] of the session runner: the
    instructions of the subprocess runner without the line for a tool and
    without the closing section on both kinds of outputs. *)
Definition generateOutputInstructions (stepOutputs : list WorkflowOutput)
  : string :=
  match stepOutputs with
  | [] => EmptyString
  | _ =>
      let stringOutputs := List.filter is_string_output stepOutputs in
      let fileOutputs := List.filter is_file_output stepOutputs in
      nl ++ nl ++ "## OUTPUT REQUIREMENTS" ++ nl ++ nl
        ++ "You MUST provide your response in the exact format specified below:"
        ++ nl ++ nl
        ++ (match stringOutputs with
            | [] => EmptyString
            | _ =>
                "### JSON Response" ++ nl ++ nl
                  ++ "Return a JSON object with the following structure:"
                  ++ nl ++ nl
                  ++ "```json" ++ nl ++ "{" ++ nl
                  ++ json_template_lines stringOutputs
                  ++ "}" ++ nl ++ "```" ++ nl ++ nl
                  ++ "Where:" ++ nl
                  ++ where_lines stringOutputs ++ nl
            end)
        ++ (match fileOutputs with
            | [] => EmptyString
            | _ =>
                "### File Creation" ++ nl ++ nl
                  ++ "You MUST create the following files with the exact content needed:"
                  ++ nl ++ nl
                  ++ file_lines EmptyString fileOutputs
                  ++ "IMPORTANT: All files must be created with appropriate content. Do not create empty or placeholder files."
                  ++ nl ++ nl
            end)
        ++ "**CRITICAL**: Follow these output requirements exactly. "
        ++ "Your response will be automatically parsed, so any deviation from the specified format will cause errors."
        ++ nl
  end.

(** The body of the loop of [buildACPPrompt] for one placeholder. *)
Definition resolve (c : Config) (placeholder : string)
  : option string * list string :=
  let parts := split_on "." placeholder in
  match parts with
  | [p0; p1] =>
      if String.eqb p0 "inputs" then
        match map_get (inputs c) p1 with
        | Some inputValue => (Some inputValue, [])
        | None => (None, ["Input '" ++ p1 ++ "' not provided"])
        end
      else (None, ["Invalid placeholder format: '" ++ placeholder ++ "'"])
  | [p0; stepId; p2; outputName] =>
      if String.eqb p0 "steps" && String.eqb p2 "outputs" then
        match map_get (stepsOutput c) stepId with
        | Some stepOutputs =>
            match map_get stepOutputs outputName with
            | Some outputValue =>
                let outputDef :=
                  match List.find (fun s => String.eqb (id s) stepId) (steps c) with
                  | Some stepDef =>
                      List.find (fun o => String.eqb (name o) outputName)
                                (outputs stepDef)
                  | None => None
                  end in
                match option_map type outputDef with
                | Some type_file =>
                    match map_get stepOutputs (outputName ++ "_content") with
                    | Some fileContent =>
                        if String.eqb fileContent EmptyString then
                          (None,
                           ["File content for '" ++ outputName
                              ++ "' not found in step '" ++ stepId ++ "'"])
                        else (Some fileContent, [])
                    | None =>
                        (None,
                         ["File content for '" ++ outputName
                            ++ "' not found in step '" ++ stepId ++ "'"])
                    end
                | _ => (Some outputValue, [])
                end
            | None =>
                (None,
                 ["Output '" ++ outputName ++ "' not found in step '"
                    ++ stepId ++ "'"])
            end
        | None => (None, ["Step '" ++ stepId ++ "' has not been executed yet"])
        end
      else (None, ["Invalid placeholder format: '" ++ placeholder ++ "'"])
  | _ => (None, ["Invalid placeholder format: '" ++ placeholder ++ "'"])
  end.

Fixpoint substitute (c : Config) (matches : list (string * string))
  (prompt : string) (warnings : list string) : string * list string :=
  match matches with
  | [] => (prompt, warnings)
  | (fullMatch, captured) :: r =>
      let (replacementValue, ws) := resolve c (trim captured) in
      substitute c r
        (match replacementValue with
         | Some v => replace prompt fullMatch v
         | None => prompt
         end)
        (warnings ++ ws)%list
  end.

(** [buildACPPrompt (step)]. *)
Definition buildACPPrompt (c : Config) : R string :=
  fun w =>
    let (prompt, warnings) :=
      substitute c (matchAll (prompt_template (step c)))
        (prompt_template (step c)) [] in
    let text := prompt ++ generateOutputInstructions (outputs (step c)) in
    match warnings with
    | [] => (Returned text, w)
    | _ =>
        (Returned text,
         {| disk := disk w;
            console :=
              (console w
                 ++ ((nl ++ "Prompt Template Warnings:")%string
                       :: warning_lines warnings))%list |})
    end.

Section Outputs.
Context {host : Host}.

(** [extractJsonFromContent (content)]: the first fenced json block if it
    parses, or else the first inline object if it parses, or else [null]. *)
Definition extractJsonFromContent (content : string) : json :=
  match match json_block content with
        | Some block => parse block
        | None => None
        end with
  | Some v => v
  | None =>
      match inline_object content with
      | Some text => match parse text with Some v => v | None => JNull end
      | None => JNull
      end
  end.

(** [extractValueFromFileContent (outputName, outputs)]: the first word one
    of the two patterns captures in a content entry, in lower case. *)
Fixpoint extractValueFromFileContent (outputName : string)
  (entries : smap string) : outcome string (option string) :=
  match entries with
  | [] => Returned None
  | (key, content) :: r =>
      if endsWith key "_content" then
        match header_value outputName content with
        | Threw e => Threw e
        | Returned (Some word) => Returned (Some (toLowerCase word))
        | Returned None =>
            match key_value outputName content with
            | Threw e => Threw e
            | Returned (Some word) => Returned (Some (toLowerCase word))
            | Returned None => extractValueFromFileContent outputName r
            end
        end
      else extractValueFromFileContent outputName r
  end.

(** The loop over the file outputs: the first JSON found in their content
    that is truthy, or else [jsonData] as it was. *)
Fixpoint json_of_file_outputs (fileOutputs : list WorkflowOutput)
  (out : smap string) (jsonData : json) : json :=
  match fileOutputs with
  | [] => jsonData
  | fileOutput :: r =>
      match map_get out (name fileOutput ++ "_content") with
      | Some content =>
          if String.eqb content EmptyString then
            json_of_file_outputs r out jsonData
          else
            let extracted := extractJsonFromContent content in
            if truthy extracted then extracted
            else json_of_file_outputs r out jsonData
      | None => json_of_file_outputs r out jsonData
      end
  end.

(** The JSON the session runner works from: the outputs file of the step,
    consumed, or else the content of the file outputs, or else the response
    of the agent. *)
Definition recover_json (stepId : string) (fileOutputs : list WorkflowOutput)
  (out : smap string) (agentResponse : string) : R json :=
  (let outputsFile := "_" ++ stepId ++ "_outputs.json" in
   fromFile <-
     (fun w =>
        if existsSync (disk w) outputsFile then
          match readFileSync (disk w) outputsFile with
          | Returned content =>
              match parse content with
              | Some v =>
                  match rmSync (disk w) outputsFile with
                  | Returned fs =>
                      (Returned v, {| disk := fs; console := console w |})
                  | Threw _ =>
                      (Returned v,
                       snd (log (warning_sign ++ "Found " ++ outputsFile
                                   ++ " but failed to parse it") w))
                  end
              | None =>
                  (Returned JNull,
                   snd (log (warning_sign ++ "Found " ++ outputsFile
                               ++ " but failed to parse it") w))
              end
          | Threw _ =>
              (Returned JNull,
               snd (log (warning_sign ++ "Found " ++ outputsFile
                           ++ " but failed to parse it") w))
          end
        else (Returned JNull, w)) ;;
   let fromContent :=
     if truthy fromFile then fromFile
     else json_of_file_outputs fileOutputs out fromFile in
   let fromResponse :=
     if negb (truthy fromContent)
        && negb (String.eqb agentResponse EmptyString) then
       let extracted := extractJsonFromContent agentResponse in
       if truthy extracted then extracted else fromContent
     else fromContent in
   ret fromResponse)%exn.

(** The body of the loop of [extractStringOutputs] for one output. *)
Definition extractStringOutput (jsonData : json) (o : WorkflowOutput)
  (out : smap string) : R (smap string) :=
  (fromJson <-
     (if truthy jsonData && is_object jsonData then
        match index jsonData (name o) with
        | Own v =>
            match to_string v with
            | Some text => ret (Some text)
            | None => throw "Cannot convert object to primitive value"
            end
        | Inherited text => ret (Some text)
        | Undefined => ret None
        end
      else ret None) ;;
   value <-
     match fromJson with
     | Some text => ret (Some text)
     | None =>
         match extractValueFromFileContent (name o) out with
         | Returned v => ret v
         | Threw e => throw e
         end
     end ;;
   match value with
   | Some text => ret (map_set out (name o) text)
   | None =>
       log (warning_sign ++ "Output '" ++ name o ++ "' not found in response") ;;
       ret (map_set out (name o) NOT_FOUND)
   end)%exn.

Fixpoint extractEach (jsonData : json) (l : list WorkflowOutput)
  (out : smap string) : R (smap string) :=
  match l with
  | [] => ret out
  | o :: r =>
      (out' <- extractStringOutput jsonData o out ;;
       extractEach jsonData r out')%exn
  end.

(** [extractStringOutputs (stepId, stringOutputs, fileOutputs, outputs,
    agentResponse)]. *)
Definition extractStringOutputs (stepId : string)
  (stringOutputs fileOutputs : list WorkflowOutput) (out : smap string)
  (agentResponse : string) : R (smap string) :=
  (jsonData <- recover_json stepId fileOutputs out agentResponse ;;
   extractEach jsonData stringOutputs out)%exn.

End Outputs.

End ACPRunner.

(* ================================================================== *)
(** ** [TaskDescriptionManager]: the other methods *)
(* ================================================================== *)

Module Manager.
Import Str Json Exn Task.

Section Methods.
Context {env : Env}.

(** [existsSync (path)] on the files of the manager. *)
Definition file_exists (fs : files) (path : string) : bool :=
  match read_file fs path with Some _ => true | None => false end.

(** [TaskDescriptionManager.exists (basePath)]. *)
Definition task_exists (base : string) (fs : files) : bool :=
  file_exists fs (join_path base "description.json").

(** What [rmSync] does with a file that is there: it removes it, or the
    host refuses (no permission, a directory under that name ...) and
    [rmSync] throws. *)
Inductive removal : Type := Removed | Refused.

(** [delete ()]: the description file is removed when it is there; whatever
    [rmSync] throws is caught and thrown again as a [TaskFileError].
    [existsSync] does not throw. *)
Definition delete (rmSync : removal) : T unit :=
  fun w =>
    if file_exists (disk w) (filePath w) then
      match rmSync with
      | Removed =>
          (Returned tt, with_disk (fun fs => remove_file fs (filePath w)) w)
      | Refused => (Threw TaskFileError, w)
      end
    else (Returned tt, w).

Definition updateTitle (title : string) : T unit :=
  (assign "title" (JStr title) ;; save)%exn.

Definition updateDescription (description : string) : T unit :=
  (assign "description" (JStr description) ;; save)%exn.

Definition setAgent (agent : string) (model : option string) : T unit :=
  (assign "agent" (JStr agent) ;;
   assign "agentModel" (of_option model) ;;
   save)%exn.

Definition setBaseCommit (commit : string) : T unit :=
  (assign "baseCommit" (JStr commit) ;; save)%exn.

Definition setOnCompleteHookFiredAt (timestamp : string) : T unit :=
  (assign "onCompleteHookFiredAt" (JStr timestamp) ;; save)%exn.

(** [updateIteration (metadata)]. *)
Definition updateIteration (timestamp : option string) : T unit :=
  (match timestamp with
   | Some t =>
       when (negb (String.eqb t EmptyString)) (assign "lastIterationAt" (JStr t))
   | None => ret tt
   end ;;
   save)%exn.

(** [updateExecutionStatus (status, metadata)]; [errorNow] and [endNow] are
    what the clock gives at its two readings. *)
Definition updateExecutionStatus (errorNow endNow : string) (status : string)
  (exitCode : option Z) (error : option string) : T unit :=
  (assign "executionStatus" (JStr status) ;;
   match exitCode with
   | Some n => assign "exitCode" (JNum n)
   | None => ret tt
   end ;;
   match error with
   | Some e =>
       when (negb (String.eqb e EmptyString))
         (assign "error" (JStr e) ;; assign "errorAt" (JStr errorNow))
   | None => ret tt
   end ;;
   (if String.eqb status "completed" then assign "completedAt" (JStr endNow)
    else if String.eqb status "failed" then assign "failedAt" (JStr endNow)
    else ret tt) ;;
   save)%exn.

(** [isActive ()]. *)
Definition isActive (w : world) : bool :=
  isNew w || isInProgress w || isIterating w.

End Methods.

(** *** Notions of the statements *)

(** The properties [setStatus] may assign for a status. *)
Definition assigned (st : TaskStatus) : list string :=
  "status" :: "lastStatusCheck" ::
  match st with
  | NEW => []
  | IN_PROGRESS => ["startedAt"]
  | ITERATING => ["lastIterationAt"]
  | COMPLETED | MERGED | PUSHED => ["completedAt"]
  | FAILED | PAUSED_CREDITS => ["failedAt"; "error"]
  end.

(** *** A command for the examples *)

(** The restart of the examples when no sandbox starts. *)
Definition sandbox_down : RestartEnv :=
  {| restartedAt := later_time; progressAt := later_time;
     runningAt := later_time; resetAt := later_time;
     workspace_created := Some ("worktrees/15", "rover/task-15");
     agent_image := None; sandbox_started := None;
     docker_host := None |}.

End Manager.

(* ================================================================== *)
(** ** More steps and processes for the examples *)
(* ================================================================== *)

Module Samples.
Import Str Json Exn Runner.

(** A step whose template names an input that the user did not give. *)
Definition step_deploy : WorkflowAgentStep :=
  {| id := "s5"; step_name := "Deploy";
     prompt_template := "Deploy to {{inputs.target}} now";
     outputs := [] |}.

(** A step whose template has no placeholder. *)
Definition step_summary : WorkflowAgentStep :=
  {| id := "s6"; step_name := "Summary";
     prompt_template := "Summarise the work";
     outputs := [] |}.

(** A step that declares an output named [error]. *)
Definition error_output : WorkflowOutput :=
  {| name := "error"; type := type_string;
     description := "the error found, if any"; filename := None |}.

Definition step_review : WorkflowAgentStep :=
  {| id := "s7"; step_name := "Review";
     prompt_template := "Review the change";
     outputs := [error_output] |}.

(** A process that ends with exit code 0 and answers in JSON. *)
Definition passing_launch (_ : string) : LaunchResult :=
  {| exitCode := Some 0%Z;
     stdout := Some ("{ " ++ q ++ "outcome" ++ q ++ ": " ++ q ++ "simple" ++ q
                       ++ ", " ++ q ++ "error" ++ q ++ ": " ++ q ++ "none" ++ q
                       ++ " }");
     stderr := None; timedOut := false; isCanceled := false;
     stderr_chunks := [] |}.






(** The files when the agent has written its plan in the working
    directory. *)
Definition plan_written : world :=
  {| disk := [("plan.md", Readable "1. fix the bug")]; console := [] |}.

(** What [run] returns, or the failed result of the examples when it
    throws. *)
Definition result_of (x : outcome string RunnerStepResult * world)
  : RunnerStepResult :=
  match fst x with
  | Returned r => r
  | Threw _ => failed_step_result
  end.

End Samples.

(* ================================================================== *)
(** ** The run command: tools, inputs, the loop over the steps *)
(* ================================================================== *)

Module RunCommand.
Import Str Json Exn Runner.

(** *** The tool and the mode *)

(** [a || b] for two values typed [string | undefined]. *)
Definition or_string (a : option string) (b : string) : string :=
  match a with
  | Some s => if String.eqb s EmptyString then b else s
  | None => b
  end.

(** [options.agentTool || workflowManager.defaults?.tool || 'claude'], which
    is also what the constructor of the session runner computes from its
    configuration. *)
Definition selectTool (agentTool defaultsTool : option string) : string :=
  or_string agentTool (or_string defaultsTool "claude").

Definition acpEnabledTools : list string := ["claude"; "copilot"; "opencode"].

(** [acpEnabledTools.includes (tool.toLowerCase ())] *)
Definition useACPMode (tool : string) : bool :=
  existsb (String.eqb (toLowerCase tool)) acpEnabledTools.

(** [getACPSpawnCommand (tool)]: the command and its arguments. *)
Definition getACPSpawnCommand (tool : string)
  : outcome string (string * list string) :=
  let t := toLowerCase tool in
  if String.eqb t "claude" then
    Returned ("npx", ["-y"; "@zed-industries/claude-code-acp"])
  else if String.eqb t "copilot" then Returned ("copilot", ["--acp"])
  else if String.eqb t "opencode" then Returned ("opencode", ["acp"])
  else Threw ("No ACP available for tool " ++ tool).

(** The agents of [getAIAgentTool]. *)
Inductive AIAgentTool : Type :=
| ClaudeAI | CodexAI | CopilotAI | CursorAI | GeminiAI | OpenCodeAI | QwenAI.

(** [getAIAgentTool (agent)] *)
Definition getAIAgentTool (agent : string) : outcome string AIAgentTool :=
  let a := toLowerCase agent in
  if String.eqb a "claude" then Returned ClaudeAI
  else if String.eqb a "codex" then Returned CodexAI
  else if String.eqb a "copilot" then Returned CopilotAI
  else if String.eqb a "cursor" then Returned CursorAI
  else if String.eqb a "gemini" then Returned GeminiAI
  else if String.eqb a "opencode" then Returned OpenCodeAI
  else if String.eqb a "qwen" then Returned QwenAI
  else Threw ("Unknown AI agent: " ++ agent).

(** *** The inputs and their defaults *)

(** An input of the workflow; [JUndef] is the default that is not there. *)
Record WorkflowInput : Type := {
  input_name : string;
  input_default : json
}.

(** The loop that gives the inputs of the workflow their defaults: the map
    and the names that took a default.  [String (input.default)] can
    throw. *)
Fixpoint addDefaults (declared : list WorkflowInput) (inputs : smap string)
  (defaultInputs : list string) : outcome string (smap string * list string) :=
  match declared with
  | [] => Returned (inputs, defaultInputs)
  | input :: rest =>
      if negb (map_has inputs (input_name input))
         && match input_default input with JUndef => false | _ => true end
      then
        match to_string (input_default input) with
        | Some text =>
            addDefaults rest (map_set inputs (input_name input) text)
              (defaultInputs ++ [input_name input])
        | None => Threw "Cannot convert object to primitive value"
        end
      else addDefaults rest inputs defaultInputs
  end.

(** *** The loop over the steps, subprocess mode *)

(** What the constructor of [Runner] settles for a step: the step the
    workflow manager finds under the identifier, the tool that is available
    and the timeout of the step. *)
Record RunnerChoice : Type := {
  chosen_step : WorkflowAgentStep;
  chosen_tool : string;
  chosen_timeout : Z
}.

(** The workflow, the options of the command and the system around the
    loop: the constructor of [Runner] by step identifier (it can throw) and
    the process launched for a step on a prompt. *)
Record Setup : Type := {
  workflow_steps : list WorkflowAgentStep;
  continueOnError : bool;
  user_inputs : smap string;
  new_runner : string -> outcome string RunnerChoice;
  launch_step : string -> string -> LaunchResult;
  output_dir : option string
}.

(** What the command keeps of the step that stopped the workflow:
    [lastFailureCause], and the error of the step, which goes into
    [output.error]. *)
Record FailureCause : Type := {
  stepName : string;
  failure_errorCode : option string;
  failure_error : option string
}.

(** The variables of the command that the loop updates. *)
Record Progress : Type := {
  outputs_so_far : smap (smap string);
  runSteps : Z;
  lastFailureCause : option FailureCause
}.

Definition start : Progress :=
  {| outputs_so_far := []; runSteps := 0; lastFailureCause := None |}.

Section Steps.
Context {host : Host}.

(** The loop; the lines that display the result of a step are left out. *)
Fixpoint run_steps (S : Setup) (todo : list WorkflowAgentStep) (p : Progress)
  : R Progress :=
  match todo with
  | [] => ret p
  | s :: rest =>
      match new_runner S (id s) with
      | Threw why => throw why
      | Returned choice =>
          (let c := {| step := chosen_step choice;
                       steps := workflow_steps S;
                       inputs := user_inputs S;
                       stepsOutput := outputs_so_far p;
                       tool := chosen_tool choice;
                       stepTimeout := chosen_timeout choice |} in
           result <- run c (launch_step S (id s)) (output_dir S) ;;
           if success result then
             run_steps S rest
               {| outputs_so_far :=
                    map_set (outputs_so_far p) (id s) (result_outputs result);
                  runSteps := runSteps p + 1;
                  lastFailureCause := lastFailureCause p |}
           else if continueOnError S then
             log (nl ++ "⚠ Step '" ++ step_name s
                    ++ "' failed but continueOnError is true. Continuing with next step.") ;;
             run_steps S rest
               {| outputs_so_far := map_set (outputs_so_far p) (id s) [];
                  runSteps := runSteps p + 1;
                  lastFailureCause := lastFailureCause p |}
           else
             log (nl ++ "✗ Step '" ++ step_name s
                    ++ "' failed and continueOnError is false. Stopping workflow execution.") ;;
             ret {| outputs_so_far := outputs_so_far p;
                    runSteps := runSteps p + 1;
                    lastFailureCause :=
                      Some {| stepName := step_name s;
                              failure_errorCode := errorCode result;
                              failure_error := error result |} |})%exn
      end
  end.

End Steps.

(** *** The summary and the end of the command *)

Record CommandOutput : Type := {
  output_success : bool;
  output_error : option string
}.

(** What the command tells the status manager at its end. *)
Inductive StatusReport : Type :=
| Complete
| Fail (step message : string)
| FailCreditExhausted (step message : string).

Definition failedSteps (p : Progress) : Z :=
  runSteps p - Z.of_nat (List.length (outputs_so_far p)).

(** The output of the command after the loop: the error is the one of the
    step that stopped the workflow, the success is decided by the count of
    failed steps. *)
Definition summarize (p : Progress) : CommandOutput :=
  {| output_success := negb (0 <? failedSteps p)%Z;
     output_error :=
       match lastFailureCause p with
       | Some cause =>
           Some ("Workflow stopped due to step failure: "
                   ++ text_of (failure_error cause))
       | None => None
       end |}.

(** The report to the status manager and the exit code. *)
Definition conclude (output : CommandOutput)
  (cause : option FailureCause) : StatusReport * Z :=
  if output_success output then (Complete, 0%Z)
  else
    let failureMessage := or_string (output_error output) "Unknown error" in
    match cause with
    | Some cause =>
        match failure_errorCode cause with
        | Some code =>
            if String.eqb code "CREDIT_EXHAUSTED" then
              (FailCreditExhausted (stepName cause) failureMessage, 1%Z)
            else (Fail "Workflow execution" failureMessage, 1%Z)
        | None => (Fail "Workflow execution" failureMessage, 1%Z)
        end
    | None => (Fail "Workflow execution" failureMessage, 1%Z)
    end.

Section Command.
Context {host : Host}.

(** The command from the loop on: an error thrown in the loop is caught
    and makes the output; a command that did not succeed logs its error. *)
Definition runWorkflow (S : Setup) : R (StatusReport * Z) :=
  (found <-
     try_catch
       (p <- run_steps S (workflow_steps S) start ;;
        ret (summarize p, lastFailureCause p))
       (fun err =>
          ret ({| output_success := false; output_error := Some err |}, None)) ;;
   when (negb (output_success (fst found)))
     (log (nl ++ "✗ " ++ text_of (output_error (fst found)))) ;;
   ret (conclude (fst found) (snd found)))%exn.

End Command.

(** *** A workflow for the examples *)

(** One step, run on a process that fails. *)
Definition failing_setup (continue : bool) : Setup :=
  {| workflow_steps := [step_s1];
     continueOnError := continue;
     user_inputs := [("task", "fix the bug")];
     new_runner :=
       fun _ => Returned {| chosen_step := step_s1; chosen_tool := "codex";
                            chosen_timeout := 60 |};
     launch_step := fun _ => failing_launch;
     output_dir := None |}.

(** The loop on that workflow, and the variables it leaves. *)
Definition sample_loop (continue : bool) : outcome string Progress * world :=
  run_steps (host := sample_host) (failing_setup continue)
    (workflow_steps (failing_setup continue)) start sample_world.

Definition progress_of (r : outcome string Progress * world) : Progress :=
  match fst r with
  | Returned p => p
  | Threw _ => start
  end.

(** Inputs with and without a default. *)
Definition sample_declared : list WorkflowInput :=
  [ {| input_name := "task"; input_default := JStr "none" |};
    {| input_name := "depth"; input_default := JNum 3 |};
    {| input_name := "note"; input_default := JUndef |} ].

End RunCommand.

(* ================================================================== *)
(** ** A step whose outputs cannot be parsed *)
(* ================================================================== *)

Module RunFailure.
Import Str Json Exn Runner Samples RunCommand.

(** A step that declares one string output. *)
Definition step_classify : WorkflowAgentStep :=
  {| id := "s8"; step_name := "Classify";
     prompt_template := "Classify the task";
     outputs := [outcome_output] |}.

(** A process that ends with exit code 0 and answers with an object where
    a text is expected, one that has a property [toString]. *)
Definition object_launch (_ : string) : LaunchResult :=
  {| exitCode := Some 0%Z;
     stdout := Some ("{ " ++ q ++ "outcome" ++ q ++ ": { " ++ q ++ "toString"
                       ++ q ++ ": 1 } }");
     stderr := None; timedOut := false; isCanceled := false;
     stderr_chunks := [] |}.

(** A workflow of that step on that process. *)
Definition unparsed_setup (continue : bool) : Setup :=
  {| workflow_steps := [step_classify];
     continueOnError := continue;
     user_inputs := [];
     new_runner :=
       fun _ => Returned {| chosen_step := step_classify;
                            chosen_tool := "codex"; chosen_timeout := 60 |};
     launch_step := fun _ => object_launch;
     output_dir := None |}.

End RunFailure.

(* ================================================================== *)
(** ** The session runner: file outputs *)
(* ================================================================== *)

Module Session.
Import Str Json Exn Runner.

Section Files.
Context {host : Host}.

(** The body of the loop of [extractFileOutputs] of the session runner for
    one output; [outputDir] is the directory the runner was built with. *)
Definition extractFileOutput (outputDir : option string) (o : WorkflowOutput)
  (out : smap string) : R (smap string) :=
  match filename o with
  | None =>
      (log (warning_sign ++ "File output '" ++ name o ++ "' missing filename") ;;
       ret (map_set out (name o) "[Missing filename]"))%exn
  | Some file_name =>
      if String.eqb file_name EmptyString then
        (log (warning_sign ++ "File output '" ++ name o ++ "' missing filename") ;;
         ret (map_set out (name o) "[Missing filename]"))%exn
      else
        try_catch
          (fun w =>
             if existsSync (disk w) file_name then
               let moved : outcome string string * files :=
                 match outputDir with
                 | Some dir =>
                     if String.eqb dir EmptyString then
                       (Returned file_name, disk w)
                     else
                       let filePath := path_join dir (path_basename file_name) in
                       match copyFileSync (disk w) file_name filePath with
                       | Returned copied =>
                           match rmSync copied file_name with
                           | Returned fs => (Returned filePath, fs)
                           | Threw why => (Threw why, copied)
                           end
                       | Threw why => (Threw why, disk w)
                       end
                 | None => (Returned file_name, disk w)
                 end in
               let after := {| disk := snd moved; console := console w |} in
               match fst moved with
               | Returned filePath =>
                   match readFileSync (snd moved) filePath with
                   | Returned fileContent =>
                       (Returned
                          (map_set (map_set out (name o) filePath)
                             (name o ++ "_content") fileContent),
                        after)
                   | Threw why => (Threw why, after)
                   end
               | Threw why => (Threw why, after)
               end
             else
               (log (warning_sign ++ "Expected file '" ++ file_name
                       ++ "' was not created") ;;
                ret (map_set out (name o) "[File not created]"))%exn w)
          (fun why =>
             log (warning_sign ++ "Could not read file '" ++ file_name ++ "': "
                    ++ why) ;;
             ret (map_set out (name o) "[Could not read file]"))%exn
  end.

Fixpoint extractFileOutputs (outputDir : option string)
  (l : list WorkflowOutput) (out : smap string) : R (smap string) :=
  match l with
  | [] => ret out
  | o :: r =>
      (out' <- extractFileOutput outputDir o out ;;
       extractFileOutputs outputDir r out')%exn
  end.

End Files.

(** *** [parseStepOutputs] and [runStep] *)

Record StepParse : Type := {
  parsed : bool;
  parse_failure : option string
}.


Section Step.
Context {host : Host}.

(** The file outputs of the step, when it declares any. *)
Definition file_stage (c : Config) (outputDir : option string)
  (out : smap string) : R (smap string) :=
  match List.filter is_file_output (outputs (step c)) with
  | [] => ret out
  | fileOutputs => extractFileOutputs outputDir fileOutputs out
  end.

(** The string outputs of the step, when it declares any. *)
Definition string_stage (c : Config) (agentResponse : string)
  (out : smap string) : R (smap string) :=
  match List.filter is_string_output (outputs (step c)) with
  | [] => ret out
  | stringOutputs =>
      ACPRunner.extractStringOutputs (id (step c)) stringOutputs
        (List.filter is_file_output (outputs (step c))) out agentResponse
  end.

(** [parseStepOutputs (step, outputs, agentResponse)]: what it returns and
    the map as it leaves it when it succeeds. *)
Definition parseStepOutputs (c : Config) (outputDir : option string)
  (out : smap string) (agentResponse : string) : R (StepParse * smap string) :=
  fun w =>
    match (out1 <- file_stage c outputDir out ;;
           string_stage c agentResponse out1)%exn w with
    | (Returned out', w') =>
        (Returned ({| parsed := true; parse_failure := None |}, out'), w')
    | (Threw why, w') =>
        (Returned ({| parsed := false;
                      parse_failure := Some ("Failed to parse outputs: " ++ why) |},
                   out), w')
    end.


End Step.

(** *** A workflow for the examples *)

(** The step [s1] has run and left its plan; the step [s2] asks for it. *)
Definition after_plan (content : string) : Config :=
  {| step := step_s2; steps := [step_s1; step_s2];
     inputs := [];
     stepsOutput := [("s1", [("f", "plan.md"); ("f_content", content)])];
     tool := "claude"; stepTimeout := 60 |}.

Definition plan_on_disk (content : string) : world :=
  {| disk := [("plan.md", Readable content)]; console := [] |}.

(** The step [s1] has run and did not write its plan. *)
Definition after_no_plan : Config :=
  {| step := step_s2; steps := [step_s1; step_s2];
     inputs := [];
     stepsOutput := [("s1", [("f", "[File not created]")])];
     tool := "claude"; stepTimeout := 60 |}.

Definition empty_disk : world := {| disk := []; console := [] |}.

End Session.

(* ================================================================== *)
(** ** Durations: [getDuration] and the rows of the list command *)
(* ================================================================== *)

Module Listing.
Import Str Json Exn Task.

(** [new Date (v).getTime ()] for a value of a document: the time value in
    milliseconds, or nothing when it is [NaN].  Time values are integers,
    and their differences are taken to be safe integers, for which the
    arithmetic of the code is exact. *)
Class Dates : Type := {
  getTime : json -> option Z
}.

Section Durations.
Context {dates : Dates}.

(** What [getDuration] returns. *)
Inductive duration : Type :=
| Null
| NotANumber
| Milliseconds (ms : Z).

(** [getDuration ()] *)
Definition getDuration (w : world) : duration :=
  if negb (truthy (get (data w) "startedAt")) then Null
  else
    let endTime := or_else (get (data w) "completedAt") (get (data w) "failedAt") in
    if negb (truthy endTime) then Null
    else
      match getTime endTime, getTime (get (data w) "startedAt") with
      | Some e, Some s => Milliseconds (e - s)
      | _, _ => NotANumber
      end.

(** [formatDuration (startTime, endTime)]; [now] is the time value of
    [new Date ()]. *)
Definition formatDuration (now : Z) (startTime endTime : json) : string :=
  if negb (truthy startTime) then "never"
  else
    let start := getTime startTime in
    let end_ := if truthy endTime then getTime endTime else Some now in
    match end_, start with
    | Some e, Some s =>
        let diffMs := (e - s)%Z in
        let seconds := (diffMs / 1000)%Z in
        let minutes := (seconds / 60)%Z in
        let hours := (minutes / 60)%Z in
        if (0 <? hours)%Z then
          Z_to_string hours ++ "h " ++ Z_to_string (Z.rem minutes 60) ++ "m"
        else if (0 <? minutes)%Z then
          Z_to_string minutes ++ "m " ++ Z_to_string (Z.rem seconds 60) ++ "s"
        else Z_to_string seconds ++ "s"
    | _, _ => "NaNs"
    end.

(** *** The rows of the list command *)

Record TaskRow : Type := {
  row_id : string;
  row_title : json;
  row_agent : json;
  row_workflow : json;
  row_status : json;
  row_progress : json;
  row_currentStep : json;
  row_duration : string;
  row_error : json;
  row_groupId : option string
}.

(** What the row reads of the status of the last iteration. *)
Record IterationView : Type := {
  view_progress : json;
  view_currentStep : json
}.

(** [v.toString ()] on a value of a document: [undefined] and [null] have
    no such method. *)
Definition toString (v : json) : option string :=
  match v with
  | JUndef | JNull => None
  | _ => to_string v
  end.

(** The end time [buildTaskRow] settles from the status of the task. *)
Definition endTime (w : world) : json :=
  let taskStatus := get (data w) "status" in
  match taskStatus with
  | JStr s =>
      if String.eqb s "FAILED" || String.eqb s "PAUSED_CREDITS" then
        get (data w) "failedAt"
      else if existsb (String.eqb s) ["COMPLETED"; "MERGED"; "PUSHED"] then
        get (data w) "completedAt"
      else JUndef
  | _ => JUndef
  end.

(** [buildTaskRow (task, groupId)]; [iterationStatus] is the status of the
    last iteration, when the task has one that can be read, and [now] the
    time value of the clock.  The conversions to text can throw a
    [TypeError]. *)
Definition buildTaskRow (now : Z) (iterationStatus : option IterationView)
  (groupId : option string) (w : world) : outcome string TaskRow :=
  let agent := get (data w) "agent" in
  let agentModel := get (data w) "agentModel" in
  let agentDisplay : outcome string json :=
    if truthy agent && truthy agentModel then
      match to_string agent, to_string agentModel with
      | Some a, Some m => Returned (JStr (a ++ ":" ++ m))
      | _, _ => Threw "TypeError"
      end
    else Returned (or_else agent (JStr "-")) in
  match agentDisplay with
  | Threw e => Threw e
  | Returned agentText =>
      match toString (get (data w) "id") with
      | None => Threw "TypeError"
      | Some idText =>
          Returned
            {| row_id := idText;
               row_title := or_else (get (data w) "title") (JStr "Unknown Task");
               row_agent := agentText;
               row_workflow := or_else (get (data w) "workflowName") (JStr "-");
               row_status := get (data w) "status";
               row_progress :=
                 match iterationStatus with
                 | Some it => or_else (view_progress it) (JNum 0)
                 | None => JNum 0
                 end;
               row_currentStep :=
                 match iterationStatus with
                 | Some it => or_else (view_currentStep it) (JStr "-")
                 | None => JStr "-"
                 end;
               row_duration :=
                 match iterationStatus with
                 | Some _ =>
                     formatDuration now (get (data w) "startedAt") (endTime w)
                 | None => "-"
                 end;
               row_error := get (data w) "error";
               row_groupId := groupId |}
      end
  end.

End Durations.

(** *** Notions of the statements *)

(** The statuses that end a task. *)
Definition ended (st : TaskStatus) : bool :=
  match st with
  | COMPLETED | FAILED | PAUSED_CREDITS | MERGED | PUSHED => true
  | NEW | IN_PROGRESS | ITERATING => false
  end.

(** *** Dates for the examples *)

(** Two times of day of one date, read as seconds after midnight. *)
Definition sample_dates : Dates := {|
  getTime := fun v =>
    match v with
    | JStr "2026-01-05T10:00:00.000Z" => Some 36000000%Z
    | JStr "2026-01-05T11:30:00.000Z" => Some 41400000%Z
    | _ => None
    end
|}.

Definition sample_view : IterationView :=
  {| view_progress := JNum 40; view_currentStep := JStr "Plan" |}.

End Listing.

(* ================================================================== *)
(** ** A process that asks for authentication *)
(* ================================================================== *)

Module Authentication.
Import Str Json Exn Runner Samples.

(** *** Notions of the statements *)

(** What the process has written to its standard error once the first
    [n] chunks have arrived. *)
Definition written (chunks : list string) (n : nat) : string :=
  String.concat EmptyString (firstn n chunks).

(** *** A process for the examples *)

(** A host that takes a text for a wait for authentication when it
    contains the words [Waiting for auth]. *)
Definition waiting_host : Host := {|
  isWaitingForAuthentication := fun text => includes text "Waiting for auth";
  parseAgentError := parseAgentError (Host := sample_host);
  newAuthenticationError := newAuthenticationError (Host := sample_host);
  newTimeoutError := newTimeoutError (Host := sample_host);
  recoverFromError := recoverFromError (Host := sample_host);
  extractUsageStats := extractUsageStats (Host := sample_host);
  prototype_member := prototype_member (Host := sample_host);
  path_join := path_join (Host := sample_host);
  path_basename := path_basename (Host := sample_host);
  path_resolve := path_resolve (Host := sample_host);
  copy_refused := copy_refused (Host := sample_host);
  remove_refused := remove_refused (Host := sample_host);
  inline_object := inline_object (Host := sample_host);
  header_value := header_value (Host := sample_host);
  key_value := key_value (Host := sample_host)
|}.

(** A process that asks for authentication in two chunks and still ends
    with exit code 0 and a complete answer. *)
Definition asking_launch (_ : string) : LaunchResult :=
  {| exitCode := Some 0%Z;
     stdout := Some ("{ " ++ q ++ "error" ++ q ++ ": " ++ q ++ "none" ++ q
                       ++ " }");
     stderr := Some "Waiting for authentication";
     timedOut := false; isCanceled := false;
     stderr_chunks := ["Waiting for "; "authentication"] |}.

(** The prompt [prompt] returns; it never throws. *)
Definition prompt_of (x : outcome string string * world) : string :=
  match fst x with
  | Returned text => text
  | Threw _ => EmptyString
  end.

End Authentication.

(* ================================================================== *)
(** ** The status of a document of an earlier version *)
(* ================================================================== *)

Module Migration.
Import Str Json Exn Task.

(** [migrateStatus (oldStatus)] *)
Definition migrateStatus (oldStatus : json) : string :=
  match oldStatus with
  | JStr text =>
      let s := toLowerCase text in
      if String.eqb s "new" then "NEW"
      else if String.eqb s "in_progress" || String.eqb s "running" then
        "IN_PROGRESS"
      else if String.eqb s "iterating" then "ITERATING"
      else if String.eqb s "completed" then "COMPLETED"
      else if String.eqb s "failed" then "FAILED"
      else if String.eqb s "paused_credits" then "PAUSED_CREDITS"
      else if String.eqb s "merged" then "MERGED"
      else if String.eqb s "pushed" then "PUSHED"
      else "NEW"
  | _ => "NEW"
  end.

End Migration.

(* ================================================================== *)
(** ** The two runners on one template *)
(* ================================================================== *)

Module TwoRunners.
Import Str Json Exn Runner.

(** *** Notions of the statements *)

(** A placeholder that does not name a recorded output of a step unless
    the workflow declares that output, of type string. *)
Definition string_reference (c : Config) (placeholder : string) : Prop :=
  forall stepId outputName stepOutputs value,
    split_on "." placeholder = ["steps"; stepId; "outputs"; outputName] ->
    map_get (stepsOutput c) stepId = Some stepOutputs ->
    map_get stepOutputs outputName = Some value ->
    exists stepDef def,
      List.find (fun s => String.eqb (id s) stepId) (steps c) = Some stepDef /\
      List.find (fun o => String.eqb (name o) outputName) (outputs stepDef)
      = Some def /\
      type def = type_string.

(** *** A workflow for the examples *)

(** A step that asks for a string output of the step [s1] and for an
    input. *)
Definition step_ask : WorkflowAgentStep :=
  {| id := "s9"; step_name := "Ask";
     prompt_template :=
       "The task is {{steps.s1.outputs.outcome}}: {{ inputs.task }}";
     outputs := [] |}.

Definition after_outcome : Config :=
  {| step := step_ask; steps := [step_s1; step_ask];
     inputs := [("task", "fix the bug")];
     stepsOutput := [("s1", [("outcome", "simple")])];
     tool := "claude"; stepTimeout := 60 |}.

End TwoRunners.

(* ****************************************************************** *)
(** * Properties *)
(* ****************************************************************** *)

Module StrFacts.
Import Str.

Lemma strip_prefix_app (p s : string) : strip_prefix p (p ++ s) = Some s.
Proof.
  induction p as [|c p IH]; simpl; [reflexivity|].
  now rewrite Ascii.eqb_refl.
Qed.

Lemma strip_prefix_sound (p s r : string) :
  strip_prefix p s = Some r -> s = p ++ r.
Proof.
  revert s; induction p as [|c p IH]; intros s; simpl.
  - now intros [= ->].
  - destruct s as [|d s]; [discriminate|].
    destruct (Ascii.eqb_spec c d) as [->|]; [|discriminate].
    intros H; now rewrite (IH _ H).
Qed.

Lemma split_first_sound (p s a b : string) :
  split_first p s = Some (a, b) -> s = a ++ p ++ b.
Proof.
  revert a b; induction s as [|c s IH]; intros a b; simpl.
  - destruct (strip_prefix p EmptyString) eqn:E; [|discriminate].
    intros [= <- <-]. now apply strip_prefix_sound in E.
  - destruct (strip_prefix p (String c s)) eqn:E.
    + intros [= <- <-]. now apply strip_prefix_sound in E.
    + destruct (split_first p s) as [[a' b']|] eqn:F; [|discriminate].
      intros [= <- <-]. simpl. now rewrite (IH _ _ eq_refl).
Qed.

Lemma append_assoc (a b c : string) : (a ++ b) ++ c = a ++ (b ++ c).
Proof. induction a; simpl; congruence. Qed.

Lemma append_nil_r (a : string) : a ++ EmptyString = a.
Proof. induction a; simpl; congruence. Qed.

End StrFacts.

Module JsonFacts.
Import Str StrFacts Json.

Section Induction.
Variable P : json -> Prop.
Hypothesis Hundef : P JUndef.
Hypothesis Hnull : P JNull.
Hypothesis Hbool : forall b, P (JBool b).
Hypothesis Hnum : forall n, P (JNum n).
Hypothesis Hstr : forall s, P (JStr s).
Hypothesis Harr : forall l, Forall P l -> P (JArr l).
Hypothesis Hobj : forall m, Forall (fun kv => P (snd kv)) m -> P (JObj m).

Fixpoint json_induction (v : json) : P v :=
  match v with
  | JUndef => Hundef
  | JNull => Hnull
  | JBool b => Hbool b
  | JNum n => Hnum n
  | JStr s => Hstr s
  | JArr l =>
      Harr l ((fix go (l : list json) : Forall P l :=
                 match l with
                 | [] => Forall_nil _
                 | x :: r => Forall_cons x (json_induction x) (go r)
                 end) l)
  | JObj m =>
      Hobj m ((fix go (m : list (string * json))
                 : Forall (fun kv => P (snd kv)) m :=
                 match m with
                 | [] => Forall_nil _
                 | kv :: r => Forall_cons kv (json_induction (snd kv)) (go r)
                 end) m)
  end.
End Induction.

(** *** Strings *)

Lemma length_append (a b : string) :
  String.length (a ++ b) = String.length a + String.length b.
Proof. induction a; simpl; congruence. Qed.

Lemma parse_chars_escape_char (c : ascii) (t : string) :
  parse_chars (escape_char c ++ t) =
  match parse_chars t with
  | Some (x, r) => Some (String c x, r)
  | None => None
  end.
Proof.
  destruct c as [[] [] [] [] [] [] [] []]; reflexivity.
Qed.

Lemma parse_chars_escape (s rest : string) :
  parse_chars (escape s ++ String dquote rest) = Some (s, rest).
Proof.
  induction s as [|c s IH]; simpl.
  - reflexivity.
  - now rewrite append_assoc, parse_chars_escape_char, IH.
Qed.

Lemma parse_chars_quote (s rest : string) :
  exists r, quote s ++ rest = String dquote r /\ parse_chars r = Some (s, rest).
Proof.
  unfold quote. simpl. eexists; split; [reflexivity|].
  now rewrite append_assoc; simpl; rewrite parse_chars_escape.
Qed.

(** *** Numbers *)

Lemma all_digits_uint (u : Decimal.uint) :
  all_digits (NilEmpty.string_of_uint u) = true.
Proof. induction u; simpl; auto. Qed.

Lemma all_digits_uint0 (u : Decimal.uint) :
  all_digits (NilZero.string_of_uint u) = true.
Proof. destruct u; try apply all_digits_uint; reflexivity. Qed.

Lemma uint0_head (u : Decimal.uint) :
  exists c r, NilZero.string_of_uint u = String c r /\ is_digit c = true.
Proof. destruct u; simpl; eauto. Qed.

Lemma delim_not_digit (rest : string) :
  delim rest = true ->
  match rest with
  | EmptyString => True
  | String c _ => is_digit c = false /\ number_continues rest = false
  end.
Proof.
  destruct rest as [|c r]; simpl; [trivial|].
  intros H. apply orb_true_iff in H as [H|H];
    apply Ascii.eqb_eq in H; subst; split; reflexivity.
Qed.

Lemma span_digits_app (d rest : string) :
  all_digits d = true -> delim rest = true ->
  span_digits (d ++ rest) = (d, rest).
Proof.
  intros Hd Hr. induction d as [|c d IH]; simpl in *.
  - apply delim_not_digit in Hr. destruct rest as [|c r]; [reflexivity|].
    simpl. now destruct Hr as [-> _].
  - apply andb_true_iff in Hd as [Hc Hd]. now rewrite Hc, IH.
Qed.

Lemma delim_continues (rest : string) :
  delim rest = true -> number_continues rest = false.
Proof.
  intros H. apply delim_not_digit in H. destruct rest; [reflexivity|tauto].
Qed.

Lemma canonical_nat_print (p : positive) :
  canonical_nat (Z_to_string (Zpos p)) = Some (Zpos p).
Proof.
  unfold canonical_nat, Z_to_string.
  change (Z.to_int (Zpos p)) with (Decimal.Pos (Pos.to_uint p)).
  cbn [NilZero.string_of_int]. rewrite all_digits_uint0.
  change (NilZero.string_of_uint (Pos.to_uint p))
    with (NilZero.string_of_int (Decimal.Pos (Pos.to_uint p))).
  rewrite NilZero.isi.
  - change (Decimal.Pos (Pos.to_uint p)) with (Z.to_int (Zpos p)).
    rewrite DecimalZ.of_to. now rewrite String.eqb_refl.
  - intros [= H]. now apply Unsigned.to_uint_nonnil in H.
  - discriminate.
Qed.

Lemma parse_number_print (n : Z) (rest : string) :
  delim rest = true ->
  parse_number (Z_to_string n ++ rest) = Some (n, rest).
Proof.
  intros Hr. destruct n as [|p|p].
  - change (Z_to_string 0) with "0". unfold parse_number. simpl append.
    cbn [Ascii.eqb Bool.eqb]. cbv iota.
    change (String "0" rest) with ("0" ++ rest).
    rewrite span_digits_app by (auto; reflexivity).
    now rewrite delim_continues.
  - pose proof (canonical_nat_print p) as C.
    unfold parse_number.
    assert (D : all_digits (Z_to_string (Zpos p)) = true)
      by apply all_digits_uint0.
    destruct (uint0_head (Pos.to_uint p)) as (c & r & E & Hc).
    change (NilZero.string_of_uint (Pos.to_uint p))
      with (Z_to_string (Zpos p)) in E.
    replace (match Z_to_string (Z.pos p) ++ rest with
             | EmptyString => (false, Z_to_string (Z.pos p) ++ rest)
             | String c0 r0 =>
                 if (c0 =? "-")%char then (true, r0)
                 else (false, Z_to_string (Z.pos p) ++ rest)
             end) with (false, Z_to_string (Z.pos p) ++ rest).
    + rewrite span_digits_app by auto. rewrite delim_continues by auto.
      now rewrite C.
    + rewrite E. simpl. destruct (Ascii.eqb_spec c "-"); [subst; discriminate|].
      reflexivity.
  - pose proof (canonical_nat_print p) as C.
    unfold parse_number.
    change (Z_to_string (Zneg p)) with (String "-" (Z_to_string (Zpos p))).
    cbn [append Ascii.eqb Bool.eqb]. cbv iota.
    rewrite span_digits_app by (auto; apply all_digits_uint0).
    rewrite delim_continues by auto. now rewrite C.
Qed.

(** The first character of a printed integer. *)
Lemma Z_to_string_head (n : Z) :
  exists c r, Z_to_string n = String c r /\
              (is_digit c = true \/ c = "-"%char).
Proof.
  destruct n as [|p|p].
  - exists "0"%char, EmptyString. split; [reflexivity|now left].
  - destruct (uint0_head (Pos.to_uint p)) as (c & r & E & Hc).
    exists c, r. split; [exact E|now left].
  - exists "-"%char, (Z_to_string (Zpos p)). split; [reflexivity|now right].
Qed.

(** *** White space and first characters *)

Lemma skip_ws_indent (n : nat) (s : string) :
  skip_ws (indent n ++ s) = skip_ws s.
Proof. induction n as [|n IH]; simpl; auto. Qed.

Lemma skip_ws_line (n : nat) (s : string) :
  skip_ws (nl ++ indent n ++ s) = skip_ws s.
Proof. simpl. apply skip_ws_indent. Qed.

Lemma skip_ws_head (s : string) : value_head s = true -> skip_ws s = s.
Proof.
  destruct s as [|c r]; simpl; [discriminate|].
  intros H. apply andb_true_iff in H as [H _].
  now destruct (is_ws c).
Qed.

Lemma not_bracket_head (s : string) :
  value_head s = true -> strip_prefix "]" s = None.
Proof.
  destruct s as [|c r]; [discriminate|].
  cbn [value_head]. intros H. apply andb_true_iff in H as [_ H].
  cbn [strip_prefix].
  destruct (Ascii.eqb_spec "]"%char c) as [<-|]; [discriminate H|reflexivity].
Qed.

Lemma number_head_ok (c : ascii) :
  is_digit c = true \/ c = "-"%char ->
  is_ws c = false /\ (c =? "]")%char = false /\ (c =? "n")%char = false /\
  (c =? "t")%char = false /\ (c =? "f")%char = false /\
  (c =? dquote)%char = false /\ (c =? "[")%char = false /\
  (c =? "{")%char = false.
Proof.
  destruct c as [[] [] [] [] [] [] [] []];
    intros [H|H]; try discriminate H; repeat split; reflexivity.
Qed.

Lemma bracket_head (op cl : string) (ind : nat) (l : list string) (rest : string) :
  exists r, bracket op cl ind l ++ rest = op ++ r.
Proof.
  unfold bracket. destruct l.
  - exists (cl ++ rest). apply append_assoc.
  - eexists. rewrite append_assoc. reflexivity.
Qed.

Lemma print_head (v : json) (ind : nat) (rest : string) :
  value_head (print ind v ++ rest) = true.
Proof.
  destruct v as [| |[]|n|s|l|m]; try reflexivity.
  - simpl. destruct (Z_to_string_head n) as (c & r & -> & H).
    apply number_head_ok in H as (H1 & H2 & _). simpl. now rewrite H1, H2.
  - simpl. destruct (bracket_head "[" "]" ind (map (print (S ind)) l) rest)
      as [r ->]. reflexivity.
  - simpl. destruct (bracket_head "{" "}" ind (member_lines (print (S ind)) m) rest)
      as [r ->]. reflexivity.
Qed.

Lemma parse_value_line (fuel n : nat) (s : string) :
  parse_value fuel (nl ++ indent n ++ s) = parse_value fuel s.
Proof.
  destruct fuel; [reflexivity|].
  cbn [parse_value]. now rewrite skip_ws_line.
Qed.

Lemma parse_value_space (fuel : nat) (s : string) :
  parse_value fuel (" " ++ s) = parse_value fuel s.
Proof. destruct fuel; reflexivity. Qed.

Lemma parse_value_number (fuel : nat) (n : Z) (rest : string) :
  delim rest = true ->
  parse_value (S fuel) (Z_to_string n ++ rest) = Some (JNum n, rest).
Proof.
  intros Hr. pose proof (parse_number_print n rest Hr) as E.
  destruct (Z_to_string_head n) as (c & r & Hs & H).
  rewrite Hs in *. apply number_head_ok in H
    as (H1 & H2 & H3 & H4 & H5 & H6 & H7 & H8).
  cbn [parse_value append skip_ws]. rewrite H1, H3, H4, H5, H6, H7, H8.
  cbn [append] in E. now rewrite E.
Qed.

(** *** Objects rebuilt member by member *)

Lemma has_app (a b : obj) (k : string) : has (a ++ b)%list k = has a k || has b k.
Proof.
  unfold has. induction a as [|[k' v'] a IH]; simpl; [reflexivity|].
  destruct (String.eqb k' k); [reflexivity|exact IH].
Qed.

Lemma has_cons (k' : string) (v : json) (a : obj) (k : string) :
  has ((k', v) :: a) k = String.eqb k' k || has a k.
Proof. unfold has. simpl. now destruct (String.eqb k' k). Qed.

Lemma replace_value_absent (m : obj) (k : string) (v : json) :
  has m k = false -> replace_value m k v = m.
Proof.
  induction m as [|[k' v'] m IH]; simpl; [reflexivity|].
  rewrite has_cons. intros H. apply orb_false_iff in H as [-> H].
  now rewrite IH.
Qed.

Lemma insert_index_last (acc : obj) (i : Z) (k : string) (v : json) :
  below i acc -> insert_index acc i k v = (acc ++ [(k, v)])%list.
Proof.
  induction 1 as [|[k' v'] acc (j & Hj & Hlt) _ IH]; simpl; [reflexivity|].
  simpl in Hj. rewrite Hj.
  destruct (Z.ltb_spec j i); [|lia]. now rewrite IH.
Qed.

Lemma ordered_app_inv (acc : obj) (k : string) (v : json) (r : obj) :
  ordered (acc ++ (k, v) :: r)%list = true ->
  has acc k = false /\
  (forall i, array_index k = Some i -> below i acc).
Proof.
  induction acc as [|[k0 v0] acc IH]; simpl.
  - intros _. split; [reflexivity|]. intros i _. constructor.
  - intros H. apply andb_true_iff in H as [H Ho].
    apply andb_true_iff in H as [Hn Hl].
    destruct (IH Ho) as [IH1 IH2]. split.
    + rewrite has_cons, IH1, orb_false_r.
      rewrite has_app, has_cons in Hn.
      apply negb_true_iff, orb_false_iff in Hn as [_ Hn].
      apply orb_false_iff in Hn as [Hn _].
      now rewrite String.eqb_sym.
    + intros i Hi. constructor; [|now apply IH2].
      unfold later_keys_ok in Hl. simpl.
      destruct (array_index k0) as [i0|].
      * rewrite forallb_app in Hl. apply andb_true_iff in Hl as [_ Hl].
        simpl in Hl. rewrite Hi in Hl.
        apply andb_true_iff in Hl as [Hl _].
        exists i0. split; [reflexivity|]. now apply Z.ltb_lt.
      * rewrite forallb_app in Hl. apply andb_true_iff in Hl as [_ Hl].
        simpl in Hl. now rewrite Hi in Hl.
Qed.

Lemma set_last (acc : obj) (k : string) (v : json) (r : obj) :
  ordered (acc ++ (k, v) :: r)%list = true -> set acc k v = (acc ++ [(k, v)])%list.
Proof.
  intros H. apply ordered_app_inv in H as [Hn Hi].
  unfold set. rewrite Hn.
  destruct (array_index k) as [i|]; [|reflexivity].
  now apply insert_index_last, Hi.
Qed.

Lemma fold_set_ordered (m acc : obj) :
  ordered (acc ++ m)%list = true ->
  fold_left (fun a kv => set a (fst kv) (snd kv)) m acc = (acc ++ m)%list.
Proof.
  revert acc. induction m as [|[k v] m IH]; intros acc H; simpl.
  - now rewrite List.app_nil_r.
  - rewrite (set_last acc k v m H).
    rewrite IH; rewrite <- List.app_assoc; [reflexivity|exact H].
Qed.

Lemma obj_of_members_ordered (m : obj) :
  ordered m = true -> obj_of_members m = m.
Proof. intros H. unfold obj_of_members. now rewrite fold_set_ordered. Qed.

Lemma has_strip_members (f : json -> json) (m : obj) (k : string) :
  has m k = false -> has (strip_members f m) k = false.
Proof.
  induction m as [|[k' v] m IH]; simpl; [reflexivity|].
  rewrite has_cons. intros H. apply orb_false_iff in H as [H1 H2].
  destruct v; try (rewrite has_cons, H1; simpl; now apply IH).
  now apply IH.
Qed.

Lemma forallb_strip_members (f : json -> json) (g : string -> bool) (m : obj) :
  forallb (fun kv => g (fst kv)) m = true ->
  forallb (fun kv => g (fst kv)) (strip_members f m) = true.
Proof.
  induction m as [|[k' v] m IH]; simpl; [reflexivity|].
  intros H. apply andb_true_iff in H as [H1 H2].
  destruct v; simpl; try rewrite H1; simpl; now apply IH.
Qed.

Lemma later_keys_strip (f : json -> json) (k : string) (m : obj) :
  later_keys_ok k m = true -> later_keys_ok k (strip_members f m) = true.
Proof.
  unfold later_keys_ok. destruct (array_index k) as [i|].
  - apply (forallb_strip_members f
             (fun k' => match array_index k' with
                        | Some j => (i <? j)%Z
                        | None => true
                        end)).
  - apply (forallb_strip_members f
             (fun k' => match array_index k' with
                        | Some _ => false
                        | None => true
                        end)).
Qed.

Lemma ordered_strip_members (f : json -> json) (m : obj) :
  ordered m = true -> ordered (strip_members f m) = true.
Proof.
  induction m as [|[k v] m IH]; simpl; [reflexivity|].
  intros H. apply andb_true_iff in H as [H Ho].
  apply andb_true_iff in H as [Hn Hl]. apply negb_true_iff in Hn.
  destruct v; simpl; try (now apply IH);
    rewrite (has_strip_members f m k Hn), (later_keys_strip f k m Hl);
    simpl; now apply IH.
Qed.

(** *** Reading back a printed value *)

Lemma join_lines_cons (ind : nat) (x : string) (l : list string) (tail : string) :
  join_lines ind (x :: l) ++ tail =
  nl ++ indent (S ind) ++ x ++
    match l with
    | [] => tail
    | _ => "," ++ join_lines ind l ++ tail
    end.
Proof.
  destruct l; cbn [join_lines]; now rewrite !append_assoc.
Qed.

Lemma delim_line (s : string) : delim (nl ++ s) = true.
Proof. reflexivity. Qed.

Lemma delim_comma (s : string) : delim ("," ++ s) = true.
Proof. reflexivity. Qed.

Lemma parse_elems_print (ind : nat) (l : list json) :
  Forall roundtrips l -> l <> [] ->
  forall fuel rest,
    forallb well_formed l = true -> elems_size size l <= fuel ->
    parse_elems fuel
      (join_lines ind (map (print (S ind)) l) ++ nl ++ indent ind ++ "]" ++ rest)
    = Some (map strip l, rest).
Proof.
  induction 1 as [|x r Hx Hr IH]; [congruence|].
  intros _ fuel rest Hwf Hfuel.
  cbn [forallb] in Hwf. apply andb_true_iff in Hwf as [Hwx Hwr].
  cbn [elems_size] in Hfuel.
  destruct fuel as [|fuel]; [lia|].
  cbn [map]. rewrite join_lines_cons.
  cbn [parse_elems]. rewrite parse_value_line.
  destruct r as [|y r].
  - cbn [map]. rewrite (Hx (S ind) fuel _ Hwx) by (try apply delim_line; lia).
    rewrite skip_ws_line. reflexivity.
  - cbn [map].
    change (print (S ind) y :: map (print (S ind)) r)
      with (map (print (S ind)) (y :: r)).
    rewrite (Hx (S ind) fuel _ Hwx) by (try apply delim_comma; lia).
    change (skip_ws ("," ++ ?s)) with (String ","%char s).
    cbv iota. change ((","%char =? ",")%char) with true. cbv iota.
    rewrite IH by (try discriminate; try assumption; lia).
    reflexivity.
Qed.

Lemma member_lines_nil (pr : json -> string) (f : json -> json) (m : obj) :
  member_lines pr m = [] -> strip_members f m = [].
Proof.
  induction m as [|[k v] m IH]; [reflexivity|].
  destruct v; cbn [member_lines strip_members]; (exact IH || discriminate).
Qed.

Lemma parse_key (k tail : string) :
  exists r, quote k ++ tail = String dquote r /\ parse_chars r = Some (k, tail).
Proof. apply parse_chars_quote. Qed.

Lemma parse_members_print (ind : nat) (m : obj) :
  Forall (fun kv => roundtrips (snd kv)) m ->
  member_lines (print (S ind)) m <> [] ->
  forall fuel rest,
    forallb (fun kv => well_formed (snd kv)) m = true ->
    members_size size m <= fuel ->
    parse_members fuel
      (join_lines ind (member_lines (print (S ind)) m)
         ++ nl ++ indent ind ++ "}" ++ rest)
    = Some (strip_members strip m, rest).
Proof.
  induction 1 as [|[k v] r Hv Hr IH];
    [intros Hne; exfalso; now apply Hne|].
  intros Hne fuel rest Hwf Hfuel.
  cbn [forallb snd] in Hwf. apply andb_true_iff in Hwf as [Hwv Hwr].
  cbn [snd] in Hv.
  assert (Hstep :
    forall fuel',
      size v + members_size size r <= fuel' ->
      parse_members (S fuel')
        (join_lines ind ((quote k ++ ": " ++ print (S ind) v)
                           :: member_lines (print (S ind)) r)
           ++ nl ++ indent ind ++ "}" ++ rest)
      = Some ((k, strip v) :: strip_members strip r, rest)).
  { intros fuel' Hf. rewrite join_lines_cons.
    cbn [parse_members]. rewrite skip_ws_line.
    rewrite !append_assoc.
    destruct (parse_key k (": " ++ print (S ind) v ++
               match member_lines (print (S ind)) r with
               | [] => nl ++ indent ind ++ "}" ++ rest
               | _ :: _ =>
                   "," ++ join_lines ind (member_lines (print (S ind)) r)
                       ++ nl ++ indent ind ++ "}" ++ rest
               end)) as (q & Eq & Ep).
    rewrite Eq.
    change (skip_ws (String dquote q)) with (String dquote q).
    cbn [strip_prefix]. change ((dquote =? dquote)%char) with true. cbv iota.
    rewrite Ep.
    change (skip_ws (": " ++ ?s)) with (String ":"%char (" " ++ s)).
    cbn [strip_prefix]. change ((":"%char =? ":")%char) with true. cbv iota.
    rewrite parse_value_space.
    destruct (member_lines (print (S ind)) r) as [|ln lns] eqn:E.
    - rewrite (Hv (S ind) fuel' _ Hwv) by (try apply delim_line; lia).
      rewrite skip_ws_line.
      change (skip_ws ("}" ++ rest)) with (String "}"%char rest).
      cbv iota. change (("}"%char =? ",")%char) with false.
      change (("}"%char =? "}")%char) with true. cbv iota.
      now rewrite (member_lines_nil _ strip r E).
    - rewrite (Hv (S ind) fuel' _ Hwv) by (try apply delim_comma; lia).
      change (skip_ws ("," ++ ?s)) with (String ","%char s).
      cbv iota. change ((","%char =? ",")%char) with true. cbv iota.
      rewrite IH by (try discriminate; try assumption; lia).
      reflexivity. }
  destruct v; cbn [member_lines strip_members members_size] in *;
    try (destruct fuel as [|fuel]; [lia|]; apply Hstep; lia).
  now apply IH.
Qed.

Lemma elems_nonempty (ind : nat) (x : json) (l : list json) (tail : string) :
  strip_prefix "]"
    (skip_ws (join_lines ind (map (print (S ind)) (x :: l)) ++ tail)) = None.
Proof.
  cbn [map]. rewrite join_lines_cons, skip_ws_line.
  rewrite skip_ws_head by apply print_head.
  apply not_bracket_head, print_head.
Qed.

Lemma members_nonempty (ind : nat) (ln : string) (lns : list string) (tail : string) :
  forall m, member_lines (print (S ind)) m = ln :: lns ->
  strip_prefix "}" (skip_ws (join_lines ind (ln :: lns) ++ tail)) = None.
Proof.
  induction m as [|[k v] m IH]; [discriminate|].
  destruct v; cbn [member_lines]; try exact IH;
    intros [= <- _]; rewrite join_lines_cons, skip_ws_line; reflexivity.
Qed.

(** Every well-formed value is read back from its text, whatever follows
    it on the line. *)
Lemma parse_value_print (v : json) : roundtrips v.
Proof.
  induction v as [| |b|n|s|l IH|m IH] using json_induction;
    intros ind fuel rest Hwf Hfuel Hrest;
    (destruct fuel as [|fuel]; [cbn [size] in Hfuel; lia|]).
  - reflexivity.
  - reflexivity.
  - destruct b; reflexivity.
  - now apply parse_value_number.
  - cbn [print strip]. destruct (parse_chars_quote s rest) as (q & -> & E).
    cbn [parse_value skip_ws]. change (is_ws dquote) with false. cbv iota.
    change ((dquote =? "n")%char) with false.
    change ((dquote =? "t")%char) with false.
    change ((dquote =? "f")%char) with false.
    change ((dquote =? dquote)%char) with true. cbv iota.
    now rewrite E.
  - cbn [print strip size well_formed] in *. destruct l as [|x l].
    + reflexivity.
    + unfold bracket.
      change (map (print (S ind)) (x :: l))
        with (print (S ind) x :: map (print (S ind)) l) at 1.
      cbv iota. rewrite !append_assoc.
      change (parse_value (S fuel) ("[" ++ ?t))
        with (match strip_prefix "]" (skip_ws t) with
              | Some rest0 => Some (JArr [], rest0)
              | None =>
                  match parse_elems fuel t with
                  | Some (l0, rest0) => Some (JArr l0, rest0)
                  | None => None
                  end
              end).
      rewrite elems_nonempty.
      rewrite (parse_elems_print ind (x :: l) IH) by (try discriminate; auto; lia).
      reflexivity.
  - cbn [print strip size well_formed] in *.
    apply andb_true_iff in Hwf as [Hord Hwf].
    destruct (member_lines (print (S ind)) m) as [|ln lns] eqn:E.
    + rewrite (member_lines_nil _ strip m E). reflexivity.
    + unfold bracket. rewrite !append_assoc.
      change (parse_value (S fuel) ("{" ++ ?t))
        with (match strip_prefix "}" (skip_ws t) with
              | Some rest0 => Some (JObj [], rest0)
              | None =>
                  match parse_members fuel t with
                  | Some (m0, rest0) => Some (JObj (obj_of_members m0), rest0)
                  | None => None
                  end
              end).
      rewrite (members_nonempty ind ln lns _ m E).
      rewrite <- E.
      rewrite (parse_members_print ind m IH)
        by (try (rewrite E; discriminate); auto; lia).
      rewrite obj_of_members_ordered by now apply ordered_strip_members.
      reflexivity.
Qed.

(** *** Fuel: the text of a value is at least as long as its size *)

Lemma size_le_print (v : json) :
  forall ind, size v <= String.length (print ind v).
Proof.
  induction v as [| |b|n|s|l IH|m IH] using json_induction; intros ind.
  - simpl; lia.
  - simpl; lia.
  - destruct b; simpl; lia.
  - cbn [size print]. destruct (Z_to_string_head n) as (c & r & -> & _).
    simpl; lia.
  - cbn [size print]. unfold quote. simpl. lia.
  - cbn [size print].
    assert (E : elems_size size l
                <= String.length (join_lines ind (map (print (S ind)) l))).
    { induction IH as [|x l Hx _ IHl]; [simpl; lia|].
      cbn [elems_size map]. specialize (Hx (S ind)).
      destruct l as [|y l].
      - cbn [join_lines elems_size map]. rewrite !length_append. simpl. lia.
      - change (join_lines ind (print (S ind) x :: map (print (S ind)) (y :: l)))
          with (nl ++ indent (S ind) ++ print (S ind) x ++ ","
                  ++ join_lines ind (map (print (S ind)) (y :: l))).
        rewrite !length_append. change (String.length nl) with 1. lia. }
    unfold bracket. destruct (map (print (S ind)) l) eqn:M.
    + destruct l; [simpl; lia|discriminate].
    + rewrite !length_append. simpl String.length at 1. lia.
  - cbn [size print].
    assert (E : members_size size m
                <= String.length
                     (join_lines ind (member_lines (print (S ind)) m))).
    { induction IH as [|[k v] m Hv _ IHm]; [simpl; lia|].
      cbn [snd] in Hv. specialize (Hv (S ind)).
      assert (Hstep :
        S (size v + members_size size m)
        <= String.length
             (join_lines ind ((quote k ++ ": " ++ print (S ind) v)
                                :: member_lines (print (S ind)) m))).
      { destruct (member_lines (print (S ind)) m) as [|ln lns].
        - cbn [join_lines]. rewrite !length_append. simpl in *. lia.
        - change (join_lines ind ((quote k ++ ": " ++ print (S ind) v) :: ln :: lns))
            with (nl ++ indent (S ind) ++ (quote k ++ ": " ++ print (S ind) v)
                    ++ "," ++ join_lines ind (ln :: lns)).
          rewrite !length_append. change (String.length nl) with 1. lia. }
      destruct v; cbn [members_size member_lines]; (exact Hstep || exact IHm). }
    unfold bracket. destruct (member_lines (print (S ind)) m).
    + simpl in *. lia.
    + rewrite !length_append. simpl String.length at 1. lia.
Qed.

(** *** [JSON.parse (JSON.stringify (v, null, 2))] *)

Lemma parse_print (v : json) :
  well_formed v = true -> parse (print 0 v) = Some (strip v).
Proof.
  intros Hwf. unfold parse.
  pose proof (size_le_print v 0) as Hs.
  rewrite <- (append_nil_r (print 0 v)) at 2.
  rewrite (parse_value_print v 0 _ EmptyString Hwf) by (auto; lia).
  reflexivity.
Qed.

Lemma member_lines_strip (pr : json -> string) (m : obj) :
  Forall (fun kv => pr (strip (snd kv)) = pr (snd kv)) m ->
  member_lines pr (strip_members strip m) = member_lines pr m.
Proof.
  induction 1 as [|[k v] m Hv _ IH]; [reflexivity|].
  cbn [snd] in Hv.
  destruct v; cbn [member_lines strip_members strip] in *;
    try exact IH; try now rewrite IH.
  - rewrite IH. now rewrite <- Hv.
  - rewrite IH. now rewrite <- Hv.
Qed.

(** Printing does not see the difference between a value and what is read
    back from its text. *)
Lemma print_strip (v : json) : forall ind, print ind (strip v) = print ind v.
Proof.
  induction v as [| |b|n|s|l IH|m IH] using json_induction; intros ind;
    try reflexivity.
  - cbn [strip print]. f_equal. rewrite map_map.
    induction IH as [|x l Hx _ IHl]; [reflexivity|].
    cbn [map]. now rewrite Hx, IHl.
  - cbn [strip print]. f_equal. apply member_lines_strip.
    induction IH as [|[k v] m Hv _ IHm]; constructor; auto.
Qed.

Lemma strip_defined (v : json) : strip v <> JUndef.
Proof. destruct v; discriminate. Qed.

(** Round trip of the JSON codec: the text of a well-formed value parses,
    and what is read prints to the same text. *)
Lemma stringify_print (v : json) (s : string) :
  stringify v = Some s -> s = print 0 v /\ v <> JUndef.
Proof.
  destruct v; [discriminate|..]; intros [= <-]; (split; [reflexivity|discriminate]).
Qed.

Theorem stringify_parse_stringify (v : json) (s : string) :
  well_formed v = true ->
  stringify v = Some s ->
  parse s = Some (strip v) /\ stringify (strip v) = Some s.
Proof.
  intros Hwf Hs. apply stringify_print in Hs as [-> Hv]. split.
  - now apply parse_print.
  - pose proof (print_strip v 0) as E.
    destruct v; try congruence; try reflexivity;
      cbn [stringify strip] in *; now rewrite E.
Qed.

End JsonFacts.

Module ObjFacts.
Import Str Json JsonFacts.

Lemma lookup_replace_same (m : obj) (k : string) (v : json) :
  has m k = true -> lookup (replace_value m k v) k = Some v.
Proof.
  induction m as [|[k' v'] m IH]; [discriminate|].
  rewrite has_cons. cbn [replace_value lookup].
  destruct (String.eqb k' k) eqn:E; cbn [lookup]; rewrite E; auto.
Qed.

Lemma lookup_replace_other (m : obj) (k k' : string) (v : json) :
  k <> k' -> lookup (replace_value m k v) k' = lookup m k'.
Proof.
  intros N. induction m as [|[k0 v0] m IH]; [reflexivity|].
  cbn [replace_value lookup].
  destruct (String.eqb_spec k0 k) as [->|]; cbn [lookup].
  - destruct (String.eqb_spec k k'); [contradiction|reflexivity].
  - now rewrite IH.
Qed.

Lemma lookup_insert_same (m : obj) (i : Z) (k : string) (v : json) :
  has m k = false -> lookup (insert_index m i k v) k = Some v.
Proof.
  induction m as [|[k' v'] m IH]; cbn [insert_index lookup].
  - now rewrite String.eqb_refl.
  - rewrite has_cons. intros H. apply orb_false_iff in H as [H1 H2].
    destruct (array_index k') as [j|]; [destruct (j <? i)%Z|];
      cbn [lookup]; rewrite ?String.eqb_refl, ?H1; auto.
Qed.

Lemma lookup_insert_other (m : obj) (i : Z) (k k' : string) (v : json) :
  k <> k' -> lookup (insert_index m i k v) k' = lookup m k'.
Proof.
  intros N. apply String.eqb_neq in N.
  induction m as [|[k0 v0] m IH]; cbn [insert_index lookup].
  - now rewrite N.
  - destruct (array_index k0) as [j|]; [destruct (j <? i)%Z|];
      cbn [lookup]; rewrite ?N, ?IH; reflexivity.
Qed.

Lemma lookup_app_same (m : obj) (k : string) (v : json) :
  has m k = false -> lookup (m ++ [(k, v)])%list k = Some v.
Proof.
  induction m as [|[k' v'] m IH]; cbn [app lookup].
  - now rewrite String.eqb_refl.
  - rewrite has_cons. intros H. apply orb_false_iff in H as [-> H2]. auto.
Qed.

Lemma lookup_app_other (m : obj) (k k' : string) (v : json) :
  k <> k' -> lookup (m ++ [(k, v)])%list k' = lookup m k'.
Proof.
  intros N. apply String.eqb_neq in N.
  induction m as [|[k0 v0] m IH]; cbn [app lookup].
  - now rewrite N.
  - now rewrite IH.
Qed.

(** Reading a property after an assignment. *)
Lemma get_set_same (m : obj) (k : string) (v : json) : get (set m k v) k = v.
Proof.
  unfold get, set. destruct (has m k) eqn:H.
  - now rewrite lookup_replace_same.
  - destruct (array_index k).
    + now rewrite lookup_insert_same.
    + now rewrite lookup_app_same.
Qed.

Lemma get_set_other (m : obj) (k k' : string) (v : json) :
  k <> k' -> get (set m k v) k' = get m k'.
Proof.
  intros N. unfold get, set. destruct (has m k).
  - now rewrite lookup_replace_other.
  - destruct (array_index k).
    + now rewrite lookup_insert_other.
    + now rewrite lookup_app_other.
Qed.

End ObjFacts.

Module TaskFacts.
Import Str Json Exn Task JsonFacts ObjFacts.

Ltac prop_neq := let H := fresh in intro H; discriminate H.

(** Reads of properties after a chain of assignments. *)
Ltac get_set :=
  repeat (rewrite get_set_same
          || rewrite get_set_other by prop_neq).

#[local] Arguments set : simpl never.
#[local] Arguments get : simpl never.
#[local] Arguments save : simpl never.
#[local] Arguments truthy : simpl never.
#[local] Arguments str_or : simpl never.

Section Manager.
Context {env : Env}.

Lemma save_data (w : world) : data (snd (save w)) = data w.
Proof.
  unfold save, try_catch, bind, validate, throw.
  destruct (TaskDescriptionSchema (JObj (data w))); reflexivity.
Qed.

Lemma save_valid (w : world) :
  TaskDescriptionSchema (JObj (data w)) = true ->
  save w =
  (Returned tt,
   with_disk (fun fs => write_file fs (filePath w) (print 0 (JObj (data w)))) w).
Proof.
  intros H. unfold save, try_catch, bind, validate. now rewrite H.
Qed.

Lemma save_invalid (w : world) :
  TaskDescriptionSchema (JObj (data w)) = false ->
  save w = (Threw TaskFileError, w).
Proof.
  intros H. unfold save, try_catch, bind, validate, throw. now rewrite H.
Qed.

Lemma setStatus_unfold (now : string) (st : TaskStatus)
  (md : option StatusMetadata) (w : world) :
  setStatus now st md w = save (with_data (setStatus_data now st md) w).
Proof.
  unfold setStatus, setStatus_data, bind, assign, read, modify, gets, when, ret.
  destruct w as [d id base fs]. unfold with_data.
  destruct st; simpl;
    repeat match goal with
           | |- context [truthy ?x] => destruct (truthy x)
           end; reflexivity.
Qed.

Lemma setStatus_in_memory (now : string) (st : TaskStatus)
  (md : option StatusMetadata) (w : world) :
  data (snd (setStatus now st md w)) = setStatus_data now st md (data w).
Proof. rewrite setStatus_unfold, save_data. reflexivity. Qed.

Lemma status_after_setStatus (now : string) (st : TaskStatus)
  (md : option StatusMetadata) (w : world) :
  get (data (snd (setStatus now st md w))) "status" = JStr (status_name st).
Proof.
  rewrite setStatus_in_memory. unfold setStatus_data.
  destruct st; cbv zeta;
    repeat match goal with
           | |- context [if ?b then _ else _] => destruct b
           end; get_set; reflexivity.
Qed.

(** C8.  [setStatus ('MERGED')] and [setStatus ('PUSHED')] leave a completion
    time stamp that is already set as it is, and assign the time stamp of the
    call when none is set. *)
Theorem setStatus_merged_pushed_completedAt (now : string) (st : TaskStatus)
  (md : option StatusMetadata) (w : world) :
  st = MERGED \/ st = PUSHED ->
  let before := get (data w) "completedAt" in
  let after := get (data (snd (setStatus now st md w))) "completedAt" in
  (truthy before = true -> after = before) /\
  (truthy before = false ->
   after = JStr (str_or (match md with
                         | Some m => timestamp m
                         | None => None
                         end) now)).
Proof.
  intros Hst before after. subst before after.
  rewrite setStatus_in_memory. unfold setStatus_data.
  destruct Hst as [-> | ->]; cbv zeta; get_set;
    (split; intros H; rewrite H; get_set; reflexivity).
Qed.

Lemma error_after_setStatus (now : string) (st : TaskStatus)
  (ts : option string) (e : string) (w : world) :
  st = FAILED \/ st = PAUSED_CREDITS ->
  e <> EmptyString ->
  get (data (snd (setStatus now st
                    (Some {| timestamp := ts; error_message := Some e |}) w)))
    "error" = JStr e.
Proof.
  intros Hst He. rewrite setStatus_in_memory. unfold setStatus_data.
  assert (T : truthy (JStr e) = true).
  { unfold truthy. apply String.eqb_neq in He. now rewrite He. }
  destruct Hst as [-> | ->]; cbv zeta; cbn [error_message of_option];
    rewrite T; get_set; reflexivity.
Qed.

Lemma derive_table (it : IterationStatus) :
  (it_status it = "completed" ->
   derive it = (COMPLETED, it_completedAt it, None)) /\
  (it_status it = "failed" ->
   derive it = (FAILED, it_completedAt it, it_error it)) /\
  (it_status it = "credit_exhausted" ->
   derive it = (PAUSED_CREDITS, it_completedAt it, it_error it)) /\
  (it_status it = "running" ->
   derive it = (ITERATING, it_updatedAt it, None)) /\
  (it_status it <> "completed" -> it_status it <> "failed" ->
   it_status it <> "credit_exhausted" -> it_status it <> "running" ->
   derive it = (IN_PROGRESS, it_updatedAt it, None)).
Proof.
  unfold derive. repeat split.
  - now intros ->.
  - now intros ->.
  - now intros ->.
  - now intros ->.
  - intros H1 H2 H3 H4.
    apply String.eqb_neq in H1, H2, H3, H4. now rewrite H1, H2, H3, H4.
Qed.

Lemma update_not_sticky (now : string) (it : IterationStatus) (w : world)
  (st : TaskStatus) (ts err : option string) :
  derive it = (st, ts, err) ->
  status_eqb st COMPLETED && (isMerged w || isPushed w) = false ->
  updateStatusFromIteration now (Some it) w =
  setStatus now st (Some {| timestamp := ts; error_message := err |}) w.
Proof.
  intros D H. unfold updateStatusFromIteration. now rewrite D, H.
Qed.

(** C1.  [updateStatusFromIteration] sets the task status from the status of
    the latest iteration by the table completed, failed, credit_exhausted,
    running, anything else; failed and credit_exhausted carry the error of
    the iteration; a task that is MERGED or PUSHED is left as it is when the
    iteration is completed. *)
Theorem updateStatusFromIteration_table (now : string) (it : IterationStatus)
  (w : world) :
  let w' := snd (updateStatusFromIteration now (Some it) w) in
  let status := get (data w') "status" in
  let sticky := isMerged w || isPushed w in
  (it_status it = "completed" ->
   if sticky then w' = w else status = JStr "COMPLETED") /\
  (it_status it = "failed" ->
   status = JStr "FAILED" /\
   forall e, it_error it = Some e -> e <> EmptyString ->
             get (data w') "error" = JStr e) /\
  (it_status it = "credit_exhausted" ->
   status = JStr "PAUSED_CREDITS" /\
   forall e, it_error it = Some e -> e <> EmptyString ->
             get (data w') "error" = JStr e) /\
  (it_status it = "running" -> status = JStr "ITERATING") /\
  (it_status it <> "completed" -> it_status it <> "failed" ->
   it_status it <> "credit_exhausted" -> it_status it <> "running" ->
   status = JStr "IN_PROGRESS").
Proof.
  intros w' status sticky. subst w' status sticky.
  destruct (derive_table it) as (T1 & T2 & T3 & T4 & T5).
  repeat split.
  - intros H. unfold updateStatusFromIteration. rewrite (T1 H).
    change (status_eqb COMPLETED COMPLETED) with true. cbn [andb].
    destruct (isMerged w || isPushed w); [reflexivity|].
    apply status_after_setStatus.
  - rewrite (update_not_sticky now it w _ _ _ (T2 H)) by reflexivity.
    apply status_after_setStatus.
  - intros e He Hne.
    rewrite (update_not_sticky now it w _ _ _ (T2 H)) by reflexivity.
    rewrite He. apply error_after_setStatus; auto.
  - rewrite (update_not_sticky now it w _ _ _ (T3 H)) by reflexivity.
    apply status_after_setStatus.
  - intros e He Hne.
    rewrite (update_not_sticky now it w _ _ _ (T3 H)) by reflexivity.
    rewrite He. apply error_after_setStatus; auto.
  - intros H.
    rewrite (update_not_sticky now it w _ _ _ (T4 H)) by reflexivity.
    apply status_after_setStatus.
  - intros H1 H2 H3 H4.
    rewrite (update_not_sticky now it w _ _ _ (T5 H1 H2 H3 H4)) by reflexivity.
    apply status_after_setStatus.
Qed.

(** C10.  The stickiness of MERGED and PUSHED covers a derived COMPLETED
    only: when the latest iteration reports failed or credit_exhausted, a
    MERGED or PUSHED task becomes FAILED or PAUSED_CREDITS. *)
Theorem updateStatusFromIteration_overwrites_terminal (now : string)
  (it : IterationStatus) (w : world) :
  isMerged w || isPushed w = true ->
  let status :=
    get (data (snd (updateStatusFromIteration now (Some it) w))) "status" in
  (it_status it = "failed" -> status = JStr "FAILED") /\
  (it_status it = "credit_exhausted" -> status = JStr "PAUSED_CREDITS").
Proof.
  intros _ status. subst status.
  destruct (derive_table it) as (_ & T2 & T3 & _).
  split; intros H.
  - rewrite (update_not_sticky now it w _ _ _ (T2 H)) by reflexivity.
    apply status_after_setStatus.
  - rewrite (update_not_sticky now it w _ _ _ (T3 H)) by reflexivity.
    apply status_after_setStatus.
Qed.

(** The document [restart] leaves in memory. *)
Lemma restart_in_memory (now : string) (t : option string) (w : world) :
  data (snd (restart now t w)) =
  setStatus_data now IN_PROGRESS (only_timestamp (Some (str_or t now)))
    (set (set (data w) "restartCount"
            (JNum (plus_one (count_or_zero (get (data w) "restartCount")))))
       "lastRestartAt" (JStr (str_or t now))).
Proof.
  unfold restart, bind, read, gets, assign, modify.
  cbn beta iota. rewrite setStatus_in_memory. reflexivity.
Qed.

(** Adding one is exact on a safe integer. *)
Lemma plus_one_safe (n : Z) :
  (Z.abs n <= MAX_SAFE_INTEGER)%Z -> plus_one n = (n + 1)%Z.
Proof.
  unfold plus_one, nearest_number, MAX_SAFE_INTEGER. intros H. cbv zeta.
  destruct (Z.leb_spec (Z.abs (n + 1)) (2 ^ 53)) as [_|L]; [reflexivity|].
  exfalso. change (2 ^ 53)%Z with 9007199254740992%Z in L. lia.
Qed.

Lemma restartCount_after_restart (now : string) (t : option string)
  (w : world) :
  get (data (snd (restart now t w))) "restartCount"
  = JNum (plus_one (count_or_zero (get (data w) "restartCount"))).
Proof.
  rewrite restart_in_memory. unfold setStatus_data. cbv zeta.
  destruct (truthy _); get_set; reflexivity.
Qed.

Lemma status_is_spec (name : string) (w : world) :
  status_is name w = true <-> get (data w) "status" = JStr name.
Proof.
  unfold status_is. destruct (get (data w) "status"); try (split; discriminate).
  split.
  - intros H. apply String.eqb_eq in H. now subst.
  - intros [= ->]. apply String.eqb_refl.
Qed.

(** C7, as the code has it.  [restart] on a FAILED task sets the status to
    IN_PROGRESS and sets [lastRestartAt]; it adds exactly one to
    [restartCount], a missing counter counting as zero, as long as the
    counter is a safe integer, and leaves a counter of 2^53 as it is, since
    the sum is taken in the numbers of JavaScript.  [restartCommand] on a
    task that is IN_PROGRESS is rejected and changes nothing. *)
Theorem restart_semantics (now : string) (t : option string)
  (cmd : RestartEnv) (w : world) :
  (isFailed w = true ->
   let old := count_or_zero (get (data w) "restartCount") in
   let w' := snd (restart now t w) in
   get (data w') "status" = JStr "IN_PROGRESS" /\
   ((Z.abs old <= MAX_SAFE_INTEGER)%Z ->
    get (data w') "restartCount" = JNum (old + 1)) /\
   (old = (MAX_SAFE_INTEGER + 1)%Z ->
    get (data w') "restartCount" = JNum old) /\
   get (data w') "lastRestartAt" = JStr (str_or t now)) /\
  (isInProgress w = true -> restartCommand cmd w = (Rejected, w)).
Proof.
  split.
  - intros _ old w'. subst w'. split; [|split; [|split]].
    + rewrite restart_in_memory. unfold setStatus_data.
      cbv zeta. destruct (truthy _); get_set; reflexivity.
    + intros Hs. rewrite restartCount_after_restart. fold old.
      now rewrite plus_one_safe.
    + intros Hl. rewrite restartCount_after_restart. fold old.
      rewrite Hl. reflexivity.
    + rewrite restart_in_memory. unfold setStatus_data.
      cbv zeta. destruct (truthy _); get_set; reflexivity.
  - intros H. unfold restartCommand.
    apply status_is_spec in H.
    unfold isNew, isFailed, isPausedCredits, status_is. rewrite H.
    reflexivity.
Qed.

(** *** Validation of a document read back from its text *)

Lemma get_strip_members (m : obj) (k : string) :
  ordered m = true -> get (strip_members strip m) k = reread (get m k).
Proof.
  unfold get. induction m as [|[k0 v0] m IH]; [reflexivity|].
  cbn [ordered]. intros H. apply andb_true_iff in H as [H Ho].
  apply andb_true_iff in H as [Hn _]. apply negb_true_iff in Hn.
  specialize (IH Ho). cbn [lookup].
  destruct (String.eqb_spec k0 k) as [->|N].
  - destruct v0; cbn [strip_members lookup]; rewrite ?String.eqb_refl;
      try reflexivity.
    pose proof (has_strip_members strip m k Hn) as Hs. unfold has in Hs.
    destruct (lookup (strip_members strip m) k); [discriminate|reflexivity].
  - apply String.eqb_neq in N.
    destruct v0; cbn [strip_members lookup]; rewrite ?N; exact IH.
Qed.

Lemma well_formed_get (m : obj) (k : string) :
  well_formed (JObj m) = true -> well_formed (get m k) = true.
Proof.
  cbn [well_formed]. intros H. apply andb_true_iff in H as [_ H].
  unfold get. induction m as [|[k0 v0] m IH]; [reflexivity|].
  cbn [forallb snd] in H. apply andb_true_iff in H as [H1 H2].
  cbn [lookup]. destruct (String.eqb k0 k); auto.
Qed.

Lemma stable_optional (chk : json -> bool) :
  stable chk -> stable (optional chk).
Proof.
  intros S v Hw H. destruct v; try reflexivity;
    cbn [optional] in H; specialize (S _ Hw H); exact S.
Qed.

Lemma stable_primitive (chk : json -> bool) :
  (forall l, chk (JArr l) = false) -> (forall m, chk (JObj m) = false) ->
  chk JUndef = false -> stable chk.
Proof.
  intros Ha Ho Hu v _ H. destruct v; try exact H; congruence.
Qed.

Lemma stable_record_string : stable (z_record z_string).
Proof.
  intros v _ H. destruct v; try discriminate H. cbn [reread strip z_record] in *.
  induction m as [|[k v] m IH]; [reflexivity|].
  cbn [forallb snd] in H. apply andb_true_iff in H as [H1 H2].
  destruct v; try discriminate H1. cbn [strip_members forallb snd strip z_string].
  now apply IH.
Qed.

Lemma stable_record_unknown : stable (z_record z_unknown).
Proof.
  intros v _ H. destruct v; try discriminate H. cbn [reread strip z_record].
  apply forallb_forall. reflexivity.
Qed.

Lemma stable_z_string : stable z_string.
Proof. now apply stable_primitive. Qed.

Lemma stable_z_string_min1 : stable z_string_min1.
Proof. now apply stable_primitive. Qed.

Lemma stable_z_datetime : stable z_datetime.
Proof. now apply stable_primitive. Qed.

Lemma stable_z_uuid : stable z_uuid.
Proof. now apply stable_primitive. Qed.

Lemma stable_z_url : stable z_url.
Proof. now apply stable_primitive. Qed.

Lemma stable_z_int : stable z_int.
Proof. now apply stable_primitive. Qed.

Lemma stable_z_int_positive : stable z_int_positive.
Proof. now apply stable_primitive. Qed.

Lemma stable_z_int_min (lo : Z) : stable (z_int_min lo).
Proof. now apply stable_primitive. Qed.

Lemma stable_z_enum (names : list string) : stable (z_enum names).
Proof. now apply stable_primitive. Qed.

Create HintDb stable discriminated.
#[local] Hint Resolve stable_optional stable_record_string
  stable_record_unknown stable_z_string stable_z_string_min1
  stable_z_datetime stable_z_uuid stable_z_url stable_z_int
  stable_z_int_positive stable_z_int_min stable_z_enum : stable.

(** One conjunct of a schema, on the document read back. *)
Ltac reread_check :=
  rewrite get_strip_members by assumption;
  match goal with
  | |- ?chk (reread (get ?m ?k)) = true =>
      let S := fresh "S" in
      assert (S : stable chk) by (unfold TaskStatusSchema, SourceTypeSchema;
                                  auto with stable);
      apply S; [now apply well_formed_get|assumption]
  end.

Ltac split_checks H :=
  repeat (let C := fresh "C" in apply andb_true_iff in H as [H C]).

Lemma stable_source : stable TaskSourceSchema.
Proof.
  intros v Hw H. destruct v; try discriminate H.
  cbn [reread strip]. unfold TaskSourceSchema in *.
  assert (Ho : ordered m = true)
    by (cbn [well_formed] in Hw; now apply andb_true_iff in Hw as [Ho _]).
  split_checks H.
  repeat (apply andb_true_iff; split); reread_check.
Qed.

#[local] Hint Resolve stable_source : stable.

Lemma schema_reread (m : obj) :
  (forall v, well_formed v = true -> network_config_ok v = true ->
             network_config_ok (strip v) = true) ->
  well_formed (JObj m) = true ->
  TaskDescriptionSchema (JObj m) = true ->
  TaskDescriptionSchema (JObj (strip_members strip m)) = true.
Proof.
  intros Hn Hw H.
  assert (Sn : stable network_config_ok).
  { intros v Hv Hc. destruct v; try exact Hc; now apply Hn. }
  assert (Ho : ordered m = true)
    by (cbn [well_formed] in Hw; now apply andb_true_iff in Hw as [Ho _]).
  unfold TaskDescriptionSchema in *.
  split_checks H.
  repeat (apply andb_true_iff; split); reread_check.
Qed.

Lemma read_write_file (fs : files) (path content : string) :
  read_file (write_file fs path content) path = Some content.
Proof.
  induction fs as [|[p c] fs IH]; cbn [write_file read_file].
  - now rewrite String.eqb_refl.
  - destruct (String.eqb p path) eqn:E; cbn [read_file]; now rewrite E.
Qed.

Lemma save_returned (w w1 : world) :
  save w = (Returned tt, w1) ->
  TaskDescriptionSchema (JObj (data w)) = true /\
  w1 = with_disk (fun fs => write_file fs (filePath w) (print 0 (JObj (data w)))) w.
Proof.
  destruct (TaskDescriptionSchema (JObj (data w))) eqn:V.
  - rewrite (save_valid w V). intros [= <-]. auto.
  - rewrite (save_invalid w V). discriminate.
Qed.

(** C9.  Writing a task whose document is at the current schema version,
    loading it from what was written and serializing what was loaded gives
    the text that was written, byte for byte; loading writes nothing. *)
Theorem save_load_stringify (w w1 : world) :
  (forall v, well_formed v = true -> network_config_ok v = true ->
             network_config_ok (strip v) = true) ->
  well_formed (JObj (data w)) = true ->
  get (data w) "version" = JStr CURRENT_TASK_DESCRIPTION_SCHEMA_VERSION ->
  save w = (Returned tt, w1) ->
  exists text w2,
    read_file (disk w1) (filePath w) = Some text /\
    load (basePath w) (taskId w) (disk w1) = Returned w2 /\
    disk w2 = disk w1 /\
    stringify (JObj (data w2)) = Some text.
Proof.
  intros Hn Hw Hv Hs. apply save_returned in Hs as [Hvalid ->].
  set (text := print 0 (JObj (data w))).
  set (d' := strip_members strip (data w)).
  assert (Hord : ordered (data w) = true)
    by (cbn [well_formed] in Hw; now apply andb_true_iff in Hw as [Ho _]).
  assert (Hread : read_file (write_file (disk w) (filePath w) text) (filePath w)
                  = Some text) by apply read_write_file.
  assert (Hparse : parse text = Some (JObj d')) by now apply parse_print.
  assert (Hver : get d' "version" = JStr CURRENT_TASK_DESCRIPTION_SCHEMA_VERSION).
  { unfold d'. rewrite get_strip_members by assumption. now rewrite Hv. }
  assert (Hvalid' : TaskDescriptionSchema (JObj d') = true)
    by now apply schema_reread.
  exists text,
    {| data := d'; taskId := taskId w; basePath := basePath w;
       disk := write_file (disk w) (filePath w) text |}.
  split; [exact Hread|]. split; [|split; [reflexivity|]].
  - unfold load. cbn [disk with_disk].
    change (join_path (basePath w) "description.json") with (filePath w).
    rewrite Hread, Hparse. unfold migrate. cbn [field]. rewrite Hver.
    rewrite String.eqb_refl. rewrite Hvalid'. cbn [field]. rewrite Hver.
    cbn [differs]. now rewrite String.eqb_refl.
  - cbn [data stringify]. f_equal. apply (print_strip (JObj (data w))).
Qed.

End Manager.

(** *** The properties on the task of the tests *)

Lemma updateStatusFromIteration_table_witness :
  get (data (after (updateStatusFromIteration (env := sample_env) later_time
                      (Some credit_exhausted_iteration)) sample_task)) "status"
  = JStr "PAUSED_CREDITS" /\
  get (data (after (updateStatusFromIteration (env := sample_env) later_time
                      (Some credit_exhausted_iteration)) sample_task)) "error"
  = JStr "Quota exceeded".
Proof.
  destruct (updateStatusFromIteration_table (env := sample_env) later_time
              credit_exhausted_iteration sample_task)
    as (_ & _ & H & _).
  destruct (H eq_refl) as [H1 H2]. split.
  - exact H1.
  - apply (H2 "Quota exceeded" eq_refl). discriminate.
Defined.

Lemma setStatus_merged_pushed_completedAt_witness :
  get (data (after (setStatus (env := sample_env) later_time PUSHED None)
               merged_task)) "completedAt"
  = JStr sample_time.
Proof.
  destruct (setStatus_merged_pushed_completedAt (env := sample_env)
              later_time PUSHED None merged_task (or_intror eq_refl))
    as [H _].
  exact (H eq_refl).
Defined.

Lemma updateStatusFromIteration_overwrites_terminal_witness :
  isMerged merged_task = true /\
  get (data (after (updateStatusFromIteration (env := sample_env) later_time
                      (Some failed_iteration)) merged_task)) "status"
  = JStr "FAILED".
Proof.
  split; [reflexivity|].
  destruct (updateStatusFromIteration_overwrites_terminal (env := sample_env)
              later_time failed_iteration merged_task eq_refl) as [H _].
  exact (H eq_refl).
Defined.

Lemma restart_semantics_witness :
  isFailed failed_task = true /\
  get (data (after (restart (env := sample_env) later_time (Some later_time))
               failed_task)) "status" = JStr "IN_PROGRESS" /\
  get (data (after (restart (env := sample_env) later_time (Some later_time))
               failed_task)) "restartCount" = JNum 1 /\
  get (data (after (restart (env := sample_env) later_time (Some later_time))
               failed_task)) "lastRestartAt" = JStr later_time.
Proof.
  split; [reflexivity|].
  destruct (restart_semantics (env := sample_env) later_time (Some later_time)
              sample_restart failed_task) as [H _].
  destruct (H eq_refl) as (S & C & _ & L).
  split; [exact S|]. split; [|exact L].
  apply C. vm_compute. discriminate.
Defined.

(** C7 as it is stated fails: a failed task whose counter is 2^53 is
    restarted and the counter is what it was, not one more. *)
Lemma restart_at_the_limit :
  ~ (forall (now : string) (t : option string) (w : world),
       isFailed w = true ->
       get (data (snd (restart (env := sample_env) now t w))) "restartCount"
       = JNum (count_or_zero (get (data w) "restartCount") + 1)).
Proof.
  intros H.
  specialize (H later_time None worn_task eq_refl).
  vm_compute in H. discriminate H.
Qed.

Lemma save_load_stringify_witness :
  exists text w2,
    read_file (disk (after (save (env := sample_env)) failed_task))
      (filePath failed_task) = Some text /\
    load (env := sample_env) (basePath failed_task) (taskId failed_task)
      (disk (after (save (env := sample_env)) failed_task)) = Returned w2 /\
    disk w2 = disk (after (save (env := sample_env)) failed_task) /\
    stringify (JObj (data w2)) = Some text.
Proof.
  apply (save_load_stringify (env := sample_env) failed_task).
  - intros v _ H. destruct v; try discriminate H. reflexivity.
  - reflexivity.
  - reflexivity.
  - reflexivity.
Defined.

End TaskFacts.

Module CreditFacts.
Import Str StrFacts Json Credit.

Lemma eat_lit_sound (p s r : string) :
  eat_lit p s = Some r -> exists m, same_letters m p /\ s = m ++ r.
Proof.
  revert s. induction p as [|c p IH]; intros s; cbn [eat_lit].
  - intros [= ->]. now exists EmptyString.
  - destruct s as [|d s]; [discriminate|].
    destruct (Ascii.eqb_spec (lower_char c) (lower_char d)) as [E|]; [|discriminate].
    intros H. destruct (IH _ H) as (m & Hm & ->).
    exists (String d m). split; [|reflexivity].
    unfold same_letters in *. cbn [map_chars]. now rewrite Hm, E.
Qed.

Lemma eat_lit_complete (p m r : string) :
  same_letters m p -> eat_lit p (m ++ r) = Some r.
Proof.
  unfold same_letters. revert m. induction p as [|c p IH]; intros m H.
  - destruct m; [reflexivity|discriminate].
  - destruct m as [|d m]; [discriminate|].
    cbn [map_chars] in H. injection H as Hc Hm.
    cbn [append eat_lit]. rewrite Hc, Ascii.eqb_refl. now apply IH.
Qed.

Lemma eat_class_sound (members : list string) (s r : string) :
  eat_class members s = Some r -> exists x, In x members /\ s = x ++ r.
Proof.
  induction members as [|x l IH]; cbn [eat_class]; [discriminate|].
  destruct (strip_prefix x s) eqn:E.
  - intros [= <-]. exists x. split; [now left|]. now apply strip_prefix_sound.
  - intros H. destruct (IH H) as (y & Hy & ->). exists y. split; [now right|auto].
Qed.

Lemma eat_separator (x r : string) :
  In x separators -> eat_class separators (x ++ r) = Some r.
Proof.
  intros H. unfold separators, white_space_texts in H.
  cbn [List.map white_space In] in H.
  repeat (destruct H as [<-|H]; [reflexivity|]).
  contradiction.
Qed.

Lemma match_here_sound (b : branch) (s r : string) :
  match_here b s = Some r -> exists m, denotes b m /\ s = m ++ r.
Proof.
  revert s. induction b as [|a b IH]; intros s; cbn [match_here].
  - intros [= ->]. exists EmptyString. split; [constructor|reflexivity].
  - destruct (eat a s) as [rest|] eqn:E; [|discriminate].
    intros H. destruct (IH _ H) as (m & Hm & ->).
    destruct a as [p|]; cbn [eat] in E.
    + apply eat_lit_sound in E as (m0 & H0 & ->).
      exists (m0 ++ m). split; [now apply denotes_lit|symmetry; apply append_assoc].
    + apply eat_class_sound in E as (x & Hx & ->).
      exists (x ++ m). split; [now apply denotes_sep|symmetry; apply append_assoc].
Qed.

Lemma match_here_complete (b : branch) (m r : string) :
  denotes b m -> match_here b (m ++ r) = Some r.
Proof.
  induction 1 as [|p m b rest Hm _ IH|x b rest Hx _ IH]; cbn [match_here eat].
  - reflexivity.
  - now rewrite append_assoc, (eat_lit_complete p m _ Hm).
  - now rewrite append_assoc, (eat_separator x _ Hx).
Qed.

Lemma match_any_spec (bs : list branch) (s : string) :
  match_any bs s = true <->
  exists b m after, In b bs /\ denotes b m /\ s = m ++ after.
Proof.
  unfold match_any. rewrite existsb_exists. split.
  - intros (b & Hb & H). destruct (match_here b s) as [r|] eqn:E; [|discriminate].
    apply match_here_sound in E as (m & Hm & ->). now exists b, m, r.
  - intros (b & m & r & Hb & Hm & ->). exists b. split; [exact Hb|].
    now rewrite (match_here_complete b m r Hm).
Qed.

(** The search is the pattern: [test] answers [true] exactly when a branch
    denotes a piece of the text. *)
Lemma test_spec (bs : list branch) (text : string) :
  test bs text = true <-> found bs text.
Proof.
  unfold found. induction text as [|c text IH]; cbn [test].
  - rewrite orb_false_r, match_any_spec. split.
    + intros (b & m & r & H). now exists b, EmptyString, m, r.
    + intros (b & pre & m & r & Hb & Hm & E).
      destruct pre; [|discriminate]. now exists b, m, r.
  - rewrite orb_true_iff, match_any_spec, IH. split.
    + intros [(b & m & r & H)|(b & pre & m & r & Hb & Hm & ->)].
      * now exists b, EmptyString, m, r.
      * now exists b, (String c pre), m, r.
    + intros (b & pre & m & r & Hb & Hm & E). destruct pre as [|c' pre].
      * left. now exists b, m, r.
      * right. injection E as _ ->. now exists b, pre, m, r.
Qed.

(** The pattern is the list of the phrases. *)
Lemma pattern_is_phrases :
  CREDIT_EXHAUSTED_PATTERN = List.map pattern_of phrase_words.
Proof. reflexivity. Qed.

Lemma denotes_lit_inv (p : string) (b : branch) (text : string) :
  denotes (Lit p :: b) text ->
  exists m rest, same_letters m p /\ denotes b rest /\ text = m ++ rest.
Proof. intros H. inversion H; subst. eauto. Qed.

Lemma denotes_sep_inv (b : branch) (text : string) :
  denotes (Sep :: b) text ->
  exists x rest, In x separators /\ denotes b rest /\ text = x ++ rest.
Proof. intros H. inversion H; subst. eauto. Qed.

Lemma denotes_nil_inv (text : string) : denotes [] text -> text = EmptyString.
Proof. intros H. now inversion H. Qed.

(** The branch of a phrase denotes the texts that spell it. *)
Lemma denotes_spells (words : list string) :
  words <> [] ->
  forall text, denotes (pattern_of words) text <-> spells words text.
Proof.
  induction words as [|word rest IH]; [contradiction|]. intros _ text.
  destruct rest as [|next rest].
  - cbn [pattern_of]. split.
    + intros H. apply denotes_lit_inv in H as (m & r & Hm & Hr & ->).
      apply denotes_nil_inv in Hr as ->. rewrite append_nil_r.
      now constructor.
    + intros H. inversion H as [w m Hm|w m x r t Hm Hx Ht]; subst.
      * rewrite <- (append_nil_r text). apply denotes_lit; [exact Hm|].
        constructor.
      * inversion Ht.
  - change (pattern_of (word :: next :: rest))
      with (Lit word :: Sep :: pattern_of (next :: rest)).
    specialize (IH ltac:(discriminate)). split.
    + intros H. apply denotes_lit_inv in H as (m & r & Hm & Hr & ->).
      apply denotes_sep_inv in Hr as (x & t & Hx & Ht & ->).
      apply spells_words; [exact Hm|exact Hx|]. now apply IH.
    + intros H. inversion H as [w m Hm|w m x r t Hm Hx Ht]; subst.
      apply denotes_lit; [exact Hm|]. apply denotes_sep; [exact Hx|].
      now apply IH.
Qed.

(** The pattern is found in a text exactly when the text holds one of the
    phrases. *)
Lemma found_mentions (text : string) :
  found CREDIT_EXHAUSTED_PATTERN text <-> mentions text.
Proof.
  rewrite pattern_is_phrases. unfold found, mentions. split.
  - intros (b & before & m & after & Hb & Hm & ->).
    apply in_map_iff in Hb as (words & <- & Hw).
    exists words, before, m, after. split; [exact Hw|]. split; [|reflexivity].
    apply denotes_spells; [|exact Hm].
    intros ->. cbn in Hw. intuition discriminate.
  - intros (words & before & m & after & Hw & Hm & ->).
    exists (pattern_of words), before, m, after.
    split; [now apply in_map|]. split; [|reflexivity].
    apply denotes_spells; [|exact Hm].
    intros ->. cbn in Hw. intuition discriminate.
Qed.

Lemma test_mentions (text : string) :
  test CREDIT_EXHAUSTED_PATTERN text = true <-> mentions text.
Proof. now rewrite test_spec, found_mentions. Qed.

(** C6, as the code has it.  For an error whose message, stderr and stdout
    are texts, the check reports exhaustion exactly when the three texts,
    joined by line breaks in that order, hold without regard to case one of
    the phrases quota exceeded, credits exhausted, insufficient quota, usage
    limit, credit limit, out of credits, rate limit with one underscore or
    one white space character where the phrase has a space, or the digits
    429; a stderr or stdout that is missing counts as the empty text, and an
    error without a message, like any other value, counts by its conversion
    to a text.  It reports none for null and for undefined. *)
Theorem isCreditExhaustedError_spec :
  (forall message stderr stdout : string,
     exists b,
       isCreditExhaustedError
         (ErrorInstance (JStr message) (JStr stderr) (JStr stdout)) = Some b /\
       (b = true <-> mentions (message ++ nl ++ stderr ++ nl ++ stdout))) /\
  (forall message : string,
     exists b,
       isCreditExhaustedError (ErrorInstance (JStr message) JUndef JUndef)
       = Some b /\
       (b = true <-> mentions (message ++ nl ++ nl))) /\
  (forall stderr stdout : string,
     exists b,
       isCreditExhaustedError
         (Value (JObj [("stderr", JStr stderr); ("stdout", JStr stdout)]))
       = Some b /\
       (b = true <->
        mentions ("[object Object]" ++ nl ++ stderr ++ nl ++ stdout))) /\
  (forall e : unknown,
     isCreditExhaustedError e = Some true <->
     exists text, combined e = Some text /\ mentions text) /\
  isCreditExhaustedError (Value JNull) = Some false /\
  isCreditExhaustedError (Value JUndef) = Some false.
Proof.
  split; [|split; [|split; [|split; [|split; reflexivity]]]].
  - intros message stderr stdout. eexists. split; [reflexivity|].
    apply test_mentions.
  - intros message. eexists. split; [reflexivity|]. apply test_mentions.
  - intros stderr stdout. eexists. split; [reflexivity|]. apply test_mentions.
  - intros e. unfold isCreditExhaustedError. destruct (combined e) as [text|].
    + split.
      * intros [= H]. exists text. split; [reflexivity|].
        now apply test_mentions.
      * intros (t & [= <-] & H). f_equal. now apply test_mentions.
    + split; [discriminate|]. now intros (t & H & _).
Qed.

(** The tests of the check, and a phrase across two fields. *)
Example isCreditExhaustedError_tests :
  isCreditExhaustedError
    (ErrorInstance (JStr "quota exceeded") JUndef JUndef) = Some true /\
  isCreditExhaustedError
    (Value (JObj [("stderr", JStr "quota exceeded"); ("stdout", JStr EmptyString)]))
  = Some true /\
  isCreditExhaustedError
    (ErrorInstance (JStr "Something went wrong") JUndef JUndef) = Some false /\
  isCreditExhaustedError
    (ErrorInstance (JStr "no more quota") (JStr "exceeded") JUndef) = Some true.
Proof. repeat split; vm_compute; reflexivity. Qed.

(** C6 as it is stated fails: the text quota_exceeded holds none of the
    phrases of the specification, and the check reports exhaustion. *)
Lemma isCreditExhaustedError_not_phrases :
  ~ (forall e text,
       combined e = Some text ->
       isCreditExhaustedError e = Some (spec_exhausted text)).
Proof.
  intros H.
  specialize (H (ErrorInstance (JStr "quota_exceeded") JUndef JUndef) _ eq_refl).
  discriminate H.
Qed.

End CreditFacts.

(* ================================================================== *)
(** ** The runners *)
(* ================================================================== *)

Module RunnerFacts.
Import Str StrFacts Json Exn Runner.

(** *** Maps *)

Lemma map_get_set_same {V} (m : smap V) (k : string) (v : V) :
  map_get (map_set m k v) k = Some v.
Proof.
  induction m as [|[k' v'] m IH]; cbn [map_set map_get].
  - now rewrite String.eqb_refl.
  - destruct (String.eqb k' k) eqn:E; cbn [map_get]; now rewrite E.
Qed.

Lemma map_get_set_other {V} (m : smap V) (k k' : string) (v : V) :
  k <> k' -> map_get (map_set m k v) k' = map_get m k'.
Proof.
  intros N. induction m as [|[k0 v0] m IH]; cbn [map_set map_get].
  - apply String.eqb_neq in N. now rewrite N.
  - destruct (String.eqb_spec k0 k) as [->|]; cbn [map_get].
    + apply String.eqb_neq in N. now rewrite N.
    + now rewrite IH.
Qed.

(** A key stays in the map through any later [set]. *)
Lemma map_has_set {V} (m : smap V) (k k' : string) (v : V) :
  map_has m k' = true -> map_has (map_set m k v) k' = true.
Proof.
  unfold map_has. destruct (String.eqb_spec k k') as [->|N].
  - now rewrite map_get_set_same.
  - now rewrite map_get_set_other.
Qed.

Lemma map_has_set_same {V} (m : smap V) (k : string) (v : V) :
  map_has (map_set m k v) k = true.
Proof. unfold map_has. now rewrite map_get_set_same. Qed.

(** *** [replace] *)

Lemma GetSubstitution_plain (m b a t : string) :
  plain t = true -> GetSubstitution m b a t = t.
Proof.
  unfold plain. induction t as [|c t IH]; [reflexivity|].
  cbn [lacks GetSubstitution]. intros H. apply andb_true_iff in H as [Hc Ht].
  apply negb_true_iff in Hc. rewrite Hc. now rewrite IH.
Qed.

(** A value without a dollar sign takes the place of the first occurrence
    of the token as it is. *)
Lemma replace_plain (text token v before after : string) :
  plain v = true ->
  split_first token text = Some (before, after) ->
  replace text token v = before ++ v ++ after.
Proof.
  intros Hv Hs. unfold replace. now rewrite Hs, GetSubstitution_plain.
Qed.

Section Dollar.
Context {host : Host}.

(** C4, the code at a value that holds a dollar pattern.  The input [cmd] is
    [echo $& done]; the prompt that either runner builds from
    [Run {{inputs.cmd}}] holds the token again where the value has [$&], and
    does not hold the value. *)
Theorem prompt_dollar_pattern :
  map_get (inputs (sample_config step_run)) "cmd" = Some "echo $& done"
  /\ prompt (sample_config step_run) sample_world
     = (Returned "Run echo {{inputs.cmd}} done", sample_world)
  /\ ACPRunner.buildACPPrompt (sample_config step_run) sample_world
     = (Returned "Run echo {{inputs.cmd}} done", sample_world)
  /\ includes "Run echo {{inputs.cmd}} done" "echo $& done" = false.
Proof. repeat split; reflexivity. Qed.

(** The same placeholder twice: each occurrence is replaced in its turn. *)
Example prompt_same_placeholder_twice :
  prompt (sample_config step_twice) sample_world
  = (Returned "fix the bug / fix the bug", sample_world).
Proof. reflexivity. Qed.

End Dollar.

(** *** Placeholders of step outputs *)

Lemma split_on_lacks (sep : ascii) (a : string) :
  lacks sep a = true -> split_on sep a = [a].
Proof.
  induction a as [|c a IH]; [reflexivity|].
  cbn [lacks split_on]. intros H. apply andb_true_iff in H as [Hc Ha].
  apply negb_true_iff in Hc. now rewrite Hc, IH.
Qed.

Lemma split_on_app (sep : ascii) (a b : string) :
  lacks sep a = true ->
  split_on sep (a ++ String sep b) = a :: split_on sep b.
Proof.
  induction a as [|c a IH]; cbn [lacks split_on append].
  - intros _. now rewrite Ascii.eqb_refl.
  - intros H. apply andb_true_iff in H as [Hc Ha].
    apply negb_true_iff in Hc. now rewrite Hc, IH.
Qed.

Lemma split_step_placeholder (stepId outputName : string) :
  lacks "." stepId = true -> lacks "." outputName = true ->
  split_on "." ("steps." ++ stepId ++ ".outputs." ++ outputName)
  = ["steps"; stepId; "outputs"; outputName].
Proof.
  intros H1 H2.
  change ("steps." ++ stepId ++ ".outputs." ++ outputName)
    with ("steps" ++ String "." (stepId ++ String "." ("outputs" ++ String "." outputName))).
  rewrite split_on_app by reflexivity.
  rewrite split_on_app by assumption.
  rewrite split_on_app by reflexivity.
  now rewrite split_on_lacks.
Qed.

(** The step of the examples: the file holds [hello], and the prompt made of
    the placeholder alone is [hello]. *)
Example prompt_file_content :
  resolve (host := sample_host) (sample_config step_s2) (disk sample_world)
    "steps.s1.outputs.f"
  = (Some "hello", [])
  /\ prompt (host := sample_host) (sample_config step_s2) sample_world
     = (Returned "hello", sample_world).
Proof. split; reflexivity. Qed.

(** The same prompt when the file is gone: the path, and a warning on the
    console. *)
Example prompt_missing_file :
  prompt (host := sample_host) (sample_config step_s2)
    {| disk := []; console := [] |}
  = (Returned "/out/plan.md",
     {| disk := [];
        console := [nl ++ "Prompt Template Warnings:";
                    "└── File '/out/plan.md' does not exist"] |}).
Proof. reflexivity. Qed.

(** *** The output map of a step *)

Section Outputs.
Context {host : Host}.

Lemma keeps_extractStringOutput (jsonData : json) (o : WorkflowOutput) :
  keeps (extractStringOutput jsonData o).
Proof.
  intros out w out' w' k. unfold extractStringOutput, bind, log, modify, ret, throw.
  destruct (is_object jsonData).
  - destruct (index jsonData (name o)) as [|v|text].
    + intros [= <- _]. apply map_has_set.
    + destruct (to_string v); [|discriminate].
      intros [= <- _]. apply map_has_set.
    + intros [= <- _]. apply map_has_set.
  - intros [= <- _]. apply map_has_set.
Qed.

Lemma keeps_fold (step : WorkflowOutput -> smap string -> R (smap string))
  (loop : list WorkflowOutput -> smap string -> R (smap string)) :
  (forall out, loop [] out = ret out) ->
  (forall o r out, loop (o :: r) out = bind (step o out) (fun out' => loop r out')) ->
  (forall o, keeps (step o)) ->
  forall l, keeps (loop l).
Proof.
  intros Hnil Hcons Hstep l. induction l as [|o r IH]; intros out w out' w' k.
  - rewrite Hnil. intros [= <- _]. auto.
  - rewrite Hcons. unfold bind.
    destruct (step o out w) as [[out1|e] w1] eqn:E; [|discriminate].
    intros H Hk. eapply IH; [exact H|]. eapply Hstep; eauto.
Qed.

Lemma keeps_extractEach (jsonData : json) (l : list WorkflowOutput) :
  keeps (extractEach jsonData l).
Proof.
  apply (keeps_fold (extractStringOutput jsonData)); try reflexivity.
  apply keeps_extractStringOutput.
Qed.

Lemma keeps_extractStringOutputs (responseContent : json) (l : list WorkflowOutput) :
  keeps (extractStringOutputs responseContent l).
Proof.
  intros out w out' w' k. unfold extractStringOutputs, bind.
  destruct (recover_json responseContent w) as [[jsonData|e] w1]; [|discriminate].
  apply keeps_extractEach.
Qed.

Lemma keeps_extractFileOutput (dir : option string) (o : WorkflowOutput) :
  keeps (extractFileOutput dir o).
Proof.
  intros out w out' w' k.
  unfold extractFileOutput, try_catch, bind, log, modify, ret.
  destruct (filename o) as [file_name|].
  - destruct (String.eqb file_name EmptyString).
    + intros [= <- _]. apply map_has_set.
    + destruct (existsSync (disk w) file_name).
      * cbv zeta.
        match goal with
        | |- context [fst ?m] => destruct m as [[filePath|why] fs]
        end; cbn [fst snd].
        -- destruct (readFileSync fs filePath).
           ++ intros [= <- _] Hk. now apply map_has_set, map_has_set.
           ++ intros [= <- _]. apply map_has_set.
        -- intros [= <- _]. apply map_has_set.
      * intros [= <- _]. apply map_has_set.
  - intros [= <- _]. apply map_has_set.
Qed.

Lemma keeps_extractFileOutputs (dir : option string) (l : list WorkflowOutput) :
  keeps (extractFileOutputs dir l).
Proof.
  apply (keeps_fold (extractFileOutput dir)); try reflexivity.
  apply keeps_extractFileOutput.
Qed.

Lemma keeps_string_stage (c : Config) (responseContent : json) :
  keeps (string_stage c responseContent).
Proof.
  unfold string_stage. destruct (filter is_string_output (outputs (step c))).
  - intros out w out' w' k [= <- _]. auto.
  - apply keeps_extractStringOutputs.
Qed.

Lemma keeps_file_stage (c : Config) (dir : option string) :
  keeps (file_stage c dir).
Proof.
  unfold file_stage. destruct (filter is_file_output (outputs (step c))).
  - intros out w out' w' k [= <- _]. auto.
  - apply keeps_extractFileOutputs.
Qed.

(** A parse keeps what the map held before it. *)
Lemma parseStepOutputs_keeps (c : Config) (raw : string) (out : smap string)
  (dir : option string) (w w' : world) (r : ParseResult) (out' : smap string)
  (k : string) :
  parseStepOutputs c raw out dir w = (Returned (r, out'), w') ->
  map_has out k = true -> map_has out' k = true.
Proof.
  unfold parseStepOutputs, bind, ret.
  destruct (open_envelope (tool c) raw w) as [[env|e] w1];
    [|intros Hf; inversion Hf; subst; auto].
  destruct (string_stage c (fst env) out w1) as [[out1|e] w2] eqn:E1;
    [|intros Hf; inversion Hf; subst; auto].
  destruct (file_stage c dir out1 w2) as [[out2|e] w3] eqn:E2;
    [|intros Hf; inversion Hf; subst; auto].
  intros Hf Hk. inversion Hf; subst.
  eapply keeps_file_stage; [exact E2|].
  eapply keeps_string_stage; eauto.
Qed.

Lemma attempt_cases (c : Config) (result : LaunchResult) (p : string) (w : world) :
  exists w',
    (exists raw, attempt c result p w = (Returned (Some raw, None), w')) \/
    (exists e, attempt c result p w = (Returned (None, Some e), w')).
Proof.
  unfold attempt, tryRecoverFromAgentError, bind, ret, log, modify.
  destruct (authWaitingDetector _ _ _); [eexists; right; eexists; reflexivity|].
  destruct (match exitCode result with Some 0%Z => true | _ => false end);
    [eexists; left; eexists; reflexivity|].
  destruct recoverFromError as [hook|];
    [|eexists; right; eexists; reflexivity].
  destruct (hook result p) as [[[raw notice]|]|why];
    try (eexists; right; eexists; reflexivity).
  destruct notice as [n|]; [destruct (String.eqb n EmptyString)|];
    eexists; left; eexists; reflexivity.
Qed.

Lemma finish_success (c : Config) (p : string) (dir : option string)
  (raw : string) (w w' : world) (r : RunnerStepResult) :
  finish c p dir (Some raw) None w = (Returned r, w') ->
  map_has (result_outputs r) "raw_output" = true /\
  map_has (result_outputs r) "input_prompt" = true.
Proof.
  unfold finish, bind, ret, throw.
  destruct (parseStepOutputs c raw _ dir w) as [[[pr out]|e] w1] eqn:E;
    [|discriminate].
  cbn [fst snd]. destruct (parse_success pr); [|discriminate].
  intros [= <- _]. cbn [result_outputs].
  split; eapply parseStepOutputs_keeps; try exact E; reflexivity.
Qed.

Lemma finish_error (c : Config) (p : string) (dir : option string)
  (e : AgentError) (w : world) :
  exists r w',
    finish c p dir None (Some e) w = (Returned r, w') /\
    result_outputs r
    = [("error", message e); ("error_code", code e);
       ("error_retryable", bool_text (isRetryable e))] /\
    success r = false /\ error r = Some (message e).
Proof.
  unfold finish, error_entries, bind, ret, log, modify. cbn [fst snd].
  destruct (class e), (isRetryable e);
    (eexists; eexists; split; [reflexivity|]; repeat split).
Qed.

(** C2, as the code has it.  A step that returns a result either succeeded
    (directly or after recovery), and then its output map holds [raw_output]
    and [input_prompt], or ended in a classified error, and then its output
    map is the three entries [error], [error_code] and [error_retryable]. *)
Theorem run_output_map (c : Config) (launch : string -> LaunchResult)
  (dir : option string) (w w' : world) (r : RunnerStepResult) :
  run c launch dir w = (Returned r, w') ->
  exists finalPrompt w1 a w2,
    prompt c w = (Returned finalPrompt, w1) /\
    attempt c (launch finalPrompt) finalPrompt w1 = (Returned a, w2) /\
    match a with
    | (Some raw, None) =>
        map_has (result_outputs r) "raw_output" = true /\
        map_has (result_outputs r) "input_prompt" = true
    | (None, Some e) =>
        result_outputs r
        = [("error", message e); ("error_code", code e);
           ("error_retryable", bool_text (isRetryable e))]
    | _ => False
    end.
Proof.
  unfold run, bind.
  destruct (prompt c w) as [[finalPrompt|why] w1] eqn:P; [|discriminate].
  destruct (attempt_cases c (launch finalPrompt) finalPrompt w1)
    as (w2 & [(raw & A)|(e & A)]); rewrite A; cbn [fst snd]; intros H;
    exists finalPrompt, w1; eexists; exists w2;
    (split; [reflexivity|split; [exact A|]]).
  - eapply finish_success; eauto.
  - destruct (finish_error c finalPrompt dir e w2) as (r0 & w0 & F & O & _).
    rewrite F in H. now injection H as <- _.
Qed.

End Outputs.

(** The step of the examples on a process that exits with code 1: the map
    is the three error entries. *)
Lemma run_output_map_witness :
  exists finalPrompt w1 a w2,
    prompt (host := sample_host) (sample_config step_s1) sample_world
    = (Returned finalPrompt, w1) /\
    attempt (host := sample_host) (sample_config step_s1)
      (failing_launch finalPrompt) finalPrompt w1 = (Returned a, w2) /\
    match a with
    | (Some raw, None) =>
        map_has (result_outputs failed_step_result) "raw_output" = true /\
        map_has (result_outputs failed_step_result) "input_prompt" = true
    | (None, Some e) =>
        result_outputs failed_step_result
        = [("error", message e); ("error_code", code e);
           ("error_retryable", bool_text (isRetryable e))]
    | _ => False
    end.
Proof.
  apply (run_output_map (host := sample_host) (sample_config step_s1)
           failing_launch None sample_world
           {| disk := disk sample_world;
              console := ["✗ Step 'Plan' failed: boom";
                          "  Error type: AGENT_ERROR"] |}
           failed_step_result).
  reflexivity.
Defined.

(** C2 as it is stated fails: the step that ends in a classified error
    returns a map without [raw_output]. *)
Lemma run_error_without_raw_output :
  ~ (forall (host : Host) c launch dir w w' r,
       run c launch dir w = (Returned r, w') ->
       map_has (result_outputs r) "raw_output" = true /\
       map_has (result_outputs r) "input_prompt" = true).
Proof.
  intros H.
  destruct (H sample_host (sample_config step_s1) failing_launch None
              sample_world _ _ eq_refl) as [H1 _].
  discriminate H1.
Qed.

(** *** String outputs that are not in the response *)

Section NotFound.
Context {host : Host}.


End NotFound.


End RunnerFacts.

(** ** The other methods of the manager *)

Module ManagerFacts.
Import Str Json Exn Task Manager JsonFacts ObjFacts TaskFacts.

#[local] Arguments set : simpl never.
#[local] Arguments get : simpl never.
#[local] Arguments save : simpl never.
#[local] Arguments truthy : simpl never.
#[local] Arguments str_or : simpl never.

(** The conjuncts of a schema that holds. *)
Ltac conjuncts H :=
  repeat (let C := fresh "C" in apply andb_true_iff in H as [H C]).

Section Methods.
Context {env : Env}.

(** *** What [setStatus] leaves alone *)

Lemma setStatus_data_frame (now : string) (st : TaskStatus)
  (md : option StatusMetadata) (d : obj) (k : string) :
  ~ In k (assigned st) ->
  get (setStatus_data now st md d) k = get d k.
Proof.
  intros H. unfold setStatus_data. cbv zeta.
  assert (N1 : "status" <> k) by (intros <-; apply H; cbn; auto).
  assert (N2 : "lastStatusCheck" <> k) by (intros <-; apply H; cbn; auto).
  destruct st; cbn [assigned] in H;
    repeat match goal with
           | |- context [if ?b then _ else _] => destruct b
           end;
    repeat (rewrite get_set_other
              by (try assumption; intros <-; apply H; cbn; auto));
    reflexivity.
Qed.

(** [setStatus] assigns the status, the time of the status check and the
    properties of the new status, and no other property of the document:
    a status other than FAILED and PAUSED_CREDITS leaves the recorded error
    in place. *)
Theorem setStatus_frame (now : string) (st : TaskStatus)
  (md : option StatusMetadata) (w : world) (k : string) :
  ~ In k (assigned st) ->
  get (data (snd (setStatus now st md w))) k = get (data w) k.
Proof.
  intros H. rewrite setStatus_in_memory. now apply setStatus_data_frame.
Qed.

(** [restart] keeps the record of the failure: the error, the time of the
    failure and of the completion stay as they were, and so does the time of
    the first start once there is one. *)
Theorem restart_keeps_failure_record (now : string) (t : option string)
  (w : world) :
  let w' := snd (restart now t w) in
  get (data w') "error" = get (data w) "error" /\
  get (data w') "failedAt" = get (data w) "failedAt" /\
  get (data w') "completedAt" = get (data w) "completedAt" /\
  (truthy (get (data w) "startedAt") = true ->
   get (data w') "startedAt" = get (data w) "startedAt").
Proof.
  intros w'. subst w'. rewrite restart_in_memory.
  repeat split.
  1-3: rewrite setStatus_data_frame
         by (cbn; intuition discriminate);
       get_set; reflexivity.
  intros Hs. unfold setStatus_data. cbv zeta. get_set. rewrite Hs.
  get_set. reflexivity.
Qed.

(** *** A save that fails *)

Lemma str_or_some (ts now : string) :
  ts <> EmptyString -> str_or (Some ts) now = ts.
Proof.
  intros H. unfold str_or. apply String.eqb_neq in H. now rewrite H.
Qed.

Lemma schema_needs_lastStatusCheck (d : obj) (ts : string) :
  get d "lastStatusCheck" = JStr ts -> is_datetime ts = false ->
  TaskDescriptionSchema (JObj d) = false.
Proof.
  intros G D. destruct (TaskDescriptionSchema (JObj d)) eqn:V; [|reflexivity].
  unfold TaskDescriptionSchema in V. conjuncts V.
  match goal with
  | C : optional z_datetime (get d "lastStatusCheck") = true |- _ =>
      rewrite G in C; cbn [optional z_datetime] in C; congruence
  end.
Qed.

(** A time stamp that is not a date and time makes [setStatus] throw a
    [TaskFileError]: no file is written, and the object in memory has
    the new status all the same. *)
Theorem setStatus_invalid_timestamp (now ts : string) (st : TaskStatus)
  (err : option string) (w : world) :
  ts <> EmptyString -> is_datetime ts = false ->
  exists w',
    setStatus now st (Some {| timestamp := Some ts; error_message := err |}) w
    = (Threw TaskFileError, w') /\
    disk w' = disk w /\
    get (data w') "status" = JStr (status_name st) /\
    get (data w') "lastStatusCheck" = JStr ts.
Proof.
  intros Hne Hd. rewrite setStatus_unfold.
  set (md := Some {| timestamp := Some ts; error_message := err |}).
  assert (L : get (setStatus_data now st md (data w)) "lastStatusCheck" = JStr ts).
  { unfold setStatus_data, md. cbv zeta. cbn [timestamp].
    rewrite get_set_same. now rewrite str_or_some. }
  exists (with_data (setStatus_data now st md) w). split; [|split; [|split]].
  - apply save_invalid. cbn [data with_data].
    now apply (schema_needs_lastStatusCheck _ ts).
  - reflexivity.
  - cbn [data with_data].
    rewrite <- (setStatus_in_memory now st md w). apply status_after_setStatus.
  - exact L.
Qed.

(** *** The restart command *)

Lemma bind_returned {A B : Type} (c : T A) (k : A -> T B) (w : world)
  (b : B) (w' : world) :
  bind c k w = (Returned b, w') ->
  exists a w1, c w = (Returned a, w1) /\ k a w1 = (Returned b, w').
Proof. unfold bind. destruct (c w) as [[a|e] w1]; [eauto|discriminate]. Qed.

Lemma setWorkspace_data (path branch : string) (w : world) :
  data (snd (setWorkspace path branch w))
  = set (set (data w) "worktreePath" (JStr path)) "branchName" (JStr branch).
Proof.
  unfold setWorkspace, bind, assign, modify. cbn beta iota.
  now rewrite save_data.
Qed.

Lemma setAgentImage_data (image : string) (w : world) :
  data (snd (setAgentImage image w)) = set (data w) "agentImage" (JStr image).
Proof.
  unfold setAgentImage, bind, assign, modify. cbn beta iota.
  now rewrite save_data.
Qed.

Lemma setContainerInfo_running_data (now containerId : string) (meta : json)
  (w : world) :
  data (snd (setContainerInfo now containerId "running" meta w))
  = set (set (set (set (data w) "containerId" (JStr containerId))
                "executionStatus" (JStr "running"))
           "sandboxMetadata" meta)
      "runningAt" (JStr now).
Proof.
  unfold setContainerInfo, bind, assign, modify, when. cbn beta iota.
  change (String.eqb "running" "running") with true. cbn beta iota.
  now rewrite save_data.
Qed.

(** The document after the calls of the command that come before the
    sandbox is started: restart counted, workspace recorded when the command
    made one, status IN_PROGRESS, image recorded when one is named. *)
Lemma restartCommand_prepared (e : RestartEnv) (w : world) (b : bool)
  (w' : world) (last : T bool) :
  (restart (restartedAt e) (Some (restartedAt e)) ;;
   worktreePath <- read "worktreePath" ;;
   branchName <- read "branchName" ;;
   when (negb (truthy worktreePath) || negb (truthy branchName))
     (match workspace_created e with
      | Some (path, branch) =>
          try_catch (setWorkspace path branch) (fun _ => ret tt)
      | None => ret tt
      end) ;;
   markInProgress (progressAt e) None ;;
   match agent_image e with
   | Some image => setAgentImage image
   | None => ret tt
   end ;;
   last)%exn w = (Returned b, w') ->
  exists w4,
    last w4 = (Returned b, w') /\
    get (data w4) "status" = JStr "IN_PROGRESS" /\
    get (data w4) "restartCount"
    = JNum (plus_one (count_or_zero (get (data w) "restartCount"))) /\
    get (data w4) "lastRestartAt" = JStr (restartedAt e) /\
    get (data w4) "containerId" = get (data w) "containerId" /\
    get (data w4) "error" = get (data w) "error".
Proof.
  intros H.
  apply bind_returned in H as ([] & w1 & E1 & H).
  assert (D1 : data w1 = data (snd (restart (restartedAt e)
                                      (Some (restartedAt e)) w)))
    by (rewrite E1; reflexivity).
  rewrite restart_in_memory in D1.
  unfold bind at 1 in H. unfold read at 1, gets in H. cbn beta iota in H.
  unfold bind at 1 in H. unfold read at 1, gets in H. cbn beta iota in H.
  apply bind_returned in H as ([] & w2 & E2 & H).
  assert (D2 : forall k, "worktreePath" <> k -> "branchName" <> k ->
                         get (data w2) k = get (data w1) k).
  { intros k N1 N2. revert E2. unfold when.
    destruct (negb _ || negb _); [|intros [= <-]; reflexivity].
    destruct (workspace_created e) as [[path branch]|];
      [|intros [= <-]; reflexivity].
    unfold try_catch, ret. intros E2.
    assert (D : data w2 = data (snd (setWorkspace path branch w1))).
    { destruct (setWorkspace path branch w1) as [[[]|err] w0];
        injection E2 as <-; reflexivity. }
    rewrite D, setWorkspace_data.
    rewrite get_set_other by exact N2. apply get_set_other. exact N1. }
  apply bind_returned in H as ([] & w3 & E3 & H).
  assert (D3 : data w3 = data (snd (markInProgress (progressAt e) None w2)))
    by (rewrite E3; reflexivity).
  unfold markInProgress in D3. rewrite setStatus_in_memory in D3.
  apply bind_returned in H as ([] & w4 & E4 & H).
  assert (D4 : forall k, "agentImage" <> k ->
                         get (data w4) k = get (data w3) k).
  { intros k N. revert E4.
    destruct (agent_image e) as [image|]; [|intros [= <-]; reflexivity].
    intros E4.
    assert (D : data w4 = data (snd (setAgentImage image w3)))
      by (rewrite E4; reflexivity).
    rewrite D, setAgentImage_data. apply get_set_other. exact N. }
  exists w4. split; [exact H|].
  assert (O : forall k, ~ In k ("agentImage" :: "worktreePath" :: "branchName"
                                  :: assigned IN_PROGRESS) ->
                        get (data w4) k = get (data w1) k).
  { intros k Hk.
    rewrite D4 by (intros <-; apply Hk; cbn; tauto).
    rewrite D3, setStatus_data_frame
      by (intros Hi; apply Hk; cbn in Hi |- *; tauto).
    apply D2; intros <-; apply Hk; cbn; tauto. }
  assert (R1 : forall k, ~ In k (assigned IN_PROGRESS) ->
                         get (data w1) k
                         = get (set (set (data w) "restartCount"
                                       (JNum (plus_one
                                                (count_or_zero
                                                   (get (data w) "restartCount")))))
                                  "lastRestartAt"
                                  (JStr (str_or (Some (restartedAt e))
                                           (restartedAt e)))) k).
  { intros k Hk. rewrite D1. now apply setStatus_data_frame. }
  repeat split.
  - rewrite D4 by discriminate. rewrite D3.
    rewrite <- (setStatus_in_memory (progressAt e) IN_PROGRESS
                  (only_timestamp None) w2).
    apply status_after_setStatus.
  - rewrite O by (cbn; intuition discriminate).
    rewrite R1 by (cbn; intuition discriminate).
    rewrite get_set_other by discriminate. apply get_set_same.
  - rewrite O by (cbn; intuition discriminate).
    rewrite R1 by (cbn; intuition discriminate).
    rewrite get_set_same. unfold str_or. now destruct (String.eqb _ _).
  - rewrite O by (cbn; intuition discriminate).
    rewrite R1 by (cbn; intuition discriminate).
    rewrite !get_set_other by discriminate. reflexivity.
  - rewrite O by (cbn; intuition discriminate).
    rewrite R1 by (cbn; intuition discriminate).
    rewrite !get_set_other by discriminate. reflexivity.
Qed.

Lemma restartCommand_body (e : RestartEnv) (w : world) (r : restart_result)
  (w' : world) :
  restartCommand e w = (r, w') ->
  r = Restarted \/ r = SandboxFailed ->
  isNew w || isFailed w || isPausedCredits w = true /\
  exists w4,
    (match sandbox_started e with
     | Some containerId =>
         setContainerInfo (runningAt e) containerId "running"
           (match docker_host e with
            | Some h =>
                if String.eqb h EmptyString then JUndef
                else JObj [("dockerHost", JStr h)]
            | None => JUndef
            end) ;;
         ret true
     | None => resetToNew (resetAt e) None ;; ret false
     end)%exn w4
    = (Returned (match r with Restarted => true | _ => false end), w') /\
    get (data w4) "status" = JStr "IN_PROGRESS" /\
    get (data w4) "restartCount"
    = JNum (plus_one (count_or_zero (get (data w) "restartCount"))) /\
    get (data w4) "lastRestartAt" = JStr (restartedAt e) /\
    get (data w4) "containerId" = get (data w) "containerId" /\
    get (data w4) "error" = get (data w) "error".
Proof.
  unfold restartCommand. intros H Hr.
  destruct (isNew w), (isFailed w), (isPausedCredits w); cbn [negb andb] in H;
    try (injection H as <- _; destruct Hr; discriminate);
    (split; [reflexivity|]);
    match type of H with
    | match ?body w with _ => _ end = _ =>
        destruct (body w) as [[[|]|err] w0] eqn:B;
          injection H as <- <-; try (destruct Hr; discriminate);
          apply restartCommand_prepared in B; exact B
    end.
Qed.

(** When the sandbox does not start, the command leaves the task NEW, and
    the attempt stays counted: [restartCount] is one more than it was, for a
    counter that was a safe integer (a missing one counting as zero), and
    [lastRestartAt] is the time of the command. *)
Theorem restartCommand_sandbox_failure (e : RestartEnv) (w w' : world) :
  restartCommand e w = (SandboxFailed, w') ->
  (Z.abs (count_or_zero (get (data w) "restartCount")) <= MAX_SAFE_INTEGER)%Z ->
  sandbox_started e = None /\
  get (data w') "status" = JStr "NEW" /\
  get (data w') "restartCount"
  = JNum (count_or_zero (get (data w) "restartCount") + 1) /\
  get (data w') "lastRestartAt" = JStr (restartedAt e) /\
  get (data w') "containerId" = get (data w) "containerId".
Proof.
  intros H Safe.
  apply restartCommand_body in H as (_ & w4 & L & _ & C & T & I & _); [|auto].
  rewrite (plus_one_safe _ Safe) in C.
  destruct (sandbox_started e) as [containerId|].
  - apply bind_returned in L as ([] & w5 & _ & L). discriminate L.
  - apply bind_returned in L as ([] & w5 & E & L). injection L as <-.
    assert (D : data w5 = data (snd (resetToNew (resetAt e) None w4)))
      by (rewrite E; reflexivity).
    unfold resetToNew in D.
    split; [reflexivity|]. split; [|repeat split].
    + rewrite D. apply status_after_setStatus.
    + rewrite D, setStatus_in_memory, setStatus_data_frame
        by (cbn; intuition discriminate).
      exact C.
    + rewrite D, setStatus_in_memory, setStatus_data_frame
        by (cbn; intuition discriminate).
      exact T.
    + rewrite D, setStatus_in_memory, setStatus_data_frame
        by (cbn; intuition discriminate).
      exact I.
Qed.

(** When the command goes through, the task was NEW, FAILED or
    PAUSED_CREDITS and is now IN_PROGRESS with the restart counted, one more
    than a counter that was a safe integer (a missing one counting as zero);
    it holds the new container, running since the time of the call, and the
    error of the earlier failure is still recorded. *)
Theorem restartCommand_restarted (e : RestartEnv) (w w' : world) :
  restartCommand e w = (Restarted, w') ->
  (Z.abs (count_or_zero (get (data w) "restartCount")) <= MAX_SAFE_INTEGER)%Z ->
  isNew w || isFailed w || isPausedCredits w = true /\
  sandbox_started e = match get (data w') "containerId" with
                      | JStr containerId => Some containerId
                      | _ => None
                      end /\
  get (data w') "status" = JStr "IN_PROGRESS" /\
  get (data w') "restartCount"
  = JNum (count_or_zero (get (data w) "restartCount") + 1) /\
  get (data w') "executionStatus" = JStr "running" /\
  get (data w') "runningAt" = JStr (runningAt e) /\
  get (data w') "error" = get (data w) "error".
Proof.
  intros H Safe.
  apply restartCommand_body in H as (G & w4 & L & S & C & _ & _ & Er); [|auto].
  rewrite (plus_one_safe _ Safe) in C.
  split; [exact G|].
  destruct (sandbox_started e) as [containerId|].
  - apply bind_returned in L as ([] & w5 & E & L). injection L as <-.
    match type of E with
    | setContainerInfo _ _ _ ?meta _ = _ =>
        assert (D : data w5
                    = data (snd (setContainerInfo (runningAt e) containerId
                                   "running" meta w4)))
          by (rewrite E; reflexivity)
    end.
    rewrite setContainerInfo_running_data in D. rewrite D.
    repeat split.
    + rewrite !get_set_other by discriminate. now rewrite get_set_same.
    + rewrite !get_set_other by discriminate. exact S.
    + rewrite !get_set_other by discriminate. exact C.
    + rewrite !get_set_other by discriminate. apply get_set_same.
    + apply get_set_same.
    + rewrite !get_set_other by discriminate. exact Er.
  - apply bind_returned in L as ([] & w5 & _ & L). discriminate L.
Qed.

(** *** The status predicates *)

Lemma status_name_inj (a b : TaskStatus) :
  status_name a = status_name b -> a = b.
Proof. destruct a, b; intros H; try reflexivity; discriminate H. Qed.

Lemma valid_status (d : obj) :
  TaskDescriptionSchema (JObj d) = true ->
  exists s, get d "status" = JStr (status_name s).
Proof.
  intros V. unfold TaskDescriptionSchema in V. conjuncts V.
  match goal with
  | C : TaskStatusSchema (get d "status") = true |- _ =>
      destruct (get d "status") as [| | | |x| |]; try discriminate C;
      unfold TaskStatusSchema, z_enum in C; cbn [map all_statuses existsb] in C
  end.
  repeat match goal with
         | H : (String.eqb x ?n || _)%bool = true |- _ =>
             apply orb_true_iff in H as [H|H]
         | H : String.eqb x (status_name ?t) = true |- _ =>
             apply String.eqb_eq in H; exists t; now rewrite H
         end.
  discriminate.
Qed.

(** On a task that validates exactly one of the status predicates holds;
    [isActive] holds for NEW, IN_PROGRESS and ITERATING, and the restart
    command rejects the task, changing nothing, exactly when its status is
    none of NEW, FAILED and PAUSED_CREDITS. *)
Theorem status_predicates_partition (e : RestartEnv) (w : world) :
  TaskDescriptionSchema (JObj (data w)) = true ->
  exists s : TaskStatus,
    get (data w) "status" = JStr (status_name s) /\
    (forall s', status_is (status_name s') w = true <-> s' = s) /\
    (isActive w = true <-> s = NEW \/ s = IN_PROGRESS \/ s = ITERATING) /\
    (restartCommand e w = (Rejected, w) <->
     s <> NEW /\ s <> FAILED /\ s <> PAUSED_CREDITS).
Proof.
  intros V. destruct (valid_status _ V) as [s Hs]. exists s.
  split; [exact Hs|].
  assert (P : forall s', status_is (status_name s') w = true <-> s' = s).
  { intros s'. rewrite status_is_spec, Hs. split.
    - intros [= E]. symmetry. now apply status_name_inj.
    - now intros ->. }
  assert (Q : forall s', status_is (status_name s') w
                         = status_eqb s' s).
  { intros s'. unfold status_is, status_eqb. rewrite Hs.
    apply String.eqb_sym. }
  split; [exact P|]. split.
  - unfold isActive, isNew, isInProgress, isIterating.
    change "NEW" with (status_name NEW).
    change "IN_PROGRESS" with (status_name IN_PROGRESS).
    change "ITERATING" with (status_name ITERATING).
    rewrite !Q. destruct s; cbn; intuition discriminate.
  - unfold restartCommand, isNew, isFailed, isPausedCredits.
    change "NEW" with (status_name NEW).
    change "FAILED" with (status_name FAILED).
    change "PAUSED_CREDITS" with (status_name PAUSED_CREDITS).
    rewrite !Q.
    destruct s; cbn [status_eqb status_name String.eqb Ascii.eqb Bool.eqb
                       negb andb];
      try (split; [intros _; repeat split; discriminate|reflexivity]);
      (split; [|intros (A & B & C); congruence]);
      match goal with
      | |- (match ?body w with _ => _ end) = _ -> _ =>
          destruct (body w) as [[[|]|err] w0]; discriminate
      end.
Qed.

(** *** Deleting the task file *)

Lemma read_remove_file (fs : files) (path : string) :
  read_file (remove_file fs path) path = None.
Proof.
  induction fs as [|[p c] fs IH]; [reflexivity|]. cbn [remove_file].
  destruct (String.eqb p path) eqn:E; [exact IH|].
  cbn [read_file]. now rewrite E.
Qed.

Lemma read_remove_other (fs : files) (path other : string) :
  other <> path ->
  read_file (remove_file fs path) other = read_file fs other.
Proof.
  intros N. induction fs as [|[p c] fs IH]; [reflexivity|]. cbn [remove_file].
  destruct (String.eqb_spec p path) as [->|Np]; cbn [read_file].
  - rewrite IH. apply String.eqb_neq in N. rewrite String.eqb_sym in N.
    now rewrite N.
  - now rewrite IH.
Qed.

Lemma delete_removed (w : world) :
  let w' := snd (delete Removed w) in
  fst (delete Removed w) = Returned tt /\
  basePath w' = basePath w /\
  taskId w' = taskId w /\
  read_file (disk w') (filePath w) = None.
Proof.
  unfold delete, file_exists.
  destruct (read_file (disk w) (filePath w)) eqn:R; cbn [fst snd disk with_disk];
    repeat split; try reflexivity.
  - apply read_remove_file.
  - exact R.
Qed.

Lemma delete_absent (rmSync : removal) (w : world) :
  file_exists (disk w) (filePath w) = false ->
  delete rmSync w = (Returned tt, w) /\
  read_file (disk w) (filePath w) = None.
Proof.
  unfold delete. intros H. rewrite H. split; [reflexivity|].
  unfold file_exists in H. now destruct (read_file _ _).
Qed.

Lemma gone_then_load (w' : world) (base : string) (id : Z) :
  basePath w' = base -> taskId w' = id ->
  read_file (disk w') (join_path base "description.json") = None ->
  task_exists base (disk w') = false /\
  load base id (disk w') = Threw (TaskNotFoundError id) /\
  reload w' = (Threw (TaskNotFoundError id), w').
Proof.
  intros B I G.
  assert (L : load base id (disk w') = Threw (TaskNotFoundError id))
    by (unfold load; now rewrite G).
  split; [unfold task_exists, file_exists; now rewrite G|].
  split; [exact L|].
  unfold reload. now rewrite B, I, L.
Qed.

(** [delete] leaves the object in memory and every other file (the backup
    of a migration among them) as they are.  When the file is there and the
    host refuses to remove it, [delete] throws [TaskFileError] and nothing
    has changed.  In every other case it returns, whether or not the file
    was there; afterwards the task does not exist on disk, and loading or
    reloading it throws [TaskNotFoundError] for its identifier. *)
Theorem delete_then_load (rmSync : removal) (w : world) :
  let w' := snd (delete rmSync w) in
  data w' = data w /\
  (forall path, path <> filePath w ->
                read_file (disk w') path = read_file (disk w) path) /\
  match rmSync, file_exists (disk w) (filePath w) with
  | Refused, true => delete rmSync w = (Threw TaskFileError, w)
  | _, _ =>
      fst (delete rmSync w) = Returned tt /\
      task_exists (basePath w) (disk w') = false /\
      load (basePath w) (taskId w) (disk w')
      = Threw (TaskNotFoundError (taskId w)) /\
      reload w' = (Threw (TaskNotFoundError (taskId w)), w')
  end.
Proof.
  intros w'. subst w'. split; [|split].
  - unfold delete. destruct (file_exists _ _); [|reflexivity].
    now destruct rmSync.
  - intros path N. unfold delete.
    destruct (file_exists _ _); [|reflexivity].
    destruct rmSync; [|reflexivity]. cbn [snd disk with_disk].
    now apply read_remove_other.
  - destruct (file_exists (disk w) (filePath w)) eqn:F.
    + destruct rmSync.
      * destruct (delete_removed w) as (R & B & I & G).
        split; [exact R|]. now apply gone_then_load.
      * unfold delete. now rewrite F.
    + destruct (delete_absent rmSync w F) as (E & G).
      assert (Through : fst (delete rmSync w) = Returned tt /\
                task_exists (basePath w) (disk (snd (delete rmSync w))) = false /\
                load (basePath w) (taskId w) (disk (snd (delete rmSync w)))
                = Threw (TaskNotFoundError (taskId w)) /\
                reload (snd (delete rmSync w))
                = (Threw (TaskNotFoundError (taskId w)),
                   snd (delete rmSync w))).
      { rewrite E. split; [reflexivity|]. cbn [snd].
        now apply gone_then_load. }
      destruct rmSync; exact Through.
Qed.

(** *** The execution status *)

(** [updateExecutionStatus] records the execution status and never changes
    the status of the task: an execution that failed leaves the task as it
    was, with the time of the failure, and with the error and its time when
    a message comes with it. *)
Theorem updateExecutionStatus_keeps_status (errorNow endNow status : string)
  (exitCode : option Z) (error : option string) (w : world) :
  let w' := snd (updateExecutionStatus errorNow endNow status exitCode error w) in
  get (data w') "status" = get (data w) "status" /\
  get (data w') "executionStatus" = JStr status /\
  (status = "failed" -> get (data w') "failedAt" = JStr endNow) /\
  (status = "completed" -> get (data w') "completedAt" = JStr endNow) /\
  (forall e, error = Some e -> e <> EmptyString ->
             get (data w') "error" = JStr e /\
             get (data w') "errorAt" = JStr errorNow).
Proof.
  intros w'. subst w'.
  unfold updateExecutionStatus, bind, assign, modify, when, ret.
  cbn beta iota.
  destruct exitCode as [n|]; destruct error as [e|]; cbn beta iota;
    repeat match goal with
           | |- context [if ?b then _ else _] =>
               let E := fresh "E" in destruct b eqn:E; cbn beta iota
           end;
    rewrite save_data; cbn [data with_data];
    (split; [rewrite !get_set_other by discriminate; reflexivity|]);
    (split; [rewrite ?get_set_other by discriminate; apply get_set_same|]);
    (split; [intros ->; try discriminate;
             rewrite ?get_set_other by discriminate; apply get_set_same|]);
    (split; [intros ->; try discriminate;
             rewrite ?get_set_other by discriminate; apply get_set_same|]);
    intros e0 He0 Ne0; try discriminate He0;
    injection He0 as ->; apply String.eqb_neq in Ne0;
    rewrite Ne0 in *; cbn [negb] in *;
    first [discriminate
          |split; rewrite ?get_set_other by discriminate; apply get_set_same].
Qed.

End Methods.

(** *** The properties on the task of the tests *)

(** A task that failed and then completes still records its error. *)
Lemma setStatus_frame_witness :
  ~ In "error" (assigned COMPLETED) /\
  get (data (after (markCompleted (env := sample_env) later_time None)
               failed_task)) "error"
  = JStr "This task failed".
Proof.
  split; [cbn; intuition discriminate|].
  apply (setStatus_frame (env := sample_env) later_time COMPLETED
           (only_timestamp None) failed_task "error").
  cbn; intuition discriminate.
Defined.

Lemma restart_keeps_failure_record_witness :
  get (data (after (restart (env := sample_env) later_time None) failed_task))
    "startedAt" = JStr sample_time /\
  get (data (after (restart (env := sample_env) later_time None) failed_task))
    "error" = JStr "This task failed".
Proof.
  destruct (restart_keeps_failure_record (env := sample_env) later_time None
              failed_task) as (E & _ & _ & S).
  split; [exact (S eq_refl)|exact E].
Defined.

Lemma setStatus_invalid_timestamp_witness :
  exists w',
    setStatus (env := sample_env) later_time COMPLETED
      (Some {| timestamp := Some "yesterday"; error_message := None |})
      sample_task
    = (Threw TaskFileError, w') /\
    disk w' = disk sample_task /\
    get (data w') "status" = JStr "COMPLETED" /\
    get (data w') "lastStatusCheck" = JStr "yesterday".
Proof.
  apply (setStatus_invalid_timestamp (env := sample_env) later_time "yesterday"
           COMPLETED None sample_task); [discriminate|reflexivity].
Defined.

(** The restart of the failed task when no sandbox starts. *)
Lemma restartCommand_sandbox_failure_witness :
  get (data (snd (restartCommand (env := sample_env) sandbox_down failed_task)))
    "status" = JStr "NEW" /\
  get (data (snd (restartCommand (env := sample_env) sandbox_down failed_task)))
    "restartCount" = JNum 1.
Proof.
  assert (H : restartCommand (env := sample_env) sandbox_down failed_task
              = (SandboxFailed,
                 snd (restartCommand (env := sample_env) sandbox_down
                        failed_task)))
    by (vm_compute; reflexivity).
  assert (Safe : (Z.abs (count_or_zero (get (data failed_task) "restartCount"))
                  <= MAX_SAFE_INTEGER)%Z)
    by (vm_compute; discriminate).
  destruct (restartCommand_sandbox_failure (env := sample_env) sandbox_down
              failed_task _ H Safe)
    as (_ & S & C & _).
  split; [exact S|exact C].
Defined.

Lemma restartCommand_restarted_witness :
  get (data (snd (restartCommand (env := sample_env) sample_restart failed_task)))
    "containerId" = JStr "container-1" /\
  get (data (snd (restartCommand (env := sample_env) sample_restart failed_task)))
    "error" = JStr "This task failed".
Proof.
  assert (H : restartCommand (env := sample_env) sample_restart failed_task
              = (Restarted,
                 snd (restartCommand (env := sample_env) sample_restart
                        failed_task)))
    by (vm_compute; reflexivity).
  assert (Safe : (Z.abs (count_or_zero (get (data failed_task) "restartCount"))
                  <= MAX_SAFE_INTEGER)%Z)
    by (vm_compute; discriminate).
  destruct (restartCommand_restarted (env := sample_env) sample_restart
              failed_task _ H Safe)
    as (_ & _ & _ & _ & _ & _ & E).
  split; [vm_compute; reflexivity|].
  rewrite E. vm_compute. reflexivity.
Defined.

Lemma status_predicates_partition_witness :
  exists s : TaskStatus,
    get (data failed_task) "status" = JStr (status_name s) /\
    (forall s', status_is (status_name s') failed_task = true <-> s' = s) /\
    (isActive failed_task = true <-> s = NEW \/ s = IN_PROGRESS \/ s = ITERATING) /\
    (restartCommand (env := sample_env) sample_restart failed_task
     = (Rejected, failed_task) <->
     s <> NEW /\ s <> FAILED /\ s <> PAUSED_CREDITS).
Proof.
  apply (status_predicates_partition (env := sample_env) sample_restart
           failed_task).
  reflexivity.
Defined.

End ManagerFacts.

(** ** The outputs of a step *)

Module OutputFacts.
Import Str StrFacts Json Exn Runner RunnerFacts Samples.

Section Outputs.
Context {host : Host}.

(** *** File outputs *)

Lemma extractFileOutput_returns (dir : option string) (o : WorkflowOutput)
  (out : smap string) (w : world) :
  exists out' w',
    extractFileOutput dir o out w = (Returned out', w') /\
    map_has out' (name o) = true.
Proof.
  unfold extractFileOutput, try_catch, bind, log, modify, ret.
  destruct (filename o) as [file_name|].
  - destruct (String.eqb file_name EmptyString).
    + eexists. eexists. split; [reflexivity|apply map_has_set_same].
    + destruct (existsSync (disk w) file_name).
      * cbv zeta.
        match goal with
        | |- context [fst ?m] => destruct m as [[filePath|why] fs]
        end; cbn [fst snd].
        -- destruct (readFileSync fs filePath).
           ++ eexists. eexists. split; [reflexivity|].
              apply map_has_set, map_has_set_same.
           ++ eexists. eexists. split; [reflexivity|apply map_has_set_same].
        -- eexists. eexists. split; [reflexivity|apply map_has_set_same].
      * eexists. eexists. split; [reflexivity|apply map_has_set_same].
  - eexists. eexists. split; [reflexivity|apply map_has_set_same].
Qed.

Lemma extractFileOutputs_returns (dir : option string)
  (l : list WorkflowOutput) (out : smap string) (w : world) :
  exists out' w',
    extractFileOutputs dir l out w = (Returned out', w') /\
    (forall o, In o l -> map_has out' (name o) = true).
Proof.
  revert out w. induction l as [|o r IH]; intros out w.
  - exists out, w. split; [reflexivity|intros o []].
  - cbn [extractFileOutputs]. unfold bind.
    destruct (extractFileOutput_returns dir o out w) as (out1 & w1 & E & S).
    rewrite E.
    destruct (IH out1 w1) as (out' & w' & E' & Hall).
    exists out', w'. split; [exact E'|].
    intros o' [<-|Hin]; [|now apply Hall].
    eapply keeps_extractFileOutputs; eauto.
Qed.

(** [extractFileOutputs] never throws: whatever the files are, it returns,
    every declared file output has an entry in the map afterwards (its path
    or a placeholder in brackets), and the entries that were there stay. *)
Theorem extractFileOutputs_never_throws (dir : option string)
  (l : list WorkflowOutput) (out : smap string) (w : world) :
  exists out' w',
    extractFileOutputs dir l out w = (Returned out', w') /\
    (forall o, In o l -> map_has out' (name o) = true) /\
    (forall k, map_has out k = true -> map_has out' k = true).
Proof.
  destruct (extractFileOutputs_returns dir l out w) as (out' & w' & E & A).
  exists out', w'. split; [exact E|]. split; [exact A|].
  intros k Hk. eapply keeps_extractFileOutputs; eauto.
Qed.

(** *** Files by path *)

Lemma map_get_rm_other (fs : files) (f q : string) :
  q <> f -> map_get (rm fs f) q = map_get fs q.
Proof.
  intros N. induction fs as [|[p x] fs IH]; [reflexivity|]. cbn [rm].
  destruct (String.eqb_spec p f) as [->|Np]; cbn [map_get].
  - rewrite IH. apply String.eqb_neq in N. rewrite String.eqb_sym in N.
    now rewrite N.
  - now rewrite IH.
Qed.

Lemma map_get_rm_same (fs : files) (f : string) :
  map_get (rm fs f) f = None.
Proof.
  induction fs as [|[p x] fs IH]; [reflexivity|]. cbn [rm].
  destruct (String.eqb p f) eqn:E; [exact IH|].
  cbn [map_get]. now rewrite E.
Qed.

Lemma keys_map_set {V : Type} (m : smap V) (k : string) (v : V) :
  map fst (map_set m k v)
  = if map_has m k then map fst m else (map fst m ++ [k])%list.
Proof.
  unfold map_has. induction m as [|[p x] m IH]; [reflexivity|].
  cbn [map_set map_get]. destruct (String.eqb p k) eqn:E; [reflexivity|].
  cbn [map fst]. rewrite IH. now destruct (map_get m k).
Qed.

(** What the move does, by the calls in their order: the copy, the removal,
    the reading. *)
Lemma extractFileOutput_existing (dir f : string) (o : WorkflowOutput)
  (out : smap string) (w : world) :
  filename o = Some f -> f <> EmptyString -> dir <> EmptyString ->
  existsSync (disk w) f = true ->
  let p := path_join dir (path_basename f) in
  let could_not (why : string) (fs : files) :=
    (Returned (map_set out (name o) "[Could not read file]"),
     {| disk := fs;
        console := (console w
                      ++ [(warning_sign ++ "Could not read file '" ++ f ++ "': "
                             ++ why)%string])%list |}) in
  extractFileOutput (Some dir) o out w
  = match copyFileSync (disk w) f p with
    | Returned copied =>
        match rmSync copied f with
        | Returned fs =>
            match readFileSync fs p with
            | Returned fileContent =>
                (Returned (map_set (map_set out (name o) p)
                             (name o ++ "_content") fileContent),
                 {| disk := fs; console := console w |})
            | Threw why => could_not why fs
            end
        | Threw why => could_not why copied
        end
    | Threw why => could_not why (disk w)
    end.
Proof.
  intros Hf Nf Nd He p could_not. subst could_not.
  unfold extractFileOutput, try_catch, bind, log, modify, ret. rewrite Hf.
  apply String.eqb_neq in Nf, Nd. rewrite Nf, He, Nd. cbv zeta. fold p.
  destruct (copyFileSync (disk w) f p) as [copied|why]; cbn [fst snd];
    [|reflexivity].
  destruct (rmSync copied f) as [fs|why]; cbn [fst snd]; [|reflexivity].
  destruct (readFileSync fs p); reflexivity.
Qed.

(** With an output directory, a file that the agent created is moved, when
    its new path leads to another file than the one created and the
    platform refuses neither the copy nor the removal: it is read at its new
    path and recorded under that path together with its content, it is gone
    from where it was created, and no other file changes.  When the new path
    leads to the file itself (the file was created in the output directory),
    the file is removed and lost: it is recorded as could not be read.  When
    the copy is refused, the file stays where it is and is recorded as could
    not be read. *)
Theorem extractFileOutput_moves (dir f content : string) (o : WorkflowOutput)
  (out : smap string) (w : world) :
  filename o = Some f -> f <> EmptyString -> dir <> EmptyString ->
  map_get (disk w) (path_resolve f) = Some (Readable content) ->
  let p := path_join dir (path_basename f) in
  let copied := map_set (disk w) (path_resolve p) (Readable content) in
  (path_resolve p <> path_resolve f ->
   copy_refused (disk w) f p = None ->
   remove_refused copied f = None ->
   exists w',
     extractFileOutput (Some dir) o out w
     = (Returned (map_set (map_set out (name o) p) (name o ++ "_content") content),
        w') /\
     console w' = console w /\
     existsSync (disk w') f = false /\
     readFileSync (disk w') p = Returned content /\
     forall q, q <> path_resolve f -> q <> path_resolve p ->
               map_get (disk w') q = map_get (disk w) q) /\
  (path_resolve p = path_resolve f ->
   copy_refused (disk w) f p = None ->
   remove_refused copied f = None ->
   exists w',
     extractFileOutput (Some dir) o out w
     = (Returned (map_set out (name o) "[Could not read file]"), w') /\
     existsSync (disk w') f = false /\
     console w'
     = (console w
          ++ [(warning_sign ++ "Could not read file '" ++ f
                 ++ "': ENOENT: no such file or directory, open '" ++ p
                 ++ "'")%string])%list) /\
  (forall why,
     copy_refused (disk w) f p = Some why ->
     extractFileOutput (Some dir) o out w
     = (Returned (map_set out (name o) "[Could not read file]"),
        {| disk := disk w;
           console := (console w
                         ++ [(warning_sign ++ "Could not read file '" ++ f
                                ++ "': " ++ why)%string])%list |})).
Proof.
  intros Hf Nf Nd Hc p copied.
  assert (He : existsSync (disk w) f = true)
    by (unfold existsSync, map_has; now rewrite Hc).
  pose proof (extractFileOutput_existing dir f o out w Hf Nf Nd He) as E.
  cbv zeta in E. fold p in E. unfold copyFileSync in E. rewrite Hc in E.
  split; [|split].
  - intros Np Cp Rm. rewrite Cp in E. fold copied in E.
    assert (Hh : map_has copied (path_resolve f) = true).
    { unfold map_has, copied. rewrite map_get_set_other by exact Np.
      now rewrite Hc. }
    unfold rmSync in E. rewrite Hh, Rm in E.
    assert (R : readFileSync (rm copied (path_resolve f)) p = Returned content).
    { unfold readFileSync, copied. rewrite map_get_rm_other by exact Np.
      now rewrite map_get_set_same. }
    rewrite R in E.
    exists {| disk := rm copied (path_resolve f); console := console w |}.
    split; [exact E|]. cbn [disk console]. split; [reflexivity|].
    split; [|split; [exact R|]].
    + unfold existsSync, map_has. now rewrite map_get_rm_same.
    + intros q Nq Nqp. rewrite map_get_rm_other by exact Nq.
      unfold copied. apply map_get_set_other. congruence.
  - intros Ep Cp Rm. rewrite Cp in E. fold copied in E.
    assert (Hh : map_has copied (path_resolve f) = true).
    { unfold map_has, copied. rewrite Ep. now rewrite map_get_set_same. }
    unfold rmSync in E. rewrite Hh, Rm in E.
    unfold readFileSync in E. rewrite Ep, map_get_rm_same in E.
    eexists. split; [exact E|]. cbn [disk console]. split; [|reflexivity].
    unfold existsSync, map_has. now rewrite map_get_rm_same.
  - intros why Cp. rewrite Cp in E. exact E.
Qed.

(** *** Every declared output has an entry *)

Lemma extractStringOutput_sets (jsonData : json) (o : WorkflowOutput)
  (out : smap string) (w : world) (out' : smap string) (w' : world) :
  extractStringOutput jsonData o out w = (Returned out', w') ->
  map_has out' (name o) = true.
Proof.
  unfold extractStringOutput, bind, log, modify, ret, throw.
  destruct (is_object jsonData).
  - destruct (index jsonData (name o)) as [|v|text].
    + intros [= <- _]. apply map_has_set_same.
    + destruct (to_string v); [|discriminate].
      intros [= <- _]. apply map_has_set_same.
    + intros [= <- _]. apply map_has_set_same.
  - intros [= <- _]. apply map_has_set_same.
Qed.

Lemma extractEach_sets (jsonData : json) (l : list WorkflowOutput) :
  forall out w out' w',
    extractEach jsonData l out w = (Returned out', w') ->
    forall o, In o l -> map_has out' (name o) = true.
Proof.
  induction l as [|o r IH]; intros out w out' w' H o' Hin; [destruct Hin|].
  cbn [extractEach] in H. unfold bind in H.
  destruct (extractStringOutput jsonData o out w) as [[out1|e] w1] eqn:E;
    [|discriminate].
  destruct Hin as [<-|Hin].
  - eapply keeps_extractEach; [exact H|].
    eapply extractStringOutput_sets; eauto.
  - eapply IH; eauto.
Qed.

Lemma string_stage_sets (c : Config) (responseContent : json)
  (out : smap string) (w : world) (out' : smap string) (w' : world) :
  string_stage c responseContent out w = (Returned out', w') ->
  forall o, In o (outputs (step c)) -> is_string_output o = true ->
            map_has out' (name o) = true.
Proof.
  intros H o Hin Hs.
  assert (F : In o (filter is_string_output (outputs (step c))))
    by (apply filter_In; auto).
  unfold string_stage in H.
  destruct (filter is_string_output (outputs (step c))) as [|o0 l0] eqn:Ef;
    [destruct F|].
  unfold extractStringOutputs, bind in H.
  destruct (recover_json responseContent w) as [[jsonData|e] w1];
    [|discriminate].
  eapply extractEach_sets; eauto.
Qed.

Lemma file_stage_sets (c : Config) (dir : option string)
  (out : smap string) (w : world) (out' : smap string) (w' : world) :
  file_stage c dir out w = (Returned out', w') ->
  forall o, In o (outputs (step c)) -> is_file_output o = true ->
            map_has out' (name o) = true.
Proof.
  intros H o Hin Hs.
  assert (F : In o (filter is_file_output (outputs (step c))))
    by (apply filter_In; auto).
  unfold file_stage in H.
  destruct (filter is_file_output (outputs (step c))) as [|o0 l0] eqn:Ef;
    [destruct F|].
  destruct (extractFileOutputs_returns dir (o0 :: l0) out w)
    as (out2 & w2 & E & Hall).
  rewrite E in H. injection H as <- _. now apply Hall.
Qed.

Lemma output_kind (o : WorkflowOutput) :
  is_string_output o = true \/ is_file_output o = true.
Proof. unfold is_string_output, is_file_output. destruct (type o); auto. Qed.

Lemma parseStepOutputs_sets (c : Config) (raw : string) (out : smap string)
  (dir : option string) (w w' : world) (pr : ParseResult) (out' : smap string) :
  parseStepOutputs c raw out dir w = (Returned (pr, out'), w') ->
  parse_success pr = true ->
  forall o, In o (outputs (step c)) -> map_has out' (name o) = true.
Proof.
  unfold parseStepOutputs, bind, ret.
  destruct (open_envelope (tool c) raw w) as [[env|e] w1];
    [|intros Hf Hs; inversion Hf; subst; discriminate Hs].
  destruct (string_stage c (fst env) out w1) as [[out1|e] w2] eqn:E1;
    [|intros Hf Hs; inversion Hf; subst; discriminate Hs].
  destruct (file_stage c dir out1 w2) as [[out2|e] w3] eqn:E2;
    [|intros Hf Hs; inversion Hf; subst; discriminate Hs].
  intros Hf _ o Hin. inversion Hf; subst.
  destruct (output_kind o) as [Hs|Hfile].
  - eapply keeps_file_stage; [exact E2|].
    eapply string_stage_sets; eauto.
  - eapply file_stage_sets; eauto.
Qed.

Lemma finish_success_sets (c : Config) (p : string) (dir : option string)
  (raw : string) (w w' : world) (r : RunnerStepResult) :
  finish c p dir (Some raw) None w = (Returned r, w') ->
  (forall o, In o (outputs (step c)) ->
             map_has (result_outputs r) (name o) = true) /\
  success r = negb (map_has (result_outputs r) "error") /\
  error r = map_get (result_outputs r) "error".
Proof.
  unfold finish, bind, ret, throw.
  destruct (parseStepOutputs c raw _ dir w) as [[[pr out]|e] w1] eqn:E;
    [|discriminate].
  cbn [fst snd]. destruct (parse_success pr) eqn:S; [|discriminate].
  intros [= <- _]. cbn [result_outputs success error].
  split; [|split; reflexivity].
  eapply parseStepOutputs_sets; eauto.
Qed.


(** A step that declares an output named [error] never succeeds: whenever
    [run] returns, the result has [success] false and an error, also when
    the agent exited with code 0 and every output was found. *)
Theorem run_output_named_error (c : Config) (launch : string -> LaunchResult)
  (dir : option string) (w w' : world) (r : RunnerStepResult)
  (o : WorkflowOutput) :
  run c launch dir w = (Returned r, w') ->
  In o (outputs (step c)) -> name o = "error" ->
  success r = false /\ error r <> None.
Proof.
  unfold run, bind.
  destruct (prompt c w) as [[finalPrompt|why] w1]; [|discriminate].
  destruct (attempt_cases c (launch finalPrompt) finalPrompt w1)
    as (w2 & [(raw & A)|(e & A)]); rewrite A; cbn [fst snd];
    intros H Hin Hname.
  - apply finish_success_sets in H as (Hall & S & Er).
    specialize (Hall o Hin). rewrite Hname in Hall.
    rewrite S, Er, Hall. split; [reflexivity|].
    unfold map_has in Hall.
    destruct (map_get (result_outputs r) "error"); [discriminate|discriminate].
  - destruct (finish_error c finalPrompt dir e w2) as (r0 & w0 & F & _ & S & Er).
    rewrite F in H. injection H as <- _. rewrite S, Er. split; [reflexivity|discriminate].
Qed.

End Outputs.

(** *** The properties on the steps of the examples *)

(** The plan written in the working directory, moved to [/out]. *)
Lemma extractFileOutput_moves_witness :
  exists w',
    extractFileOutput (host := sample_host) (Some "/out") plan_output []
      plan_written
    = (Returned [("f", "/out/plan.md"); ("f_content", "1. fix the bug")], w') /\
    existsSync (host := sample_host) (disk w') "plan.md" = false /\
    readFileSync (host := sample_host) (disk w') "/out/plan.md"
    = Returned "1. fix the bug".
Proof.
  destruct (extractFileOutput_moves (host := sample_host) "/out" "plan.md"
              "1. fix the bug" plan_output [] plan_written)
    as (M & _); try reflexivity; try discriminate.
  destruct M as (w' & E & _ & G & R & _);
    try reflexivity; try discriminate.
  exists w'. auto.
Defined.


(** The step that declares [error] on the same process: exit code 0, the
    output found, and the step is a failure. *)
Lemma run_output_named_error_witness :
  exitCode (passing_launch EmptyString) = Some 0%Z /\
  success (result_of (run (host := sample_host) (sample_config step_review)
                        passing_launch None plan_written)) = false /\
  error (result_of (run (host := sample_host) (sample_config step_review)
                      passing_launch None plan_written)) <> None.
Proof.
  split; [reflexivity|].
  apply (run_output_named_error (host := sample_host)
           (sample_config step_review) passing_launch None plan_written
           plan_written _ error_output).
  - vm_compute. reflexivity.
  - now left.
  - reflexivity.
Defined.

End OutputFacts.

(** ** The prompt of a step *)

Module PromptFacts.
Import Str StrFacts Json JsonFacts Exn Runner RunnerFacts Samples.

(** *** The placeholders of a template *)

Lemma placeholder_here_other (c : ascii) (r : string) :
  (c =? "{")%char = false -> placeholder_here (String c r) = None.
Proof.
  intros H. unfold placeholder_here. cbn [strip_prefix].
  rewrite Ascii.eqb_sym in H. now rewrite H.
Qed.

Lemma matchAll_fuel_skip (pre s : string) (n : nat) :
  lacks "{" pre = true ->
  matchAll_fuel (String.length pre + n) (pre ++ s) = matchAll_fuel n s.
Proof.
  induction pre as [|c pre IH]; [reflexivity|].
  cbn [lacks]. intros H. apply andb_true_iff in H as [Hc Hp].
  apply negb_true_iff in Hc.
  cbn [String.length Nat.add append matchAll_fuel].
  rewrite placeholder_here_other by exact Hc. now apply IH.
Qed.

Lemma matchAll_fuel_lacks (s : string) (n : nat) :
  lacks "{" s = true -> matchAll_fuel n s = [].
Proof.
  revert n. induction s as [|c s IH]; intros n; destruct n; try reflexivity.
  cbn [lacks]. intros H. apply andb_true_iff in H as [Hc Hp].
  apply negb_true_iff in Hc. cbn [matchAll_fuel].
  rewrite placeholder_here_other by exact Hc. now apply IH.
Qed.

Lemma span_until_lacks (c : ascii) (body rest : string) :
  lacks c body = true ->
  span_until c (body ++ String c rest) = (body, String c rest).
Proof.
  induction body as [|d body IH]; cbn [lacks append span_until].
  - intros _. now rewrite Ascii.eqb_refl.
  - intros H. apply andb_true_iff in H as [Hd Hb].
    apply negb_true_iff in Hd. rewrite Hd, IH by exact Hb. reflexivity.
Qed.

Lemma placeholder_here_body (body post : string) :
  body <> EmptyString -> lacks "}" body = true ->
  placeholder_here ("{{" ++ body ++ "}}" ++ post) = Some (body, post).
Proof.
  intros Hne Hb. unfold placeholder_here.
  change ("{{" ++ body ++ "}}" ++ post)
    with ("{{" ++ (body ++ String "}" (String "}" post))).
  rewrite strip_prefix_app, span_until_lacks by exact Hb.
  destruct body as [|d body]; [contradiction|].
  change (String "}" (String "}" post)) with ("}}" ++ post).
  now rewrite strip_prefix_app.
Qed.

Lemma matchAll_fuel_here (f : nat) (s body rest : string) :
  s <> EmptyString -> placeholder_here s = Some (body, rest) ->
  matchAll_fuel (S f) s = ("{{" ++ body ++ "}}", body) :: matchAll_fuel f rest.
Proof.
  intros Hs H. destruct s as [|c r]; [contradiction|].
  cbn [matchAll_fuel]. now rewrite H.
Qed.

(** A template with one placeholder and no other opening brace has one
    match. *)
Lemma matchAll_single (pre body post : string) :
  lacks "{" pre = true -> lacks "{" post = true ->
  body <> EmptyString -> lacks "}" body = true ->
  matchAll (pre ++ "{{" ++ body ++ "}}" ++ post)
  = [("{{" ++ body ++ "}}", body)].
Proof.
  intros Hpre Hpost Hne Hb. unfold matchAll. rewrite length_append.
  rewrite matchAll_fuel_skip by exact Hpre.
  change (String.length ("{{" ++ body ++ "}}" ++ post))
    with (S (S (String.length (body ++ "}}" ++ post)))).
  rewrite (matchAll_fuel_here _ _ body post);
    [|discriminate|now apply placeholder_here_body].
  now rewrite matchAll_fuel_lacks.
Qed.

Lemma split_first_after (a : ascii) (pat pre post : string) :
  lacks a pre = true ->
  split_first (String a pat) (pre ++ String a pat ++ post) = Some (pre, post).
Proof.
  induction pre as [|c pre IH]; cbn [lacks].
  - intros _. cbn [append]. destruct post; cbn [split_first];
      change (String a (pat ++ EmptyString)) with (String a pat ++ EmptyString);
      rewrite ?strip_prefix_app; try reflexivity.
    change (String a (pat ++ String a0 post))
      with (String a pat ++ String a0 post).
    now rewrite strip_prefix_app.
  - intros H. apply andb_true_iff in H as [Hc Hp].
    apply negb_true_iff in Hc.
    change (String c pre ++ String a pat ++ post)
      with (String c (pre ++ String a pat ++ post)).
    cbn [split_first strip_prefix]. rewrite Ascii.eqb_sym in Hc. rewrite Hc.
    now rewrite IH.
Qed.

(** *** The prompt of a template with one placeholder *)

Section Prompt.
Context {host : Host}.

(** The prompt of a template with one placeholder, whatever the placeholder
    resolves to. *)
Lemma prompt_single (c : Config) (w : world) (pre body post : string)
  (r : option string) (ws : list string) :
  prompt_template (step c) = pre ++ "{{" ++ body ++ "}}" ++ post ->
  lacks "{" pre = true -> lacks "{" post = true ->
  body <> EmptyString -> lacks "}" body = true ->
  resolve c (disk w) (trim body) = (r, ws) ->
  prompt c w
  = (Returned
       (match r with
        | Some v => replace (prompt_template (step c)) ("{{" ++ body ++ "}}") v
        | None => prompt_template (step c)
        end ++ generateOutputInstructions (tool c) (outputs (step c))),
     match ws with
     | [] => w
     | _ => {| disk := disk w;
               console :=
                 (console w
                    ++ ((nl ++ "Prompt Template Warnings:")%string
                          :: warning_lines ws))%list |}
     end).
Proof.
  intros Ht Hpre Hpost Hne Hb Hr. unfold prompt. rewrite Ht.
  rewrite matchAll_single by assumption. cbn [substitute]. rewrite Hr.
  cbn [app]. now destruct ws.
Qed.

(** A value without a dollar sign takes the place of the one token of the
    template. *)
Lemma replace_single (pre body post v : string) :
  lacks "{" pre = true -> plain v = true ->
  replace (pre ++ "{{" ++ body ++ "}}" ++ post) ("{{" ++ body ++ "}}") v
  = pre ++ v ++ post.
Proof.
  intros Hpre Hv. apply replace_plain; [exact Hv|].
  change ("{{" ++ body ++ "}}") with (String "{" ("{" ++ body ++ "}}")).
  rewrite <- (split_first_after "{" ("{" ++ body ++ "}}") pre post Hpre).
  cbn [append]. now rewrite !append_assoc.
Qed.

(** When the placeholder resolves to a value without a dollar sign, the
    prompt is the template with the value in the place of the token,
    character for character, followed by the output instructions; nothing is
    logged. *)
Theorem prompt_literal_substitution (c : Config) (w : world)
  (pre body post v : string) :
  prompt_template (step c) = pre ++ "{{" ++ body ++ "}}" ++ post ->
  lacks "{" pre = true -> lacks "{" post = true ->
  body <> EmptyString -> lacks "}" body = true ->
  resolve c (disk w) (trim body) = (Some v, []) ->
  plain v = true ->
  prompt c w
  = (Returned (pre ++ v ++ post
                 ++ generateOutputInstructions (tool c) (outputs (step c))),
     w).
Proof.
  intros Ht Hpre Hpost Hne Hb Hr Hv. unfold prompt. rewrite Ht.
  rewrite matchAll_single by assumption. cbn [substitute]. rewrite Hr.
  cbn [app].
  rewrite (replace_plain _ _ v pre post Hv)
    by (change ("{{" ++ body ++ "}}") with (String "{" ("{" ++ body ++ "}}"));
        rewrite <- (split_first_after "{" ("{" ++ body ++ "}}") pre post Hpre);
        cbn [append]; now rewrite !append_assoc).
  now rewrite !append_assoc.
Qed.

(** When the placeholder does not resolve, the prompt keeps the token as it
    stands in the template, and the warning is logged under the heading of
    the template warnings. *)
Theorem prompt_unresolved_placeholder (c : Config) (w : world)
  (pre body post warning : string) :
  prompt_template (step c) = pre ++ "{{" ++ body ++ "}}" ++ post ->
  lacks "{" pre = true -> lacks "{" post = true ->
  body <> EmptyString -> lacks "}" body = true ->
  resolve c (disk w) (trim body) = (None, [warning]) ->
  prompt c w
  = (Returned (prompt_template (step c)
                 ++ generateOutputInstructions (tool c) (outputs (step c))),
     {| disk := disk w;
        console := (console w
                      ++ [(nl ++ "Prompt Template Warnings:")%string;
                          ("└── " ++ warning)%string])%list |}).
Proof.
  intros Ht Hpre Hpost Hne Hb Hr. unfold prompt. rewrite Ht.
  rewrite matchAll_single by assumption. cbn [substitute]. rewrite Hr.
  reflexivity.
Qed.

(** A template without an opening brace is the prompt, followed by the
    output instructions; nothing is resolved and nothing is logged. *)
Theorem prompt_without_placeholder (c : Config) (w : world) :
  lacks "{" (prompt_template (step c)) = true ->
  prompt c w
  = (Returned (prompt_template (step c)
                 ++ generateOutputInstructions (tool c) (outputs (step c))),
     w).
Proof.
  intros H. unfold prompt, matchAll. now rewrite matchAll_fuel_lacks.
Qed.

(** The prompt of a template whose one placeholder names an output declared
    of type file and recorded under a path.  A readable file gives the
    prompt its content in the place of the placeholder, as it is when the
    content holds no dollar sign; a file that is missing or cannot be read
    gives the prompt the path, and the warning is logged. *)
Lemma prompt_file_output (c : Config) (w : world) (s : WorkflowAgentStep)
  (o : WorkflowOutput) (stepOutputs : smap string) (path : string)
  (pre body post : string) :
  type o = type_file ->
  lacks "." (id s) = true -> lacks "." (name o) = true ->
  List.find (fun s' => String.eqb (id s') (id s)) (steps c) = Some s ->
  List.find (fun o' => String.eqb (name o') (name o)) (outputs s) = Some o ->
  map_get (stepsOutput c) (id s) = Some stepOutputs ->
  map_get stepOutputs (name o) = Some path ->
  prompt_template (step c) = pre ++ "{{" ++ body ++ "}}" ++ post ->
  lacks "{" pre = true -> lacks "{" post = true ->
  body <> EmptyString -> lacks "}" body = true ->
  trim body = "steps." ++ id s ++ ".outputs." ++ name o ->
  let instructions :=
    generateOutputInstructions (tool c) (outputs (step c)) in
  let warned (warning : string) :=
    {| disk := disk w;
       console := (console w
                     ++ [(nl ++ "Prompt Template Warnings:")%string;
                         ("└── " ++ warning)%string])%list |} in
  (forall content,
     readFileSync (disk w) path = Returned content ->
     existsSync (disk w) path = true ->
     prompt c w
     = (Returned (replace (prompt_template (step c)) ("{{" ++ body ++ "}}")
                    content ++ instructions), w) /\
     (plain content = true ->
      prompt c w = (Returned (pre ++ content ++ post ++ instructions), w))) /\
  (existsSync (disk w) path = false -> plain path = true ->
   prompt c w
   = (Returned (pre ++ path ++ post ++ instructions),
      warned ("File '" ++ path ++ "' does not exist"))) /\
  (forall why,
     existsSync (disk w) path = true ->
     readFileSync (disk w) path = Threw why -> plain path = true ->
     prompt c w
     = (Returned (pre ++ path ++ post ++ instructions),
        warned ("Could not read file '" ++ path ++ "': " ++ why))).
Proof.
  intros Ht Ls Lo Fs Fo Hs Hp Htpl Hpre Hpost Hne Hb Hbody instructions warned.
  assert (R : resolve c (disk w) (trim body)
              = (let (v, ws) := loadValueByType (disk w) path type_file in
                 (Some v, ws))).
  { rewrite Hbody. unfold resolve.
    rewrite (split_step_placeholder _ _ Ls Lo).
    change (String.eqb "steps" "steps" && String.eqb "outputs" "outputs")
      with true.
    cbv iota. now rewrite Hs, Hp, Fs, Fo, Ht. }
  unfold loadValueByType in R.
  split; [|split].
  - intros content Hr He. rewrite He, Hr in R.
    pose proof (prompt_single c w pre body post _ _ Htpl Hpre Hpost Hne Hb R)
      as P.
    split; [exact P|]. intros Hv.
    rewrite P, Htpl, replace_single by assumption.
    now rewrite !append_assoc.
  - intros He Hv. rewrite He in R.
    rewrite (prompt_single c w pre body post _ _ Htpl Hpre Hpost Hne Hb R).
    rewrite Htpl, replace_single by assumption.
    now rewrite !append_assoc.
  - intros why He Hr Hv. rewrite He, Hr in R.
    rewrite (prompt_single c w pre body post _ _ Htpl Hpre Hpost Hne Hb R).
    rewrite Htpl, replace_single by assumption.
    now rewrite !append_assoc.
Qed.

End Prompt.

(** *** A file whose content holds a dollar pattern *)

(** C5, the code at a file whose content holds a dollar pattern.  The step
    [s1] recorded its file output [f], declared of type file, under the
    path [/out/plan.md]; the file is readable and holds
    [cost $& and $$5].  The placeholder resolves to that content without a
    warning, and the prompt built from the template
    [{{steps.s1.outputs.f}}] is [cost {{steps.s1.outputs.f}} and $5]: the
    content is not in the prompt. *)
Theorem prompt_file_dollar_pattern :
  map_get (stepsOutput (sample_config step_s2)) "s1"
  = Some [("f", "/out/plan.md")]
  /\ type plan_output = type_file
  /\ readFileSync (host := sample_host) (disk priced_world) "/out/plan.md"
     = Returned "cost $& and $$5"
  /\ resolve (host := sample_host) (sample_config step_s2) (disk priced_world)
       "steps.s1.outputs.f"
     = (Some "cost $& and $$5", [])
  /\ prompt (host := sample_host) (sample_config step_s2) priced_world
     = (Returned "cost {{steps.s1.outputs.f}} and $5", priced_world)
  /\ includes "cost {{steps.s1.outputs.f}} and $5" "cost $& and $$5" = false.
Proof. repeat split; vm_compute; reflexivity. Qed.

(** The same template on a file without a dollar sign, and on a file that
    is not there. *)
Example prompt_file_output_example :
  prompt (host := sample_host) (sample_config step_s2) sample_world
  = (Returned "hello", sample_world) /\
  prompt (host := sample_host) (sample_config step_s2)
    {| disk := []; console := [] |}
  = (Returned "/out/plan.md",
     {| disk := [];
        console := [(nl ++ "Prompt Template Warnings:")%string;
                    "└── File '/out/plan.md' does not exist"] |}).
Proof.
  assert (B : "steps.s1.outputs.f" <> EmptyString) by discriminate.
  destruct (prompt_file_output (host := sample_host) (sample_config step_s2)
              sample_world step_s1 plan_output [("f", "/out/plan.md")]
              "/out/plan.md" EmptyString "steps.s1.outputs.f" EmptyString
              eq_refl eq_refl eq_refl eq_refl eq_refl eq_refl eq_refl
              eq_refl eq_refl eq_refl B eq_refl eq_refl) as (F & _).
  destruct (prompt_file_output (host := sample_host) (sample_config step_s2)
              {| disk := []; console := [] |} step_s1 plan_output
              [("f", "/out/plan.md")]
              "/out/plan.md" EmptyString "steps.s1.outputs.f" EmptyString
              eq_refl eq_refl eq_refl eq_refl eq_refl eq_refl eq_refl
              eq_refl eq_refl eq_refl B eq_refl eq_refl) as (_ & M & _).
  split.
  - apply (F "hello"); reflexivity.
  - apply M; reflexivity.
Qed.

(** *** The properties on the steps of the examples *)

Lemma prompt_literal_substitution_witness :
  prompt (host := sample_host) (sample_config step_s1) sample_world
  = (Returned ("Plan the task " ++ "fix the bug" ++ EmptyString
                 ++ generateOutputInstructions "codex" (outputs step_s1)),
     sample_world).
Proof.
  apply (prompt_literal_substitution (host := sample_host)
           (sample_config step_s1) sample_world
           "Plan the task " "inputs.task" EmptyString "fix the bug");
    try reflexivity; discriminate.
Defined.

Lemma prompt_unresolved_placeholder_witness :
  prompt (host := sample_host) (sample_config step_deploy) sample_world
  = (Returned "Deploy to {{inputs.target}} now",
     {| disk := disk sample_world;
        console := [(nl ++ "Prompt Template Warnings:")%string;
                    "└── Input 'target' not provided"] |}).
Proof.
  apply (prompt_unresolved_placeholder (host := sample_host)
           (sample_config step_deploy) sample_world
           "Deploy to " "inputs.target" " now" "Input 'target' not provided");
    try reflexivity; discriminate.
Defined.

Lemma prompt_without_placeholder_witness :
  prompt (host := sample_host) (sample_config step_summary) sample_world
  = (Returned "Summarise the work", sample_world).
Proof.
  apply (prompt_without_placeholder (host := sample_host)
           (sample_config step_summary) sample_world).
  reflexivity.
Defined.

End PromptFacts.

(** ** The run command *)

Module RunCommandFacts.
Import Str StrFacts Json Exn Runner RunnerFacts OutputFacts RunCommand.

(** *** The tool and the mode *)

(** The run command sends a tool to the session runner exactly when the
    session runner has a command to spawn for it, so the connection of a
    run in session mode never fails for want of a command; such a tool is
    also one of the agents of the command line. *)
Theorem acp_mode_has_spawn_command (agentTool defaultsTool : option string) :
  let tool := selectTool agentTool defaultsTool in
  tool <> EmptyString /\
  (useACPMode tool = true <-> returned (getACPSpawnCommand tool) = true) /\
  (useACPMode tool = true -> returned (getAIAgentTool tool) = true).
Proof.
  intros tool. split.
  - subst tool. unfold selectTool, or_string.
    destruct agentTool as [a|]; [destruct (String.eqb_spec a EmptyString)|];
      try assumption;
      (destruct defaultsTool as [d|];
       [destruct (String.eqb_spec d EmptyString)|]; try assumption;
       discriminate).
  - unfold useACPMode, getACPSpawnCommand, getAIAgentTool, acpEnabledTools.
    cbn [existsb]. generalize (toLowerCase tool) as t. intros t.
    destruct (String.eqb_spec t "claude") as [->|N1]; [now split|].
    destruct (String.eqb_spec t "copilot") as [->|N2]; [now split|].
    destruct (String.eqb_spec t "opencode") as [->|N3]; [now split|].
    cbn. split; [split|]; discriminate.
Qed.

(** *** The defaults of the inputs *)

Lemma addDefaults_spec (declared : list WorkflowInput) :
  forall inputs defs merged names,
    addDefaults declared inputs defs = Returned (merged, names) ->
    (forall k v, map_get inputs k = Some v -> map_get merged k = Some v) /\
    (forall k, In k names ->
               In k defs \/ (map_has inputs k = false /\
                             In k (map input_name declared))) /\
    (forall i, In i declared -> input_default i <> JUndef ->
               map_has merged (input_name i) = true).
Proof.
  induction declared as [|i rest IH]; intros inputs defs merged names.
  - intros [= <- <-]. split; [auto|]. split; [auto|]. intros i [].
  - cbn [addDefaults].
    destruct (negb (map_has inputs (input_name i))
              && match input_default i with JUndef => false | _ => true end)
      eqn:T.
    + apply andb_true_iff in T as [Hh Hd]. apply negb_true_iff in Hh.
      destruct (to_string (input_default i)) as [text|]; [|discriminate].
      intros H. destruct (IH _ _ _ _ H) as (A & B & C).
      split; [|split].
      * intros k v G. apply A.
        destruct (String.eqb_spec (input_name i) k) as [<-|N].
        -- unfold map_has in Hh. rewrite G in Hh. discriminate.
        -- now rewrite map_get_set_other.
      * intros k Hk. destruct (B k Hk) as [Hk'|[Hk1 Hk2]].
        -- apply in_app_or in Hk' as [?|[<-|[]]]; [now left|].
           right. split; [exact Hh|now left].
        -- right. split; [|now right].
           destruct (String.eqb_spec (input_name i) k) as [<-|N];
             [exact Hh|].
           unfold map_has in *. now rewrite map_get_set_other in Hk1.
      * intros i' [<-|Hin] Hd'; [|now apply C].
        unfold map_has.
        now rewrite (A _ text (map_get_set_same _ _ _)).
    + intros H. destruct (IH _ _ _ _ H) as (A & B & C).
      split; [exact A|]. split.
      * intros k Hk. destruct (B k Hk) as [?|[? ?]]; [now left|].
        right. split; [assumption|now right].
      * intros i' [<-|Hin] Hd'; [|now apply C].
        apply andb_false_iff in T as [T|T].
        -- apply negb_false_iff in T. unfold map_has in *.
           destruct (map_get inputs (input_name i)) as [v|] eqn:G;
             [|discriminate].
           now rewrite (A _ _ G).
        -- destruct (input_default i); congruence.
Qed.

(** A value that the user provides is never replaced by a default: after
    the defaults are added the provided entries are as they were, the names
    reported as defaults were not provided, and every input that declares a
    default has a value. *)
Theorem addDefaults_keeps_provided (declared : list WorkflowInput)
  (provided merged : smap string) (names : list string) :
  addDefaults declared provided [] = Returned (merged, names) ->
  (forall k v, map_get provided k = Some v -> map_get merged k = Some v) /\
  (forall k, In k names ->
             map_has provided k = false /\ In k (map input_name declared)) /\
  (forall i, In i declared -> input_default i <> JUndef ->
             map_has merged (input_name i) = true).
Proof.
  intros H. destruct (addDefaults_spec _ _ _ _ _ H) as (A & B & C).
  split; [exact A|]. split; [|exact C].
  intros k Hk. destruct (B k Hk) as [[]|?]. assumption.
Qed.

Lemma addDefaults_keeps_provided_witness :
  addDefaults sample_declared [("task", "fix the bug")] []
  = Returned ([("task", "fix the bug"); ("depth", "3")], ["depth"]) /\
  map_get [("task", "fix the bug"); ("depth", "3")] "task"
  = Some "fix the bug" /\
  map_has [("task", "fix the bug")] "depth" = false /\
  map_has [("task", "fix the bug"); ("depth", "3")] "depth" = true.
Proof.
  destruct (addDefaults_keeps_provided sample_declared
              [("task", "fix the bug")]
              [("task", "fix the bug"); ("depth", "3")] ["depth"] eq_refl)
    as (A & B & C).
  split; [reflexivity|]. split; [apply A; reflexivity|]. split.
  - apply (B "depth"). now left.
  - apply (C {| input_name := "depth"; input_default := JNum 3 |}).
    + right. now left.
    + discriminate.
Defined.

(** *** The loop over the steps *)

Lemma map_has_set_other {V : Type} (m : smap V) (k k' : string) (v : V) :
  k <> k' -> map_has (map_set m k v) k' = map_has m k'.
Proof. intros N. unfold map_has. now rewrite map_get_set_other. Qed.

Lemma keys_map_set_new {V : Type} (m : smap V) (k : string) (v : V) :
  map_has m k = false ->
  map fst (map_set m k v) = (map fst m ++ [k])%list.
Proof. intros H. now rewrite keys_map_set, H. Qed.

Section Steps.
Context {host : Host}.

(** One turn of the loop on a step that the workflow has not run yet. *)
Lemma fresh_after_set (todo : list WorkflowAgentStep) (s : WorkflowAgentStep)
  (m : smap (smap string)) (v : smap string) :
  NoDup (map id (s :: todo)) ->
  (forall s', In s' (s :: todo) -> map_has m (id s') = false) ->
  forall s', In s' todo -> map_has (map_set m (id s) v) (id s') = false.
Proof.
  intros Hn Hf s' Hin. cbn [map] in Hn. inversion Hn as [|? ? Hnot _]; subst.
  rewrite map_has_set_other.
  - apply Hf. now right.
  - intros E. apply Hnot. rewrite E. now apply in_map.
Qed.

Lemma run_steps_continue (S : Setup) :
  continueOnError S = true ->
  forall todo p w p' w',
    run_steps S todo p w = (Returned p', w') ->
    NoDup (map id todo) ->
    (forall s, In s todo -> map_has (outputs_so_far p) (id s) = false) ->
    map fst (outputs_so_far p')
    = (map fst (outputs_so_far p) ++ map id todo)%list /\
    runSteps p' = (runSteps p + Z.of_nat (List.length todo))%Z /\
    lastFailureCause p' = lastFailureCause p.
Proof.
  intros Hc. induction todo as [|s rest IH]; intros p w p' w' H Hn Hf.
  - injection H as <- _. cbn [map List.length Z.of_nat].
    rewrite List.app_nil_r. repeat split. lia.
  - cbn [run_steps] in H.
    destruct (new_runner S (id s)) as [choice|why]; [|discriminate].
    unfold bind at 1 in H.
    match type of H with
    | context [run ?c ?l ?o w] =>
        destruct (run c l o w) as [[result|why] w1]; [|discriminate]
    end.
    assert (Hs : map_has (outputs_so_far p) (id s) = false)
      by (apply Hf; now left).
    assert (Hn' : NoDup (map id rest)) by (now inversion Hn).
    destruct (success result).
    + apply IH in H as (K & R & L);
        [|exact Hn'|cbn [outputs_so_far]; now apply (fresh_after_set rest s)].
      cbn [outputs_so_far runSteps lastFailureCause] in K, R, L.
      rewrite keys_map_set_new in K by exact Hs.
      rewrite K, R, L. cbn [map List.length]. rewrite <- List.app_assoc.
      repeat split. lia.
    + rewrite Hc in H. unfold bind, log, modify in H. cbn beta iota in H.
      apply IH in H as (K & R & L);
        [|exact Hn'|cbn [outputs_so_far]; now apply (fresh_after_set rest s)].
      cbn [outputs_so_far runSteps lastFailureCause] in K, R, L.
      rewrite keys_map_set_new in K by exact Hs.
      rewrite K, R, L. cbn [map List.length]. rewrite <- List.app_assoc.
      repeat split. lia.
Qed.


(** With [continueOnError] the command ends as a success whatever the steps
    returned: every step is run, a step that failed leaves an entry in the
    outputs of the steps like one that succeeded, so no step counts as
    failed, the status manager is told that the workflow completed and the
    exit code is 0. *)
Theorem continueOnError_reports_success (S : Setup) (w w' : world)
  (p : Progress) :
  continueOnError S = true ->
  NoDup (map id (workflow_steps S)) ->
  run_steps S (workflow_steps S) start w = (Returned p, w') ->
  map fst (outputs_so_far p) = map id (workflow_steps S) /\
  runSteps p = Z.of_nat (List.length (workflow_steps S)) /\
  failedSteps p = 0%Z /\
  runWorkflow S w = (Returned (Complete, 0%Z), w').
Proof.
  intros Hc Hn H.
  destruct (run_steps_continue S Hc _ _ _ _ _ H Hn) as (K & R & L);
    [reflexivity|].
  cbn [start outputs_so_far runSteps lastFailureCause map app Z.add] in K, R, L.
  assert (F : failedSteps p = 0%Z).
  { unfold failedSteps. rewrite R.
    rewrite <- (length_map fst (outputs_so_far p)), K, length_map. lia. }
  repeat split; try assumption.
  unfold runWorkflow, bind, try_catch. rewrite H. unfold ret at 1.
  cbn beta iota. unfold summarize. rewrite F. reflexivity.
Qed.


End Steps.

Lemma continueOnError_reports_success_witness :
  continueOnError (failing_setup true) = true /\
  progress_of (sample_loop true)
  = {| outputs_so_far := [("s1", [])]; runSteps := 1;
       lastFailureCause := None |} /\
  runWorkflow (host := sample_host) (failing_setup true) sample_world
  = (Returned (Complete, 0%Z), snd (sample_loop true)).
Proof.
  assert (H : run_steps (host := sample_host) (failing_setup true)
                (workflow_steps (failing_setup true)) start sample_world
              = (Returned (progress_of (sample_loop true)),
                 snd (sample_loop true)))
    by (vm_compute; reflexivity).
  assert (Hn : NoDup (map id (workflow_steps (failing_setup true))))
    by (cbn; repeat constructor; intros []).
  destruct (continueOnError_reports_success (host := sample_host)
              (failing_setup true) _ _ _ eq_refl Hn H) as (_ & _ & _ & W).
  split; [reflexivity|]. split; [vm_compute; reflexivity|exact W].
Defined.


End RunCommandFacts.

(** ** A step whose outputs cannot be parsed *)

Module RunFailureFacts.
Import Str StrFacts Json Exn Runner RunnerFacts OutputFacts RunCommand
  RunFailure.

Section Throws.
Context {host : Host}.

Lemma open_envelope_returns (tool raw : string) (w : world) :
  exists env w', open_envelope tool raw w = (Returned env, w').
Proof.
  unfold open_envelope, bind, ret, log, modify.
  destruct (toolUsesJsonFormat tool); [|eexists; eexists; reflexivity].
  destruct (parse raw) as [[]|]; try (eexists; eexists; reflexivity);
    destruct (extractUsageStats _); eexists; eexists; reflexivity.
Qed.

Lemma file_stage_returns (c : Config) (dir : option string)
  (out : smap string) (w : world) :
  exists out' w', file_stage c dir out w = (Returned out', w').
Proof.
  unfold file_stage.
  destruct (List.filter is_file_output (outputs (step c))) as [|o l];
    [eexists; eexists; reflexivity|].
  destruct (extractFileOutputs_returns dir (o :: l) out w)
    as (out' & w' & E & _).
  eexists; eexists; exact E.
Qed.

Lemma parseStepOutputs_returns (c : Config) (raw : string)
  (out : smap string) (dir : option string) (w : world) :
  exists r w', parseStepOutputs c raw out dir w = (Returned r, w').
Proof.
  unfold parseStepOutputs.
  match goal with
  | |- context [match ?a w with _ => _ end] =>
      destruct (a w) as [[[u out']|why] w1]
  end; eexists; eexists; reflexivity.
Qed.

Lemma parseStepOutputs_fails (c : Config) (raw : string) (out : smap string)
  (dir : option string) (w w' : world) (pr : ParseResult)
  (out' : smap string) :
  parseStepOutputs c raw out dir w = (Returned (pr, out'), w') ->
  parse_success pr = false ->
  (exists why, parse_error pr = Some ("Failed to parse outputs: " ++ why)) /\
  exists o, In o (outputs (step c)) /\ type o = type_string.
Proof.
  unfold parseStepOutputs, bind, ret.
  destruct (open_envelope_returns (tool c) raw w) as (env & w1 & ->).
  destruct (string_stage c (fst env) out w1) as [[out1|why] w2] eqn:E1.
  - destruct (file_stage_returns c dir out1 w2) as (out2 & w3 & ->).
    intros [= <- _ _] F. discriminate F.
  - intros [= <- _ _] _. split; [eexists; reflexivity|].
    unfold string_stage in E1.
    destruct (List.filter is_string_output (outputs (step c))) as [|o l] eqn:Fl;
      [discriminate E1|].
    assert (Hin : In o (List.filter is_string_output (outputs (step c))))
      by (rewrite Fl; now left).
    apply filter_In in Hin as [Hin Hs]. exists o. split; [exact Hin|].
    unfold is_string_output in Hs. now destruct (type o).
Qed.

Lemma run_throw_cases (c : Config)
  (launch : string -> LaunchResult) (dir : option string) (w w' : world)
  (why : string) :
  run c launch dir w = (Threw why, w') ->
  (exists e, why = "Failed to parse outputs: " ++ e) /\
  (exists o, In o (outputs (step c)) /\ type o = type_string) /\
  exists finalPrompt w1 raw w2,
    prompt c w = (Returned finalPrompt, w1) /\
    attempt c (launch finalPrompt) finalPrompt w1
    = (Returned (Some raw, None), w2).
Proof.
  unfold run, bind.
  destruct (prompt c w) as [[finalPrompt|e] w1] eqn:P.
  2:{ exfalso. revert P. unfold prompt.
      destruct (substitute _ _ _ _ _) as [fp [|x l]]; discriminate. }
  destruct (attempt_cases c (launch finalPrompt) finalPrompt w1)
    as (w2 & [(raw & A)|(e & A)]); rewrite A; cbn [fst snd]; intros H.
  - assert (G : (exists e, why = "Failed to parse outputs: " ++ e) /\
                exists o, In o (outputs (step c)) /\ type o = type_string).
    { revert H. unfold finish, bind, ret, throw.
      match goal with
      | |- context [parseStepOutputs c raw ?o dir w2] =>
          destruct (parseStepOutputs_returns c raw o dir w2)
            as ([pr out] & w3 & E); rewrite E
      end.
      cbn [fst snd]. destruct (parse_success pr) eqn:S.
      - destruct (usage pr); discriminate.
      - destruct (parseStepOutputs_fails _ _ _ _ _ _ _ _ E S)
          as ((e & Pe) & Ho).
        rewrite Pe. cbn [String.eqb append]. intros [= <- _].
        split; [eexists; reflexivity|exact Ho]. }
    destruct G as (G1 & G2). split; [exact G1|]. split; [exact G2|].
    exists finalPrompt, w1, raw, w2. split; [reflexivity|exact A].
  - destruct (finish_error c finalPrompt dir e w2) as (r0 & w0 & F & _).
    rewrite F in H. discriminate H.
Qed.

(** [run] throws only when the outputs of a process that ended well, or
    was recovered, cannot be parsed: the message says so, and the step
    declares a string output, since reading the envelope and the file
    outputs never throws.  A process that failed never makes [run] throw. *)
Theorem run_throws_on_string_output (c : Config)
  (launch : string -> LaunchResult) (dir : option string) (w w' : world)
  (why : string) :
  run c launch dir w = (Threw why, w') ->
  (exists e, why = "Failed to parse outputs: " ++ e) /\
  (exists o, In o (outputs (step c)) /\ type o = type_string) /\
  exists finalPrompt w1 raw w2,
    prompt c w = (Returned finalPrompt, w1) /\
    attempt c (launch finalPrompt) finalPrompt w1
    = (Returned (Some raw, None), w2).
Proof.
  intros H. destruct (run_throw_cases _ _ _ _ _ _ H) as (He & Ho & Ha).
  split; [exact He|]. split; [exact Ho|exact Ha].
Qed.

Lemma run_steps_throw (S : Setup) :
  forall todo p w w' why,
    run_steps S todo p w = (Threw why, w') ->
    exists s, In s todo /\
      match new_runner S (id s) with
      | Threw e => why = e
      | Returned choice =>
          (exists e, why = "Failed to parse outputs: " ++ e) /\
          exists o, In o (outputs (chosen_step choice)) /\
                    type o = type_string
      end.
Proof.
  induction todo as [|s rest IH]; intros p w w' why H; [discriminate H|].
  cbn [run_steps] in H.
  destruct (new_runner S (id s)) as [choice|e] eqn:N.
  - unfold bind at 1 in H.
    match type of H with
    | context [run ?c ?l ?o w] =>
        destruct (run c l o w) as [[result|e] w1] eqn:Rn
    end.
    + assert (G : exists p1 w1', run_steps S rest p1 w1' = (Threw why, w')).
      { destruct (success result); [eexists; eexists; exact H|].
        destruct (continueOnError S).
        - unfold bind, log, modify in H. cbn beta iota in H.
          eexists; eexists; exact H.
        - discriminate H. }
      destruct G as (p1 & w1' & G). destruct (IH _ _ _ _ G) as (s' & Hin & Hs).
      exists s'. split; [now right|exact Hs].
    + injection H as <- _. exists s. split; [now left|]. rewrite N.
      destruct (run_throw_cases _ _ _ _ _ _ Rn) as (He & Ho & _).
      split; [exact He|exact Ho].
  - injection H as <- _. exists s. split; [now left|]. now rewrite N.
Qed.

(** An error thrown while the steps run ends the command as a failure of
    the workflow, with the message of the error and exit code 1, whatever
    [continueOnError] says.  The error comes from a step whose runner could
    not be built or whose outputs could not be parsed. *)
Theorem thrown_step_fails_workflow (S : Setup) (w w' : world)
  (why : string) :
  run_steps S (workflow_steps S) start w = (Threw why, w') ->
  runWorkflow S w
  = (Returned (Fail "Workflow execution" (or_string (Some why) "Unknown error"),
               1%Z),
     logged w' (nl ++ "✗ " ++ why)) /\
  exists s, In s (workflow_steps S) /\
    match new_runner S (id s) with
    | Threw e => why = e
    | Returned choice =>
        (exists e, why = "Failed to parse outputs: " ++ e) /\
        exists o, In o (outputs (chosen_step choice)) /\ type o = type_string
    end.
Proof.
  intros H. split.
  - unfold runWorkflow, bind at 1, try_catch, bind at 1.
    rewrite H. reflexivity.
  - exact (run_steps_throw S _ _ _ _ _ H).
Qed.

End Throws.

Lemma run_throws_on_string_output_witness :
  run (host := sample_host)
    {| step := step_classify; steps := [step_classify]; inputs := [];
       stepsOutput := []; tool := "codex"; stepTimeout := 60 |}
    object_launch None sample_world
  = (Threw "Failed to parse outputs: Cannot convert object to primitive value",
     sample_world) /\
  exists o, In o (outputs step_classify) /\ type o = type_string.
Proof.
  assert (H : run (host := sample_host)
                {| step := step_classify; steps := [step_classify];
                   inputs := []; stepsOutput := []; tool := "codex";
                   stepTimeout := 60 |}
                object_launch None sample_world
              = (Threw "Failed to parse outputs: Cannot convert object to primitive value",
                 sample_world))
    by (vm_compute; reflexivity).
  split; [exact H|].
  destruct (run_throws_on_string_output (host := sample_host) _ _ _ _ _ _ H)
    as (_ & Ho & _).
  exact Ho.
Defined.

Lemma thrown_step_fails_workflow_witness :
  continueOnError (unparsed_setup true) = true /\
  fst (runWorkflow (host := sample_host) (unparsed_setup true) sample_world)
  = Returned
      (Fail "Workflow execution"
         "Failed to parse outputs: Cannot convert object to primitive value",
       1%Z).
Proof.
  assert (H : run_steps (host := sample_host) (unparsed_setup true)
                (workflow_steps (unparsed_setup true)) start sample_world
              = (Threw "Failed to parse outputs: Cannot convert object to primitive value",
                 sample_world))
    by (vm_compute; reflexivity).
  split; [reflexivity|].
  destruct (thrown_step_fails_workflow (host := sample_host) _ _ _ _ H)
    as [E _].
  rewrite E. reflexivity.
Defined.

End RunFailureFacts.

(** ** File outputs from one step to the next *)

Module SessionFacts.
Import Str StrFacts Json Exn Runner RunnerFacts OutputFacts PromptFacts Session.

Section Files.
Context {host : Host}.

Lemma append_length (a b : string) :
  String.length (a ++ b) = String.length a + String.length b.
Proof. induction a as [|c a IH]; cbn; [reflexivity|now rewrite IH]. Qed.

Lemma content_key_differs (n : string) : n <> n ++ "_content".
Proof.
  intros E. apply (f_equal String.length) in E.
  rewrite append_length in E. cbn in E. lia.
Qed.

(** What a file that the agent wrote leaves in the map, in both runners,
    when the move, if there is one, goes through. *)
Lemma extractFileOutput_found (dir : option string) (o : WorkflowOutput)
  (out : smap string) (w : world) (f content : string) :
  filename o = Some f -> f <> EmptyString ->
  map_get (disk w) (path_resolve f) = Some (Readable content) ->
  (forall d, dir = Some d -> d <> EmptyString ->
             let p := path_join d (path_basename f) in
             path_resolve p <> path_resolve f /\
             copy_refused (disk w) f p = None /\
             remove_refused
               (map_set (disk w) (path_resolve p) (Readable content)) f
             = None) ->
  exists p w',
    Runner.extractFileOutput dir o out w
    = (Returned (map_set (map_set out (name o) p) (name o ++ "_content") content),
       w') /\
    Session.extractFileOutput dir o out w
    = (Returned (map_set (map_set out (name o) p) (name o ++ "_content") content),
       w') /\
    console w' = console w /\
    map_get (disk w') (path_resolve p) = Some (Readable content).
Proof.
  intros Hf Nf Hc Hd.
  unfold Runner.extractFileOutput, Session.extractFileOutput, try_catch.
  rewrite Hf. apply String.eqb_neq in Nf. rewrite Nf.
  assert (He : existsSync (disk w) f = true)
    by (unfold existsSync, map_has; now rewrite Hc).
  rewrite He. cbv zeta.
  assert (Stay : readFileSync (disk w) f = Returned content)
    by (unfold readFileSync; now rewrite Hc).
  destruct dir as [d|].
  - destruct (String.eqb_spec d EmptyString) as [->|Nd].
    + cbn [fst snd]. rewrite Stay. exists f. eexists.
      split; [reflexivity|]. split; [reflexivity|].
      split; [reflexivity|exact Hc].
    + destruct (Hd d eq_refl Nd) as (Np & Cp & Rm).
      unfold copyFileSync. rewrite Hc, Cp. unfold rmSync.
      assert (Hh : map_has (map_set (disk w)
                              (path_resolve (path_join d (path_basename f)))
                              (Readable content)) (path_resolve f) = true).
      { unfold map_has. rewrite map_get_set_other by exact Np.
        now rewrite Hc. }
      rewrite Hh, Rm. cbn [fst snd].
      assert (G : map_get (rm (map_set (disk w)
                                 (path_resolve (path_join d (path_basename f)))
                                 (Readable content)) (path_resolve f))
                    (path_resolve (path_join d (path_basename f)))
                  = Some (Readable content)).
      { rewrite map_get_rm_other by exact Np. apply map_get_set_same. }
      unfold readFileSync. rewrite G.
      exists (path_join d (path_basename f)). eexists.
      split; [reflexivity|]. split; [reflexivity|].
      split; [reflexivity|exact G].
  - cbn [fst snd]. rewrite Stay. exists f. eexists.
    split; [reflexivity|]. split; [reflexivity|].
    split; [reflexivity|exact Hc].
Qed.

(** The prompt of the session runner for a template with one placeholder,
    whatever the placeholder resolves to. *)
Lemma buildACPPrompt_single (c : Config) (w : world) (pre body post : string)
  (r : option string) (ws : list string) :
  prompt_template (step c) = pre ++ "{{" ++ body ++ "}}" ++ post ->
  lacks "{" pre = true -> lacks "{" post = true ->
  body <> EmptyString -> lacks "}" body = true ->
  ACPRunner.resolve c (trim body) = (r, ws) ->
  ACPRunner.buildACPPrompt c w
  = (Returned
       (match r with
        | Some v => replace (prompt_template (step c)) ("{{" ++ body ++ "}}") v
        | None => prompt_template (step c)
        end ++ ACPRunner.generateOutputInstructions (outputs (step c))),
     match ws with
     | [] => w
     | _ => {| disk := disk w;
               console :=
                 (console w
                    ++ ((nl ++ "Prompt Template Warnings:")%string
                          :: warning_lines ws))%list |}
     end).
Proof.
  intros Ht Hpre Hpost Hne Hb Hr. unfold ACPRunner.buildACPPrompt. rewrite Ht.
  rewrite matchAll_single by assumption. cbn [ACPRunner.substitute].
  rewrite Hr. cbn [app]. now destruct ws.
Qed.

(** What the placeholder of a declared file output resolves to, in both
    runners, from what the step recorded. *)
Lemma resolve_recorded_file (c : Config) (fs : files) (s : WorkflowAgentStep)
  (o : WorkflowOutput) (stepOutputs : smap string) (value : string) :
  type o = type_file ->
  lacks "." (id s) = true -> lacks "." (name o) = true ->
  List.find (fun s' => String.eqb (id s') (id s)) (steps c) = Some s ->
  List.find (fun o' => String.eqb (name o') (name o)) (outputs s) = Some o ->
  map_get (stepsOutput c) (id s) = Some stepOutputs ->
  map_get stepOutputs (name o) = Some value ->
  let placeholder := "steps." ++ id s ++ ".outputs." ++ name o in
  Runner.resolve c fs placeholder
  = (let (v, ws) := loadValueByType fs value type_file in (Some v, ws)) /\
  ACPRunner.resolve c placeholder
  = match map_get stepOutputs (name o ++ "_content") with
    | Some fileContent =>
        if String.eqb fileContent EmptyString then
          (None, ["File content for '" ++ name o ++ "' not found in step '"
                    ++ id s ++ "'"])
        else (Some fileContent, [])
    | None =>
        (None, ["File content for '" ++ name o ++ "' not found in step '"
                  ++ id s ++ "'"])
    end.
Proof.
  intros Ht Ls Lo Fs Fo Hs K1 placeholder. subst placeholder.
  unfold Runner.resolve, ACPRunner.resolve.
  rewrite (split_step_placeholder _ _ Ls Lo).
  change (String.eqb "steps" "steps" && String.eqb "outputs" "outputs")
    with true.
  cbv iota. rewrite Hs, K1, Fs, Fo. cbn [option_map]. rewrite Ht.
  split; reflexivity.
Qed.

(** A file output reaches the prompt of a later step as the content of
    the file.  A step records a file that its agent wrote in the same way
    in both runners, after the move to the output directory when there is
    one and it goes through.  For a later step whose template holds the
    placeholder of that output and no other opening brace, the subprocess
    runner reads the content again from where the file now is and the
    session runner takes it from the map; the content takes the place of
    the placeholder through [replace], so it stands in the prompt as it is
    when it holds no dollar sign.  The session runner leaves the
    placeholder of an empty file as it is, with a warning. *)
Theorem file_output_handover (dir : option string) (o : WorkflowOutput)
  (out : smap string) (w : world) (f content : string)
  (c : Config) (s : WorkflowAgentStep) (stepOutputs : smap string)
  (pre body post : string) :
  filename o = Some f -> f <> EmptyString -> type o = type_file ->
  map_get (disk w) (path_resolve f) = Some (Readable content) ->
  (forall d, dir = Some d -> d <> EmptyString ->
             let p := path_join d (path_basename f) in
             path_resolve p <> path_resolve f /\
             copy_refused (disk w) f p = None /\
             remove_refused
               (map_set (disk w) (path_resolve p) (Readable content)) f
             = None) ->
  lacks "." (id s) = true -> lacks "." (name o) = true ->
  List.find (fun s' => String.eqb (id s') (id s)) (steps c) = Some s ->
  List.find (fun o' => String.eqb (name o') (name o)) (outputs s) = Some o ->
  map_get (stepsOutput c) (id s) = Some stepOutputs ->
  prompt_template (step c) = pre ++ "{{" ++ body ++ "}}" ++ post ->
  lacks "{" pre = true -> lacks "{" post = true ->
  body <> EmptyString -> lacks "}" body = true ->
  trim body = "steps." ++ id s ++ ".outputs." ++ name o ->
  exists out' w',
    Runner.extractFileOutput dir o out w = (Returned out', w') /\
    Session.extractFileOutput dir o out w = (Returned out', w') /\
    ((forall k, k = name o \/ k = name o ++ "_content" ->
                map_get stepOutputs k = map_get out' k) ->
     prompt c w'
     = (Returned
          (replace (prompt_template (step c)) ("{{" ++ body ++ "}}") content
             ++ Runner.generateOutputInstructions (tool c) (outputs (step c))),
        w') /\
     (plain content = true ->
      prompt c w'
      = (Returned
           (pre ++ content ++ post
              ++ Runner.generateOutputInstructions (tool c) (outputs (step c))),
         w')) /\
     (plain content = true -> content <> EmptyString ->
      ACPRunner.buildACPPrompt c w'
      = (Returned
           (pre ++ content ++ post
              ++ ACPRunner.generateOutputInstructions (outputs (step c))),
         w')) /\
     (content = EmptyString ->
      ACPRunner.buildACPPrompt c w'
      = (Returned
           (prompt_template (step c)
              ++ ACPRunner.generateOutputInstructions (outputs (step c))),
         {| disk := disk w';
            console :=
              (console w'
                 ++ ((nl ++ "Prompt Template Warnings:")%string
                       :: warning_lines
                            [("File content for '" ++ name o
                                ++ "' not found in step '" ++ id s
                                ++ "'")%string]))%list
         |}))).
Proof.
  intros Hf Nf Ht Hc Hd Ls Lo Fs Fo Hs Htpl Hpre Hpost Hne Hb Hbody.
  destruct (extractFileOutput_found dir o out w f content Hf Nf Hc Hd)
    as (p & w' & E1 & E2 & _ & G).
  eexists. exists w'. split; [exact E1|]. split; [exact E2|].
  intros Hk.
  pose proof (Hk _ (or_introl eq_refl)) as K1.
  pose proof (Hk _ (or_intror eq_refl)) as K2.
  rewrite map_get_set_other in K1 by (apply not_eq_sym, content_key_differs).
  rewrite map_get_set_same in K1, K2.
  destruct (resolve_recorded_file c (disk w') s o stepOutputs p
              Ht Ls Lo Fs Fo Hs K1) as [R A].
  cbv zeta in R, A. rewrite <- Hbody in R, A. rewrite K2 in A.
  assert (L : loadValueByType (disk w') p type_file = (content, [])).
  { unfold loadValueByType, existsSync, readFileSync, map_has. now rewrite G. }
  rewrite L in R.
  pose proof (prompt_single c w' pre body post _ _ Htpl Hpre Hpost Hne Hb R)
    as P.
  split; [exact P|]. split; [|split].
  - intros Hv. rewrite P, Htpl, replace_single by assumption.
    now rewrite !append_assoc.
  - intros Hv Nc. apply String.eqb_neq in Nc. rewrite Nc in A.
    rewrite (buildACPPrompt_single c w' pre body post _ _
               Htpl Hpre Hpost Hne Hb A).
    rewrite Htpl, replace_single by assumption.
    now rewrite !append_assoc.
  - intros ->. change (String.eqb EmptyString EmptyString) with true in A.
    rewrite (buildACPPrompt_single c w' pre body post _ _
               Htpl Hpre Hpost Hne Hb A).
    reflexivity.
Qed.

(** A file output that the agent did not write reaches the prompt of a
    later step as a marker.  The step records the text [[File not created]]
    where the path would be.  For a later step whose template holds the
    placeholder of that output and no other opening brace, the subprocess
    runner takes the marker for a path and, when no file has that name,
    puts the marker itself in the prompt in the place of the placeholder,
    with a warning; the session runner leaves the placeholder as it is,
    with another warning. *)
Theorem missing_file_output_handover (dir : option string)
  (o : WorkflowOutput) (out : smap string) (w : world) (f : string)
  (c : Config) (s : WorkflowAgentStep) (stepOutputs : smap string)
  (pre body post : string) :
  filename o = Some f -> f <> EmptyString -> type o = type_file ->
  existsSync (disk w) f = false ->
  existsSync (disk w) "[File not created]" = false ->
  lacks "." (id s) = true -> lacks "." (name o) = true ->
  List.find (fun s' => String.eqb (id s') (id s)) (steps c) = Some s ->
  List.find (fun o' => String.eqb (name o') (name o)) (outputs s) = Some o ->
  map_get (stepsOutput c) (id s) = Some stepOutputs ->
  prompt_template (step c) = pre ++ "{{" ++ body ++ "}}" ++ post ->
  lacks "{" pre = true -> lacks "{" post = true ->
  body <> EmptyString -> lacks "}" body = true ->
  trim body = "steps." ++ id s ++ ".outputs." ++ name o ->
  let out' := map_set out (name o) "[File not created]" in
  let w' := logged w (warning_sign ++ "Expected file '" ++ f
                        ++ "' was not created") in
  Runner.extractFileOutput dir o out w = (Returned out', w') /\
  Session.extractFileOutput dir o out w = (Returned out', w') /\
  (map_get stepOutputs (name o) = map_get out' (name o) ->
   prompt c w'
   = (Returned
        (pre ++ "[File not created]" ++ post
           ++ Runner.generateOutputInstructions (tool c) (outputs (step c))),
      {| disk := disk w';
         console :=
           (console w'
              ++ ((nl ++ "Prompt Template Warnings:")%string
                    :: warning_lines
                         ["File '[File not created]' does not exist"]))%list
      |}) /\
   (map_get stepOutputs (name o ++ "_content") = None ->
    ACPRunner.buildACPPrompt c w'
    = (Returned
         (prompt_template (step c)
            ++ ACPRunner.generateOutputInstructions (outputs (step c))),
       {| disk := disk w';
          console :=
            (console w'
               ++ ((nl ++ "Prompt Template Warnings:")%string
                     :: warning_lines
                          [("File content for '" ++ name o
                              ++ "' not found in step '" ++ id s
                              ++ "'")%string]))%list
       |}))).
Proof.
  intros Hf Nf Ht He Hm Ls Lo Fs Fo Hs Htpl Hpre Hpost Hne Hb Hbody out' w'.
  assert (E : Runner.extractFileOutput dir o out w = (Returned out', w') /\
              Session.extractFileOutput dir o out w = (Returned out', w')).
  { unfold Runner.extractFileOutput, Session.extractFileOutput, try_catch.
    rewrite Hf. apply String.eqb_neq in Nf. rewrite Nf, He.
    split; reflexivity. }
  destruct E as [E1 E2]. split; [exact E1|]. split; [exact E2|].
  intros K1. subst out'. rewrite map_get_set_same in K1.
  destruct (resolve_recorded_file c (disk w') s o stepOutputs
              "[File not created]" Ht Ls Lo Fs Fo Hs K1) as [R A].
  cbv zeta in R, A. rewrite <- Hbody in R, A.
  assert (L : loadValueByType (disk w') "[File not created]" type_file
              = ("[File not created]",
                 ["File '[File not created]' does not exist"])).
  { unfold loadValueByType. subst w'. unfold logged. cbn [disk].
    now rewrite Hm. }
  rewrite L in R.
  split.
  - rewrite (prompt_single c w' pre body post _ _ Htpl Hpre Hpost Hne Hb R).
    rewrite Htpl, replace_single by (try assumption; reflexivity).
    now rewrite !append_assoc.
  - intros K2. rewrite K2 in A.
    rewrite (buildACPPrompt_single c w' pre body post _ _
               Htpl Hpre Hpost Hne Hb A).
    reflexivity.
Qed.

End Files.

Lemma file_output_handover_witness :
  prompt (host := sample_host) (after_plan "1. fix the bug")
    (plan_on_disk "1. fix the bug")
  = (Returned "1. fix the bug", plan_on_disk "1. fix the bug") /\
  ACPRunner.buildACPPrompt (after_plan "1. fix the bug")
    (plan_on_disk "1. fix the bug")
  = (Returned "1. fix the bug", plan_on_disk "1. fix the bug") /\
  ACPRunner.buildACPPrompt (after_plan EmptyString) (plan_on_disk EmptyString)
  = (Returned "{{steps.s1.outputs.f}}",
     {| disk := disk (plan_on_disk EmptyString);
        console := [(nl ++ "Prompt Template Warnings:")%string;
                    "└── File content for 'f' not found in step 's1'"] |}).
Proof.
  assert (N : "plan.md" <> EmptyString) by discriminate.
  assert (B : "steps.s1.outputs.f" <> EmptyString) by discriminate.
  assert (D : forall content d,
             @None string = Some d -> d <> EmptyString ->
             let p := path_join (Host := sample_host) d
                        (path_basename (Host := sample_host) "plan.md") in
             path_resolve (Host := sample_host) p
             <> path_resolve (Host := sample_host) "plan.md" /\
             copy_refused (Host := sample_host)
               (disk (plan_on_disk content)) "plan.md" p = None /\
             remove_refused (Host := sample_host)
               (map_set (disk (plan_on_disk content))
                  (path_resolve (Host := sample_host) p) (Readable content))
               "plan.md" = None)
    by (intros content d Hd; discriminate Hd).
  destruct (file_output_handover (host := sample_host) None plan_output []
              (plan_on_disk "1. fix the bug") "plan.md" "1. fix the bug"
              (after_plan "1. fix the bug") step_s1
              [("f", "plan.md"); ("f_content", "1. fix the bug")]
              EmptyString "steps.s1.outputs.f" EmptyString
              eq_refl N eq_refl eq_refl (D "1. fix the bug")
              eq_refl eq_refl eq_refl eq_refl
              eq_refl eq_refl eq_refl eq_refl B eq_refl eq_refl)
    as (out1 & w1 & E1 & _ & K1).
  destruct (file_output_handover (host := sample_host) None plan_output []
              (plan_on_disk EmptyString) "plan.md" EmptyString
              (after_plan EmptyString) step_s1
              [("f", "plan.md"); ("f_content", EmptyString)]
              EmptyString "steps.s1.outputs.f" EmptyString
              eq_refl N eq_refl eq_refl (D EmptyString)
              eq_refl eq_refl eq_refl eq_refl
              eq_refl eq_refl eq_refl eq_refl B eq_refl eq_refl)
    as (out2 & w2 & E2 & _ & K2).
  vm_compute in E1. injection E1 as <- <-.
  vm_compute in E2. injection E2 as <- <-.
  destruct K1 as (_ & P1 & A1 & _); [intros k [->| ->]; reflexivity|].
  destruct K2 as (_ & _ & _ & A2); [intros k [->| ->]; reflexivity|].
  split; [exact (P1 eq_refl)|]. split; [|exact (A2 eq_refl)].
  apply A1; [reflexivity|discriminate].
Defined.

Lemma missing_file_output_handover_witness :
  prompt (host := sample_host) after_no_plan
    (logged empty_disk
       (warning_sign ++ "Expected file 'plan.md' was not created"))
  = (Returned "[File not created]",
     {| disk := [];
        console := [(warning_sign ++ "Expected file 'plan.md' was not created")%string;
                    (nl ++ "Prompt Template Warnings:")%string;
                    "└── File '[File not created]' does not exist"] |}) /\
  ACPRunner.buildACPPrompt after_no_plan
    (logged empty_disk
       (warning_sign ++ "Expected file 'plan.md' was not created"))
  = (Returned "{{steps.s1.outputs.f}}",
     {| disk := [];
        console := [(warning_sign ++ "Expected file 'plan.md' was not created")%string;
                    (nl ++ "Prompt Template Warnings:")%string;
                    "└── File content for 'f' not found in step 's1'"] |}).
Proof.
  assert (N : "plan.md" <> EmptyString) by discriminate.
  assert (B : "steps.s1.outputs.f" <> EmptyString) by discriminate.
  destruct (missing_file_output_handover (host := sample_host) None
              plan_output [] empty_disk "plan.md" after_no_plan step_s1
              [("f", "[File not created]")]
              EmptyString "steps.s1.outputs.f" EmptyString
              eq_refl N eq_refl eq_refl eq_refl eq_refl eq_refl eq_refl
              eq_refl eq_refl eq_refl eq_refl eq_refl B eq_refl eq_refl)
    as (_ & _ & K).
  destruct K as [R A]; [reflexivity|].
  split; [exact R|]. apply A. reflexivity.
Defined.

End SessionFacts.

(** ** String outputs that are not in the response *)

Module NotFoundFacts.
Import Str StrFacts Json Exn Runner RunnerFacts OutputFacts Samples.

(** *** The texts that cannot start a JSON text *)

(** [parse] fails on a text that cannot start a JSON text, as [JSON.parse]
    does. *)
Lemma not_json_parse (text : string) :
  not_json text = true -> parse text = None.
Proof.
  unfold not_json, parse. intros H. cbn [parse_value].
  destruct (skip_ws text) as [|c r]; [reflexivity|].
  unfold opens_json in H. apply negb_true_iff in H.
  rewrite !orb_false_iff in H.
  destruct H as (((((((H1 & H2) & H3) & H4) & H5) & H6) & H7) & H8).
  rewrite H8, H6, H7, H3, H2, H1.
  unfold parse_number. rewrite H4. cbn [span_digits]. rewrite H5.
  destruct (number_continues (String c r)); reflexivity.
Qed.

Section Found.
Context {host : Host}.

(** *** The loop over the string outputs *)




(** *** The loop over the file outputs *)




(** *** The step of the subprocess runner *)


(** *** The step of the session runner *)






End Found.


End NotFoundFacts.


(** ** Durations *)

Module ListingFacts.
Import Str Json Exn Task TaskFacts ManagerFacts Listing.

Section Durations.
Context {env : Env} {dates : Dates}.

(** *** [formatDuration] *)

Lemma formatDuration_end (n1 n2 : Z) (startTime endTime : json) :
  truthy endTime = true ->
  formatDuration n1 startTime endTime = formatDuration n2 startTime endTime.
Proof. intros H. unfold formatDuration. now rewrite H. Qed.

(** The text of a duration by the milliseconds between the two times.
    Under a minute it is the seconds, and so it is for a start that lies
    after the end, which shows as negative seconds; under an hour it is the
    minutes and the seconds; from an hour on it is the hours and the
    minutes, and the seconds are dropped.  The end is the current time when
    no end time is given. *)
Theorem formatDuration_cases (now : Z) (startTime endTime : json) (s e : Z) :
  truthy startTime = true ->
  getTime startTime = Some s ->
  (if truthy endTime then getTime endTime else Some now) = Some e ->
  formatDuration now startTime endTime
  = let d := (e - s)%Z in
    if (d <? 60000)%Z then Z_to_string (d / 1000) ++ "s"
    else if (d <? 3600000)%Z then
      Z_to_string (d / 60000) ++ "m " ++ Z_to_string ((d / 1000) mod 60) ++ "s"
    else
      Z_to_string (d / 3600000) ++ "h " ++ Z_to_string ((d / 60000) mod 60)
        ++ "m".
Proof.
  intros Ht Hs He. unfold formatDuration. rewrite Ht, Hs, He.
  cbn [negb]. cbv zeta.
  set (d := (e - s)%Z).
  assert (M : (d / 1000 / 60 = d / 60000)%Z)
    by (rewrite Z.div_div by lia; reflexivity).
  assert (Hh : (d / 1000 / 60 / 60 = d / 3600000)%Z)
    by (rewrite M, Z.div_div by lia; reflexivity).
  rewrite Hh, M.
  destruct (Z.ltb_spec d 60000) as [L1|L1].
  - assert (d / 60000 <= 0)%Z
      by (apply Z.lt_succ_r; apply Z.div_lt_upper_bound; lia).
    assert (d / 3600000 <= 0)%Z
      by (apply Z.lt_succ_r; apply Z.div_lt_upper_bound; lia).
    destruct (Z.ltb_spec 0 (d / 3600000)); [lia|].
    destruct (Z.ltb_spec 0 (d / 60000)); [lia|]. reflexivity.
  - assert (0 < d / 60000)%Z by (apply Z.div_str_pos; lia).
    destruct (Z.ltb_spec d 3600000) as [L2|L2].
    + assert (d / 3600000 <= 0)%Z
        by (apply Z.lt_succ_r; apply Z.div_lt_upper_bound; lia).
      destruct (Z.ltb_spec 0 (d / 3600000)); [lia|].
      destruct (Z.ltb_spec 0 (d / 60000)); [|lia].
      rewrite Z.rem_mod_nonneg; [reflexivity| |lia].
      apply Z.div_pos; lia.
    + assert (0 < d / 3600000)%Z by (apply Z.div_str_pos; lia).
      destruct (Z.ltb_spec 0 (d / 3600000)); [|lia].
      rewrite Z.rem_mod_nonneg; [reflexivity|lia|lia].
Qed.

(** *** The rows of tasks that have ended *)

Lemma str_or_nonempty (x : option string) (now : string) :
  now <> EmptyString -> str_or x now <> EmptyString.
Proof.
  intros H. unfold str_or. destruct x as [t|]; [|exact H].
  destruct (String.eqb_spec t EmptyString); assumption.
Qed.

Lemma truthy_text (t : string) : t <> EmptyString -> truthy (JStr t) = true.
Proof. destruct t; [congruence|reflexivity]. Qed.

Lemma endTime_after_setStatus (now : string) (st : TaskStatus)
  (md : option StatusMetadata) (w : world) :
  now <> EmptyString -> ended st = true ->
  truthy (endTime (snd (setStatus now st md w))) = true.
Proof.
  intros Hn He. unfold endTime. rewrite status_after_setStatus.
  rewrite setStatus_in_memory. unfold setStatus_data. cbv zeta.
  pose proof (truthy_text _ (str_or_nonempty
                               (match md with
                                | Some m => timestamp m
                                | None => None
                                end) now Hn)) as Ht.
  destruct st; try discriminate He; cbn [status_name String.eqb Ascii.eqb
    Bool.eqb orb existsb].
  - get_set. exact Ht.
  - destruct (truthy (of_option _)); get_set; exact Ht.
  - destruct (truthy (of_option _)); get_set; exact Ht.
  - get_set. destruct (truthy (get (data w) "completedAt")) eqn:C;
      get_set; [exact C|exact Ht].
  - get_set. destruct (truthy (get (data w) "completedAt")) eqn:C;
      get_set; [exact C|exact Ht].
Qed.

(** The duration shown for a task that has ended does not run on.  Once
    [setStatus] has given a task one of the five statuses that end it, the
    row of the list command measures its duration up to a time stamp of the
    task, so the row is the same whenever the list is shown; for the other
    three statuses the duration is measured up to the time of the
    listing. *)
Theorem ended_task_row_is_fixed (now : string) (st : TaskStatus)
  (md : option StatusMetadata) (w : world) :
  now <> EmptyString ->
  let w' := snd (setStatus now st md w) in
  (ended st = true ->
   truthy (endTime w') = true /\
   forall t1 t2 it groupId,
     buildTaskRow t1 it groupId w' = buildTaskRow t2 it groupId w') /\
  (ended st = false -> endTime w' = JUndef).
Proof.
  intros Hn w'. split.
  - intros He.
    pose proof (endTime_after_setStatus now st md w Hn He) as Ht.
    split; [exact Ht|]. intros t1 t2 it groupId. unfold buildTaskRow.
    now rewrite (formatDuration_end t1 t2 _ _ Ht).
  - intros He. subst w'. unfold endTime. rewrite status_after_setStatus.
    destruct st; try discriminate He; reflexivity.
Qed.

(** *** [getDuration] after a restart *)

Lemma restart_frame (now : string) (t : option string) (w : world)
  (k : string) :
  In k ["completedAt"; "failedAt"] ->
  get (data (snd (restart now t w))) k = get (data w) k.
Proof.
  intros Hk. rewrite restart_in_memory. unfold setStatus_data. cbv zeta.
  destruct Hk as [<-|[<-|[]]];
    destruct (truthy _); get_set; reflexivity.
Qed.

Lemma restart_startedAt (now : string) (t : option string) (w : world) :
  truthy (get (data w) "startedAt") = true ->
  get (data (snd (restart now t w))) "startedAt" = get (data w) "startedAt".
Proof.
  intros Hs. rewrite restart_in_memory. unfold setStatus_data. cbv zeta.
  get_set. rewrite Hs. get_set. reflexivity.
Qed.

(** A restart does not start the duration of a task again: for a task
    that was started once, [getDuration] is after [restart] what it was
    before, so a task that failed and runs again still reports the time its
    failed run took. *)
Theorem getDuration_after_restart (now : string) (t : option string)
  (w : world) :
  truthy (get (data w) "startedAt") = true ->
  getDuration (snd (restart now t w)) = getDuration w /\
  get (data (snd (restart now t w))) "status" = JStr "IN_PROGRESS".
Proof.
  intros Hs. split.
  - unfold getDuration.
    rewrite (restart_startedAt now t w Hs).
    rewrite (restart_frame now t w "completedAt") by (cbn; auto).
    rewrite (restart_frame now t w "failedAt") by (cbn; auto).
    reflexivity.
  - rewrite restart_in_memory. unfold setStatus_data. cbv zeta.
    get_set. rewrite Hs. get_set. reflexivity.
Qed.

End Durations.

Lemma formatDuration_cases_witness :
  formatDuration (dates := sample_dates) 0 (JStr sample_time) (JStr later_time)
  = "1h 30m" /\
  formatDuration (dates := sample_dates) 0 (JStr later_time) (JStr sample_time)
  = "-5400s".
Proof.
  split.
  - exact (formatDuration_cases (dates := sample_dates) 0 (JStr sample_time)
             (JStr later_time) 36000000 41400000 eq_refl eq_refl eq_refl).
  - exact (formatDuration_cases (dates := sample_dates) 0 (JStr later_time)
             (JStr sample_time) 41400000 36000000 eq_refl eq_refl eq_refl).
Defined.

Lemma ended_task_row_is_fixed_witness :
  buildTaskRow (dates := sample_dates) 41400000 (Some sample_view) None
    (snd (setStatus (env := sample_env) later_time FAILED None sample_task))
  = buildTaskRow (dates := sample_dates) 86400000 (Some sample_view) None
      (snd (setStatus (env := sample_env) later_time FAILED None sample_task)).
Proof.
  assert (N : later_time <> EmptyString) by discriminate.
  destruct (ended_task_row_is_fixed (env := sample_env)
              (dates := sample_dates) later_time FAILED None sample_task N)
    as [A _].
  destruct (A eq_refl) as [_ B]. apply B.
Defined.

Lemma getDuration_after_restart_witness :
  getDuration (dates := sample_dates) failed_task = Milliseconds 5400000 /\
  getDuration (dates := sample_dates)
    (snd (restart (env := sample_env) later_time None failed_task))
  = Milliseconds 5400000.
Proof.
  assert (H : getDuration (dates := sample_dates) failed_task
              = Milliseconds 5400000) by (vm_compute; reflexivity).
  assert (S : truthy (get (data failed_task) "startedAt") = true)
    by (vm_compute; reflexivity).
  destruct (getDuration_after_restart (env := sample_env)
              (dates := sample_dates) later_time None failed_task S)
    as [E _].
  split; [exact H|]. rewrite E. exact H.
Defined.

End ListingFacts.

(** ** A process that asks for authentication *)

Module AuthenticationFacts.
Import Str StrFacts Json Exn Runner RunnerFacts Samples Authentication.

Section Detector.
Context {host : Host}.

Lemma concat_cons (c : string) (l : list string) :
  String.concat EmptyString (c :: l) = c ++ String.concat EmptyString l.
Proof.
  destruct l as [|d l]; [|reflexivity].
  cbn [String.concat]. now rewrite append_nil_r.
Qed.

Lemma authWaitingDetector_detected (chunks : list string) (buf : string) :
  authWaitingDetector chunks buf true = true.
Proof.
  revert buf. induction chunks as [|c r IH]; intros buf; [reflexivity|].
  cbn [authWaitingDetector orb]. apply IH.
Qed.

Lemma authWaitingDetector_prefix (chunks : list string) :
  forall buf n,
    (0 < n <= List.length chunks)%nat ->
    isWaitingForAuthentication (buf ++ written chunks n) = true ->
    authWaitingDetector chunks buf false = true.
Proof.
  induction chunks as [|c r IH]; intros buf n [Hn Hl] Hw;
    [cbn in Hl; lia|].
  cbn [authWaitingDetector orb].
  destruct n as [|n]; [lia|].
  unfold written in Hw. cbn [firstn] in Hw. rewrite concat_cons in Hw.
  rewrite <- append_assoc in Hw.
  destruct n as [|n].
  - cbn [firstn String.concat] in Hw. rewrite append_nil_r in Hw.
    rewrite Hw. apply authWaitingDetector_detected.
  - destruct (isWaitingForAuthentication (buf ++ c));
      [apply authWaitingDetector_detected|].
    apply (IH (buf ++ c) (S n)); [cbn [List.length] in Hl; lia|exact Hw].
Qed.

(** A process that asks for authentication fails the step, whatever else
    it does.  When what the process has written to its standard error
    looks, at the arrival of some chunk, like a wait for authentication, the
    step ends as a failure with the authentication error: the exit code is
    not looked at, the recovery of the agent is not tried, and no output is
    parsed, so the output map holds the three entries of the error only. *)
Theorem authentication_prompt_fails_step (c : Config)
  (launch : string -> LaunchResult) (dir : option string) (w w1 : world)
  (finalPrompt : string) (n : nat) :
  prompt c w = (Returned finalPrompt, w1) ->
  (0 < n <= List.length (stderr_chunks (launch finalPrompt)))%nat ->
  isWaitingForAuthentication
    (written (stderr_chunks (launch finalPrompt)) n) = true ->
  let e := newAuthenticationError AUTH_MESSAGE (tool c) in
  exists r w',
    run c launch dir w = (Returned r, w') /\
    success r = false /\
    error r = Some (message e) /\
    result_outputs r
    = [("error", message e); ("error_code", code e);
       ("error_retryable", bool_text (isRetryable e))].
Proof.
  intros Hp Hn Hw e.
  assert (D : authWaitingDetector (stderr_chunks (launch finalPrompt))
                EmptyString false = true)
    by (apply (authWaitingDetector_prefix _ EmptyString n Hn); exact Hw).
  destruct (finish_error c finalPrompt dir e w1) as (r & w' & F & O & S & Er).
  exists r, w'. split; [|split; [exact S|split; [exact Er|exact O]]].
  unfold run, bind. rewrite Hp. unfold attempt. rewrite D.
  unfold ret. cbn [fst snd]. exact F.
Qed.

End Detector.

Lemma authentication_prompt_fails_step_witness :
  exitCode (asking_launch EmptyString) = Some 0%Z /\
  isWaitingForAuthentication (Host := waiting_host) "Waiting for " = false /\
  success (result_of (run (host := waiting_host) (sample_config step_review)
                        asking_launch None sample_world)) = false.
Proof.
  assert (P : prompt (host := waiting_host) (sample_config step_review)
                sample_world
              = (Returned (prompt_of (prompt (host := waiting_host)
                                        (sample_config step_review)
                                        sample_world)),
                 sample_world))
    by (vm_compute; reflexivity).
  split; [reflexivity|]. split; [reflexivity|].
  destruct (authentication_prompt_fails_step (host := waiting_host)
              (sample_config step_review) asking_launch None sample_world
              sample_world _ 2 P) as (r & w' & E & S & _).
  - cbn. lia.
  - vm_compute. reflexivity.
  - unfold result_of. rewrite E. exact S.
Defined.

End AuthenticationFacts.

(** ** A task that was just created *)

Module CreateFacts.
Import Str Json Exn Task TaskFacts Manager ManagerFacts.

Section Created.
Context {env : Env}.

Lemma create_data (now uuid base : string) (t : CreateTaskData) (fs : files)
  (w : world) :
  create now uuid base t fs = Returned w ->
  get (data w) "status" = JStr "NEW" /\
  get (data w) "createdAt" = JStr now /\
  get (data w) "startedAt" = JStr now /\
  get (data w) "iterations" = JNum 1.
Proof.
  unfold create.
  match goal with
  | |- context [validate ?w0] =>
      destruct (validate w0) as [[[]|e] w1]; [|discriminate];
      pose proof (save_data w0) as D;
      destruct (save w0) as [[[]|e] w2]; [|discriminate]
  end.
  intros [= <-]. cbn [snd] in D. rewrite D. cbn [data].
  repeat split.
Qed.

(** A task is started when it is created.  [create] records the time of
    the creation as the start of the task, which has status NEW; so the
    first [markInProgress], and a [restart], never record a start time of
    their own, whatever time stamp they are given, and the task counts as
    active from its creation. *)
Theorem created_task_start_time (now uuid base : string) (t : CreateTaskData)
  (fs : files) (w : world) :
  create now uuid base t fs = Returned w ->
  now <> EmptyString ->
  get (data w) "startedAt" = get (data w) "createdAt" /\
  isNew w = true /\ isActive w = true /\
  (forall later startedAt,
     get (data (snd (markInProgress later startedAt w))) "startedAt"
     = JStr now) /\
  (forall later timestamp,
     get (data (snd (restart later timestamp w))) "startedAt" = JStr now).
Proof.
  intros Hc Hn. destruct (create_data _ _ _ _ _ _ Hc) as (Hs & Hca & Hsa & _).
  assert (Ht : truthy (get (data w) "startedAt") = true)
    by (rewrite Hsa; destruct now; [congruence|reflexivity]).
  assert (Hnew : isNew w = true) by (now apply status_is_spec).
  split; [now rewrite Hsa, Hca|]. split; [exact Hnew|].
  split; [unfold isActive; now rewrite Hnew|]. split.
  - intros later startedAt. unfold markInProgress.
    rewrite setStatus_in_memory. unfold setStatus_data. cbv zeta.
    get_set. rewrite Ht. get_set. exact Hsa.
  - intros later timestamp. rewrite restart_in_memory.
    unfold setStatus_data. cbv zeta. get_set. rewrite Ht. get_set.
    exact Hsa.
Qed.

End Created.

Lemma created_task_start_time_witness :
  get (data sample_task) "startedAt" = JStr sample_time /\
  get (data (snd (markInProgress (env := sample_env) later_time
                    (Some later_time) sample_task))) "startedAt"
  = JStr sample_time.
Proof.
  assert (C : create (env := sample_env) sample_time
                "123e4567-e89b-42d3-a456-426614174000" "tasks/15" sample_data []
              = Returned sample_task) by (vm_compute; reflexivity).
  assert (N : sample_time <> EmptyString) by discriminate.
  destruct (created_task_start_time (env := sample_env) _ _ _ _ _ _ C N)
    as (_ & _ & _ & M & _).
  split; [vm_compute; reflexivity|apply M].
Defined.

End CreateFacts.

(** ** The status of a document of an earlier version *)

Module MigrationFacts.
Import Str Json Exn Task Migration.

Lemma lower_char_idem (c : ascii) : lower_char (lower_char c) = lower_char c.
Proof.
  destruct c as [[] [] [] [] [] [] [] []]; reflexivity.
Qed.

Lemma toLowerCase_idem (s : string) :
  toLowerCase (toLowerCase s) = toLowerCase s.
Proof.
  unfold toLowerCase. induction s as [|c s IH]; [reflexivity|].
  cbn [map_chars]. now rewrite lower_char_idem, IH.
Qed.

Section Status.
Context {env : Env}.

(** The status of an old document always migrates to a status of the
    schema: whatever the old value is, [migrateStatus] returns one of the
    eight names; each of the eight names migrates to itself, [running]
    becomes [IN_PROGRESS], and the case of the letters does not matter.  A
    value that is not a text migrates to [NEW], and so does a text that is,
    in lower case, none of the eight names and not [running]; no other text
    migrates to a status that is not its own. *)
Theorem migrateStatus_valid :
  (forall oldStatus, exists st, migrateStatus oldStatus = status_name st) /\
  (forall oldStatus, TaskStatusSchema (JStr (migrateStatus oldStatus)) = true) /\
  (forall st, migrateStatus (JStr (status_name st)) = status_name st) /\
  (forall text,
     migrateStatus (JStr (toLowerCase text)) = migrateStatus (JStr text)) /\
  migrateStatus (JStr "Running") = "IN_PROGRESS" /\
  (forall oldStatus,
     (forall text, oldStatus <> JStr text) -> migrateStatus oldStatus = "NEW") /\
  (forall text,
     ~ In (toLowerCase text)
          ["new"; "in_progress"; "running"; "iterating"; "completed";
           "failed"; "paused_credits"; "merged"; "pushed"] ->
     migrateStatus (JStr text) = "NEW") /\
  (forall text st,
     migrateStatus (JStr text) = status_name st ->
     toLowerCase text = toLowerCase (status_name st) \/
     (st = IN_PROGRESS /\ toLowerCase text = "running") \/
     (st = NEW /\
      ~ In (toLowerCase text)
           ["new"; "in_progress"; "running"; "iterating"; "completed";
            "failed"; "paused_credits"; "merged"; "pushed"])).
Proof.
  assert (A : forall oldStatus,
             exists st, migrateStatus oldStatus = status_name st).
  { intros [| |b|n|text|l|m]; try (exists NEW; reflexivity).
    unfold migrateStatus. cbv zeta.
    repeat match goal with
           | |- context [if ?b then _ else _] => destruct b
           end;
      first [ exists NEW; reflexivity | exists IN_PROGRESS; reflexivity
            | exists ITERATING; reflexivity | exists COMPLETED; reflexivity
            | exists FAILED; reflexivity | exists PAUSED_CREDITS; reflexivity
            | exists MERGED; reflexivity | exists PUSHED; reflexivity ]. }
  split; [exact A|]. split; [|split; [|split; [|split; [|split; [|split]]]]].
  - intros oldStatus. destruct (A oldStatus) as [st ->].
    destruct st; reflexivity.
  - intros st. destruct st; reflexivity.
  - intros text. unfold migrateStatus. now rewrite toLowerCase_idem.
  - reflexivity.
  - intros [| |b|n|text|l|m] H; try reflexivity. now destruct (H text).
  - intros text H. unfold migrateStatus. cbv zeta.
    generalize dependent (toLowerCase text). intros s H. cbn [In] in H.
    repeat match goal with
           | |- context [String.eqb s ?k] =>
               destruct (String.eqb_spec s k); [exfalso; intuition congruence|]
           end.
    reflexivity.
  - intros text st. unfold migrateStatus. cbv zeta.
    generalize (toLowerCase text). intros s.
    repeat match goal with
           | |- context [String.eqb s ?k] =>
               destruct (String.eqb_spec s k) as [->|?]
           end;
      cbn [orb]; intros E; destruct st; try discriminate E;
      first [ left; reflexivity
            | right; left; split; reflexivity
            | right; right; split; [reflexivity|];
              cbn [In]; intuition congruence ].
Qed.

End Status.

End MigrationFacts.

(** ** The two runners on one template *)

Module TwoRunnersFacts.
Import Str StrFacts Json Exn Runner RunnerFacts TwoRunners.

Section Prompts.
Context {host : Host}.

Lemma resolvers_agree (c : Config) (fs : files) (placeholder : string) :
  string_reference c placeholder ->
  Runner.resolve c fs placeholder = ACPRunner.resolve c placeholder.
Proof.
  intros H. unfold Runner.resolve, ACPRunner.resolve. cbv zeta.
  unfold string_reference in H.
  destruct (split_on "." placeholder) as [|p0 [|p1 [|p2 [|p3 [|p4 l]]]]];
    try reflexivity.
  destruct (String.eqb_spec p0 "steps") as [->|N0]; [|reflexivity].
  destruct (String.eqb_spec p2 "outputs") as [->|N2]; [|reflexivity].
  cbn [andb].
  destruct (map_get (stepsOutput c) p1) as [stepOutputs|] eqn:Hs;
    [|reflexivity].
  destruct (map_get stepOutputs p3) as [value|] eqn:Hv; [|reflexivity].
  destruct (H p1 p3 stepOutputs value eq_refl Hs Hv)
    as (stepDef & def & F1 & F2 & Ht).
  rewrite F1, F2. cbn [option_map]. rewrite Ht. reflexivity.
Qed.

Lemma substitutes_agree (c : Config) (fs : files)
  (matches : list (string * string)) :
  (forall fullMatch captured,
     In (fullMatch, captured) matches -> string_reference c (trim captured)) ->
  forall text warnings,
    Runner.substitute c fs matches text warnings
    = ACPRunner.substitute c matches text warnings.
Proof.
  induction matches as [|[fullMatch captured] r IH]; intros H text warnings;
    [reflexivity|].
  cbn [Runner.substitute ACPRunner.substitute].
  rewrite (resolvers_agree c fs (trim captured))
    by (apply (H fullMatch); now left).
  destruct (ACPRunner.resolve c (trim captured)) as [v ws].
  apply IH. intros f k Hin. apply (H f). now right.
Qed.

(** On a template that refers to no file output the two runners build the
    same prompt.  When every placeholder of the template of a step is an
    input, an invalid form, or an output that the workflow declares of type
    string, the subprocess runner and the session runner replace the same
    placeholders by the same values and log the same warnings, whatever the
    files are; their prompts differ by the output instructions only, and
    are equal for a step that declares no output. *)
Theorem runners_build_same_prompt (c : Config) (w : world) :
  (forall fullMatch captured,
     In (fullMatch, captured) (matchAll (prompt_template (step c))) ->
     string_reference c (trim captured)) ->
  exists body,
    prompt c w
    = (Returned (body ++ Runner.generateOutputInstructions (tool c)
                           (outputs (step c))),
       snd (ACPRunner.buildACPPrompt c w)) /\
    fst (ACPRunner.buildACPPrompt c w)
    = Returned (body ++ ACPRunner.generateOutputInstructions
                          (outputs (step c))) /\
    (outputs (step c) = [] ->
     prompt c w = ACPRunner.buildACPPrompt c w).
Proof.
  intros H. unfold prompt, ACPRunner.buildACPPrompt.
  rewrite (substitutes_agree c (disk w) _ H).
  destruct (ACPRunner.substitute c (matchAll (prompt_template (step c)))
              (prompt_template (step c)) []) as [body warnings].
  exists body. destruct warnings as [|x l].
  - split; [reflexivity|]. split; [reflexivity|].
    intros E. rewrite E. reflexivity.
  - split; [reflexivity|]. split; [reflexivity|].
    intros E. rewrite E. reflexivity.
Qed.

End Prompts.

Lemma runners_build_same_prompt_witness :
  prompt (host := sample_host) after_outcome sample_world
  = (Returned "The task is simple: fix the bug", sample_world) /\
  ACPRunner.buildACPPrompt after_outcome sample_world
  = (Returned "The task is simple: fix the bug", sample_world).
Proof.
  assert (H : forall fullMatch captured,
             In (fullMatch, captured)
                (matchAll (prompt_template (step after_outcome))) ->
             string_reference after_outcome (trim captured)).
  { intros fullMatch captured Hin. vm_compute in Hin.
    destruct Hin as [E|[E|[]]]; injection E as <- <-;
      intros stepId outputName stepOutputs value Hsplit Hs Hv;
      vm_compute in Hsplit; [|discriminate Hsplit].
    injection Hsplit as <- <-. vm_compute in Hs. injection Hs as <-.
    exists step_s1, outcome_output. repeat split. }
  destruct (runners_build_same_prompt (host := sample_host) after_outcome
              sample_world H)
    as (body & _ & _ & E).
  rewrite <- (E eq_refl). split; vm_compute; reflexivity.
Defined.

End TwoRunnersFacts.
